(** * Wisp engine asset pipeline: a shallow embedding of the Python tools

    The development follows the tools of the repository file by file:
    - [Numpy]: the width of the results of NumPy scalar arithmetic, on
      which the pixel loops of the image tools depend;
    - [DepthRle]: the run-length loop shared verbatim by
      [tools/wisp_builder.py] (compile_png_to_sprite) and
      [tools/png_to_spr_standalone.py] (compile_png_to_spr);
    - [WispBuilder]: [tools/wisp_builder.py];
    - [WispVerifier]: [tools/wisp_verifier.py];
    - [PngToSpr]: [tools/png_to_spr_standalone.py];
    - [PaletteConverter]: [tools/wisp_palette_converter.py];
    - [RomBuilderV2]: [tools/wisp_rom_builder_v2.py];
    - [RomBuilder]: [tools/wisp_rom_builder.py].

    Conventions.  A Python [bytes] value is a [list Z] of values in
    [0..255]; a Python [int] is a [Z]; a Python [str] that is only ever
    encoded to or decoded from UTF-8 is represented by its UTF-8 bytes.
    A raised exception is the [None] of an [option] (or a dedicated
    constructor where the kind of failure matters).  An image sample read
    from [np.array(img)] is a [numpy.uint8] scalar: it is a [Z] in
    [0..255], and where a result can leave 8 bits the operations on it go
    through [Numpy.arith], which writes out the width of the result under
    the promotion rules of the installed NumPy. *)

From Stdlib Require Import ZArith List Bool Lia String Ascii.
Import ListNotations.
Local Open Scope Z_scope.

(** ** Option as the exception monad *)

Definition bind {A B : Type} (m : option A) (k : A -> option B) : option B :=
  match m with
  | Some a => k a
  | None => None
  end.

Notation "x <- m ;; k" := (bind m (fun x => k))
  (at level 61, m at next level, right associativity).

Fixpoint mapM {A B : Type} (f : A -> option B) (l : list A) : option (list B) :=
  match l with
  | [] => Some []
  | a :: l' =>
      b <- f a ;;
      bs <- mapM f l' ;;
      Some (b :: bs)
  end.

(** ** Byte strings, slices and [struct] *)

Definition bytes := list Z.

Definition len {A : Type} (l : list A) : Z := Z.of_nat (List.length l).

(** [range n] is Python's [range(n)]. *)
Definition range (n : Z) : list Z := map Z.of_nat (seq 0 (Z.to_nat n)).

(** [slice l a b] is [l[a:b]] for non-negative [a] and [b]: it is clipped
    to the sequence and empty when [b <= a]. *)
Definition slice {A : Type} (l : list A) (a b : Z) : list A :=
  firstn (Z.to_nat (b - a)) (skipn (Z.to_nat a) l).

(** [l[i]] for a non-negative index; out of range raises IndexError. *)
Definition index {A : Type} (l : list A) (i : Z) : option A :=
  if i <? 0 then None else nth_error l (Z.to_nat i).

Fixpoint bytes_eqb (a b : bytes) : bool :=
  match a, b with
  | [], [] => true
  | x :: a', y :: b' => (x =? y) && bytes_eqb a' b'
  | _, _ => false
  end.

(** Little-endian unsigned fields of [struct.pack]: ['<B'], ['<H'], ['<I'].
    A value that does not fit raises [struct.error]. *)
Definition le_bytes (n : nat) (v : Z) : bytes :=
  map (fun k => Z.land (Z.shiftr v (8 * Z.of_nat k)) 255) (seq 0 n).

Definition pack_uint (n : nat) (v : Z) : option bytes :=
  if (0 <=? v) && (v <? 2 ^ (8 * Z.of_nat n)) then Some (le_bytes n v) else None.

Definition pack_B := pack_uint 1.
Definition pack_H := pack_uint 2.
Definition pack_I := pack_uint 4.

(** [struct.pack] with a little-endian format of unsigned fields.  The
    format is read into the sizes of its fields: an optional repeat count,
    then B (1 byte), H (2) or L, I (4). *)
Definition digit_of (c : ascii) : option nat :=
  let n := nat_of_ascii c in
  if (48 <=? n)%nat && (n <=? 57)%nat then Some (n - 48)%nat else None.

Definition size_of (c : ascii) : nat :=
  if Ascii.eqb c "B" then 1
  else if Ascii.eqb c "H" then 2
  else 4.

Fixpoint format_sizes (fmt : list ascii) (count : option nat) : list nat :=
  match fmt with
  | [] => []
  | c :: rest =>
      match digit_of c with
      | Some d =>
          format_sizes rest
            (Some (10 * match count with Some n => n | None => 0 end + d)%nat)
      | None =>
          repeat (size_of c) (match count with Some n => n | None => 1%nat end)
          ++ format_sizes rest None
      end
  end.

(** One value per field, else [struct.error]; so too when a value does
    not fit its field. *)
Fixpoint pack_values (sizes : list nat) (values : list Z) : option bytes :=
  match sizes, values with
  | [], [] => Some []
  | n :: sizes', v :: values' =>
      b <- pack_uint n v ;;
      bs <- pack_values sizes' values' ;;
      Some (b ++ bs)
  | _, _ => None
  end.

(** [struct.pack('<' + fmt, *values)] *)
Definition struct_pack (fmt : string) (values : list Z) : option bytes :=
  pack_values (format_sizes (list_ascii_of_string fmt) None) values.

(** The ['Ns'] field: the argument is cut or zero-padded to [n] bytes. *)
Definition pack_s (n : nat) (b : bytes) : bytes :=
  firstn n b ++ repeat 0 (n - List.length b).

(** [struct.unpack] of one little-endian unsigned field: the buffer must
    have exactly the size of the field. *)
Definition le_value (b : bytes) : Z :=
  fold_right (fun x acc => x + 256 * acc) 0 b.

Definition unpack_uint (n : nat) (b : bytes) : option Z :=
  if Nat.eqb (List.length b) n then Some (le_value b) else None.

Definition unpack_H := unpack_uint 2.
Definition unpack_I := unpack_uint 4.

(** [b.rstrip(b'\x00')] *)
Fixpoint rstrip0 (b : bytes) : bytes :=
  match b with
  | [] => []
  | x :: b' =>
      match rstrip0 b' with
      | [] => if x =? 0 then [] else [x]
      | t => x :: t
      end
  end.

(** [b.ljust(n, b'\x00')] *)
Definition ljust0 (n : nat) (b : bytes) : bytes :=
  b ++ repeat 0 (n - List.length b).

(** The bytes of an ASCII literal. *)
Definition ascii_bytes (s : string) : bytes :=
  map (fun c => Z.of_nat (nat_of_ascii c)) (list_ascii_of_string s).

(** ** UTF-8

    A [str] is represented by its UTF-8 bytes, so [b.decode('utf-8')]
    returns [b] itself when [b] is well-formed UTF-8 and raises
    UnicodeDecodeError otherwise; decoding is injective, so comparing two
    decoded names is comparing their bytes. *)
Definition between (lo hi b : Z) : bool := (lo <=? b) && (b <=? hi).

Definition utf8_cont (b : Z) : bool := between 128 191 b.

Fixpoint utf8_valid (b : bytes) : bool :=
  match b with
  | [] => true
  | b0 :: t0 =>
      if between 0 127 b0 then utf8_valid t0
      else
        match t0 with
        | [] => false
        | b1 :: t1 =>
            if between 194 223 b0 then utf8_cont b1 && utf8_valid t1
            else
              match t1 with
              | [] => false
              | b2 :: t2 =>
                  if between 224 239 b0 then
                    (if b0 =? 224 then between 160 191 b1
                     else if b0 =? 237 then between 128 159 b1
                     else utf8_cont b1)
                    && utf8_cont b2 && utf8_valid t2
                  else
                    match t2 with
                    | [] => false
                    | b3 :: t3 =>
                        between 240 244 b0
                        && (if b0 =? 240 then between 144 191 b1
                            else if b0 =? 244 then between 128 143 b1
                            else utf8_cont b1)
                        && utf8_cont b2 && utf8_cont b3 && utf8_valid t3
                    end
              end
        end
  end.

Definition decode_utf8 (b : bytes) : option bytes :=
  if utf8_valid b then Some b else None.

(** ** NumPy scalar arithmetic

    [pixels[y, x]] hands out [numpy.uint8] scalars.  The type of the result
    of an operation between such a scalar and a Python int depends on the
    NumPy release that is installed (the tools pin none):
    - value-based casting (NumPy 1.x): the Python int is taken as the
      default integer and the result is an [int64], also for every later
      operation on that result;
    - NEP 50 (NumPy 2 and later): the Python int is weak, the result stays
      a [uint8] and wraps modulo 256 (a shift by 8 bits or more gives 0),
      with a warning only.
    An operation between two Python ints is exact. *)
Module Numpy.

Inductive promotion :=
| value_based
| weak_scalar.

(** What a number in an expression is: a Python int, or a [numpy.uint8]
    sample (or a value computed from one) under the given rules. *)
Inductive number :=
| python_int
| uint8_sample (np : promotion).

Definition wrap_uint8 (v : Z) : Z := v mod 256.

Definition wrap_int64 (v : Z) : Z := (v + 2 ^ 63) mod 2 ^ 64 - 2 ^ 63.

(** The result of an arithmetic or bitwise operation one of whose operands
    is such a number, from the exact value [v] of the operation. *)
Definition arith (k : number) (v : Z) : Z :=
  match k with
  | python_int => v
  | uint8_sample value_based => wrap_int64 v
  | uint8_sample weak_scalar => wrap_uint8 v
  end.

End Numpy.

(** ** The depth run-length loop

    [tools/wisp_builder.py] lines 242-256 and
    [tools/png_to_spr_standalone.py] lines 203-217 are the same code. *)
Module DepthRle.

(** A run is a pair [(depthValue, runLength)]. *)
Abbreviation run := (Z * Z)%type.

(** The [for i in range(1, len(depth_data))] loop, with the final
    [depth_runs.append] at its exit. *)
Fixpoint rle_loop (rest : list Z) (current_depth run_length : Z)
    (depth_runs : list run) : list run :=
  match rest with
  | [] => depth_runs ++ [(current_depth, run_length)]
  | d :: rest' =>
      if (d =? current_depth) && (run_length <? 65535)
      then rle_loop rest' current_depth (run_length + 1) depth_runs
      else rle_loop rest' d 1 (depth_runs ++ [(current_depth, run_length)])
  end.

(** [depth_data[0]] raises IndexError on an empty sequence. *)
Definition rle_encode (depth_data : list Z) : option (list run) :=
  match depth_data with
  | [] => None
  | d0 :: rest => Some (rle_loop rest d0 1 [])
  end.

(** The flat depth map [[6] * (width * height)]. *)
Definition flat_depth (width height : Z) : list Z :=
  repeat 6 (Z.to_nat (width * height)).

(** Reading a run list back: each depth value repeated run-length times. *)
Definition decode_runs (runs : list run) : list Z :=
  flat_map (fun r => repeat (fst r) (Z.to_nat (snd r))) runs.

Definition total_run_length (runs : list run) : Z :=
  fold_right (fun r acc => snd r + acc) 0 runs.

(** No two neighbouring runs carry the same depth value. *)
Fixpoint runs_maximal (runs : list run) : bool :=
  match runs with
  | [] => true
  | r :: rest =>
      match rest with
      | [] => true
      | r' :: _ => negb (fst r =? fst r') && runs_maximal rest
      end
  end.

(** Neighbouring runs carry the same depth value only when the earlier
    one is full (65535 samples). *)
Fixpoint runs_maximal_capped (runs : list run) : bool :=
  match runs with
  | [] => true
  | r :: rest =>
      match rest with
      | [] => true
      | r' :: _ =>
          (negb (fst r =? fst r') || (snd r =? 65535)) && runs_maximal_capped rest
      end
  end.

Definition run_lengths_in_range (runs : list run) : bool :=
  forallb (fun r => (1 <=? snd r) && (snd r <=? 65535)) runs.

(** The maximality statement of the specification, as it is worded:
    whatever the depth sequence, no two neighbouring runs of the output
    share their depth value. *)
Definition every_encoding_is_maximal : Prop :=
  forall depth_data runs,
    rle_encode depth_data = Some runs -> runs_maximal runs = true.

End DepthRle.

(** ** [tools/wisp_builder.py] *)
Module WispBuilder.

Definition MAGIC : bytes := ascii_bytes "WISP".

(** The entry dictionaries built at lines 83-90. *)
Record entry := {
  e_name : bytes;
  e_offset : Z;
  e_size : Z;
  e_type : Z;
  e_flags : Z;
  e_reserved : bytes
}.

(** [ASSET_TYPE] *)
Definition ASSET_TYPE (ext : string) : option Z :=
  if String.eqb ext ".wlut" then Some 1
  else if String.eqb ext ".art" then Some 2
  else if String.eqb ext ".png" then Some 2
  else if String.eqb ext ".tilemap" then Some 3
  else if String.eqb ext ".sfx" then Some 4
  else if String.eqb ext ".wav" then Some 4
  else if String.eqb ext ".ogg" then Some 4
  else if String.eqb ext ".font" then Some 5
  else if String.eqb ext ".yaml" then Some 6
  else if String.eqb ext ".yml" then Some 6
  else if String.eqb ext ".ash" then Some 7
  else if String.eqb ext ".wash" then Some 8
  else if String.eqb ext ".level" then Some 9
  else if String.eqb ext ".depth" then Some 10
  else None.

(** A file that reaches lines 79-93 of [collect_assets]: its path relative
    to the root folder (UTF-8), its type tag [ASSET_TYPE[ext]] and its
    data.  The directory walk, the extension filter and the PNG conversion
    that select and produce these triples are the caller's side. *)
Abbreviation asset := (bytes * Z * bytes)%type.

(** Lines 83-93, with [offset] the running sum of the sizes so far. *)
Fixpoint collect_entries (assets : list asset) (offset : Z)
    : list entry * list bytes :=
  match assets with
  | [] => ([], [])
  | (rel_path, ty, data) :: rest =>
      let e := {| e_name := ljust0 32 (firstn 31 rel_path);
                  e_offset := offset;
                  e_size := len data;
                  e_type := ty;
                  e_flags := 0;
                  e_reserved := [0; 0; 0; 0; 0; 0] |} in
      let (es, ps) := collect_entries rest (offset + len data) in
      (e :: es, data :: ps)
  end.

Inductive collected : Type :=
| Collected (entries : list entry) (payloads : list bytes) (config_data : bytes)
| FileNotFoundError.

(** [config_yaml] and [config_yml] are the contents of [config.yaml] and
    [config.yml] in the root folder, [None] when the file does not exist.
    The first that exists is read; an absent or empty configuration raises. *)
Definition find_config (config_yaml config_yml : option bytes) : option bytes :=
  match config_yaml with
  | Some d => Some d
  | None => config_yml
  end.

Definition collect_assets (config_yaml config_yml : option bytes)
    (assets : list asset) : collected :=
  match find_config config_yaml config_yml with
  | None => FileNotFoundError
  | Some [] => FileNotFoundError
  | Some d =>
      let (es, ps) := collect_entries assets 0 in
      Collected es ps d
  end.

(** [struct.pack(ENTRY_STRUCT, ...)] with ENTRY_STRUCT = '<32sIIBB6s' *)
Definition pack_entry (e : entry) : option bytes :=
  o <- pack_I (e_offset e) ;;
  s <- pack_I (e_size e) ;;
  t <- pack_B (e_type e) ;;
  f <- pack_B (e_flags e) ;;
  Some (pack_s 32 (e_name e) ++ o ++ s ++ t ++ f ++ pack_s 6 (e_reserved e)).

(** [struct.pack(HEADER_STRUCT, ...)] with HEADER_STRUCT = '<4sHHI' *)
Definition pack_header (version entry_count config_size : Z) : option bytes :=
  v <- pack_H version ;;
  n <- pack_H entry_count ;;
  c <- pack_I config_size ;;
  Some (pack_s 4 MAGIC ++ v ++ n ++ c).

(** The truth value of [config_data]: neither [None] nor empty. *)
Definition truthy (config_data : option bytes) : bool :=
  match config_data with
  | Some (_ :: _) => true
  | _ => false
  end.

Definition blob (config_data : option bytes) : bytes :=
  match config_data with
  | Some d => d
  | None => []
  end.

(** The bytes written to [output_file]; [None] when [struct.pack] raises.
    The listing that the function prints once the file is closed is
    [listed_names]. *)
Definition write_wisp_bundle (entries : list entry) (payloads : list bytes)
    (config_data : option bytes) : option bytes :=
  let version := 256 in
  let config_size := if truthy config_data then len (blob config_data) else 0 in
  header <- pack_header version (len entries) config_size ;;
  table <- mapM pack_entry entries ;;
  Some (header
        ++ (if truthy config_data then blob config_data else [])
        ++ List.concat table
        ++ List.concat payloads).

(** Lines 160-166: the listing loop decodes every name field,
    [e['name'].rstrip(b'\x00').decode('utf-8')]; [None] is the
    UnicodeDecodeError of a name that was cut inside a character. *)
Definition listed_names (entries : list entry) : option (list bytes) :=
  mapM (fun e => decode_utf8 (rstrip0 (e_name e))) entries.

(** What the try block of [validate_app_config] does with the content of
    the configuration file: [Valid] when the document has the required
    fields (returns True), [Invalid] when the parser raises YAMLError or a
    field is missing (returns False), [Uncaught] when an exception passes
    the handler, which catches YAMLError only (the TypeError of
    [field not in config] on a document that is no container, as the
    [None] that an empty file loads as). *)
Inductive validation : Type :=
| Valid
| Invalid
| Uncaught.

(** [validate_app_config]: false when neither file exists; otherwise the
    verdict [check] of the YAML parser and of the required-field test on
    the first file that exists. *)
Definition validate_app_config (check : bytes -> validation)
    (config_yaml config_yml : option bytes) : validation :=
  match config_yaml with
  | Some d => check d
  | None =>
      match config_yml with
      | Some d => check d
      | None => Invalid
      end
  end.

Inductive outcome : Type :=
| Exit1
| Raised                        (* an exception before the file is complete *)
| Wrote (file : bytes)          (* the file is written and listed *)
| WroteRaised (file : bytes).   (* the file is written, the listing raises *)

(** The [__main__] block. *)
Definition main (check : bytes -> validation) (config_yaml config_yml : option bytes)
    (assets : list asset) : outcome :=
  match validate_app_config check config_yaml config_yml with
  | Invalid => Exit1
  | Uncaught => Raised
  | Valid =>
      match collect_assets config_yaml config_yml assets with
      | FileNotFoundError => Raised
      | Collected entries payloads config_data =>
          match entries, config_data with
          | [], [] => Exit1
          | _, _ =>
              match write_wisp_bundle entries payloads (Some config_data) with
              | Some file =>
                  match listed_names entries with
                  | Some _ => Wrote file
                  | None => WroteRaised file
                  end
              | None => Raised
              end
          end
      end
  end.

(** *** [compile_png_to_sprite], colour indices (lines 210-220) *)

Abbreviation rgba := (Z * Z * Z * Z)%type.

(** Line 218.  The samples are uint8 scalars; every intermediate value
    stays below 256, so the result is the same at either width. *)
Definition color_index (r g b : Z) : Z :=
  Z.lor (Z.lor (Z.shiftl (Z.shiftr r 5) 5) (Z.shiftl (Z.shiftr g 5) 2))
        (Z.shiftr b 6).

Definition pixel_color (px : rgba) : Z :=
  let '(r, g, b, a) := px in
  if a <? 128 then 0
  else Z.min 255 (Z.max 1 (color_index r g b)).

(** The image is a list of rows; the two nested loops visit it row-major. *)
Definition color_data (rows : list (list rgba)) : list Z :=
  flat_map (map pixel_color) rows.

Definition alpha (px : rgba) : Z := snd px.

(** *** [compile_png_to_sprite], assembly (lines 242-286)

    [None] stands for the [return None] of the exception handler; the
    caller then packs the raw PNG file instead. *)
Definition pack_runs (depth_runs : list (Z * Z)) : option bytes :=
  chunks <- mapM (fun r => struct_pack "BH" [fst r; snd r]) depth_runs ;;
  Some (List.concat chunks).

Definition compile_png_to_sprite (width height : Z) (rows : list (list rgba))
    (depth_data : list Z) : option bytes :=
  let color_data := color_data rows in
  depth_runs <- DepthRle.rle_encode depth_data ;;
  let color_data_size := len color_data in
  let depth_data_size := len depth_runs * 3 in
  let palette_id := 0 in
  let flags := 0 in
  let frame_rows := 1 in
  let frame_cols := 1 in
  let frame_width := width in
  let frame_height := height in
  header <- struct_pack "HHHBBBHH"
              [width; height; color_data_size; depth_data_size;
               palette_id; flags; frame_rows; frame_cols;
               frame_width; frame_height] ;;
  runs <- pack_runs depth_runs ;;
  Some (header ++ color_data ++ runs).

End WispBuilder.

(** ** [tools/wisp_verifier.py] *)
Module WispVerifier.

Inductive extraction : Type :=
| Extracted (asset_data : bytes)   (* written to [output_path]; returns True *)
| NotValid                         (* "Not a valid WISP file"; returns False *)
| NotFound                         (* "not found in bundle"; returns False *)
| Failed.                          (* struct.error or UnicodeDecodeError *)

(** The name field of entry [i] of the table that [extract_asset] reads. *)
Definition entry_name (data : bytes) (header_size i : Z) : option bytes :=
  let entry_offset := header_size + i * 48 in
  decode_utf8 (rstrip0 (slice data entry_offset (entry_offset + 32))).

(** The body of the [if name == asset_name] branch. *)
Definition entry_payload (data : bytes) (header_size data_start i : Z)
    : option bytes :=
  let entry_offset := header_size + i * 48 in
  offset <- unpack_I (slice data (entry_offset + 32) (entry_offset + 36)) ;;
  size <- unpack_I (slice data (entry_offset + 36) (entry_offset + 40)) ;;
  let asset_start := data_start + offset in
  Some (slice data asset_start (asset_start + size)).

(** [for i in range(entry_count)], from entry [i] with [todo] entries left. *)
Fixpoint find_asset (data asset_name : bytes) (header_size data_start : Z)
    (todo : nat) (i : Z) : extraction :=
  match todo with
  | O => NotFound
  | S todo' =>
      match entry_name data header_size i with
      | None => Failed
      | Some name =>
          if bytes_eqb name asset_name then
            match entry_payload data header_size data_start i with
            | Some asset_data => Extracted asset_data
            | None => Failed
            end
          else find_asset data asset_name header_size data_start todo' (i + 1)
      end
  end.

Definition extract_asset (data asset_name : bytes) : extraction :=
  let magic := slice data 0 4 in
  if negb (bytes_eqb magic (ascii_bytes "WISP")) then NotValid
  else
    match unpack_H (slice data 6 8) with
    | None => Failed
    | Some entry_count =>
        let header_size := 16 in
        let data_start := header_size + entry_count * 48 in
        find_asset data asset_name header_size data_start
          (Z.to_nat entry_count) 0
    end.

(** One line of the listing of [verify_wisp_file]: the name bytes after
    [rstrip] (before they are decoded for display), the fields, and
    whether the asset is reported to extend beyond the end of the file. *)
Record listed := {
  l_name : bytes;
  l_offset : Z;
  l_size : Z;
  l_type : Z;
  l_flags : Z;
  l_beyond_end : bool
}.

Definition read_listed (data : bytes) (entry_table_start data_start i : Z)
    : option listed :=
  let entry_offset := entry_table_start + i * 48 in
  offset <- unpack_I (slice data (entry_offset + 32) (entry_offset + 36)) ;;
  size <- unpack_I (slice data (entry_offset + 36) (entry_offset + 40)) ;;
  asset_type <- index data (entry_offset + 40) ;;
  flags <- index data (entry_offset + 41) ;;
  Some {| l_name := rstrip0 (slice data entry_offset (entry_offset + 32));
          l_offset := offset;
          l_size := size;
          l_type := asset_type;
          l_flags := flags;
          l_beyond_end := len data <? data_start + offset + size |}.

(** The structural part of [verify_wisp_file]: [None] stands for a
    [False] return or an exception, [Some] for the listed entries. *)
Definition verify_wisp_file (data : bytes) : option (list listed) :=
  if len data <? 12 then None
  else
    entry_count <- unpack_H (slice data 6 8) ;;
    config_size <- unpack_I (slice data 8 12) ;;
    if negb (bytes_eqb (slice data 0 4) (ascii_bytes "WISP")) then None
    else
      let header_size := 12 in
      let entry_table_start := header_size + config_size in
      let entry_table_size := entry_count * 48 in
      let data_start := entry_table_start + entry_table_size in
      if len data <? data_start then None
      else mapM (read_listed data entry_table_start data_start) (range entry_count).

(** The reading of the specification, as it is worded: when several
    entries of the table carry the requested name, the payload of the
    last of them is extracted. *)
Definition last_match_wins : Prop :=
  forall data asset_name entry_count i k asset_data,
    bytes_eqb (slice data 0 4) (ascii_bytes "WISP") = true ->
    unpack_H (slice data 6 8) = Some entry_count ->
    0 <= i < k -> k < entry_count ->
    entry_name data 16 i = Some asset_name ->
    entry_name data 16 k = Some asset_name ->
    (forall j, k < j < entry_count -> entry_name data 16 j <> Some asset_name) ->
    entry_payload data 16 (16 + entry_count * 48) k = Some asset_data ->
    extract_asset data asset_name = Extracted asset_data.

End WispVerifier.

(** ** [tools/wisp_rom_builder.py] *)
Module RomBuilder.

Definition MAGIC_WISP : Z := 1347635543.   (* 0x50534957 *)

(** An asset dictionary; [a_name] is the UTF-8 encoding of [asset['name']]. *)
Record asset := {
  a_name : bytes;
  a_data : bytes;
  a_type : Z;
  a_flags : Z
}.

(** The builder object; [config_data] is the UTF-8 encoding of the string. *)
Record builder := {
  assets : list asset;
  config_data : bytes
}.

(** [__init__] *)
Definition init : builder := {| assets := []; config_data := [] |}.

(** The loop of [build_rom]: entry table and asset data. *)
Fixpoint build_entries (l : list asset) (current_offset : Z)
    : option (bytes * bytes) :=
  match l with
  | [] => Some ([], [])
  | a :: rest =>
      let name_bytes := firstn 31 (a_name a) in
      let name_padded := name_bytes ++ repeat 0 (32 - List.length name_bytes) in
      o <- pack_I current_offset ;;
      s <- pack_I (len (a_data a)) ;;
      t <- pack_B (a_type a) ;;
      f <- pack_B (a_flags a) ;;
      let entry := pack_s 32 name_padded ++ o ++ s ++ t ++ f ++ repeat 0 6 in
      r <- build_entries rest (current_offset + len (a_data a)) ;;
      Some (entry ++ fst r, a_data a ++ snd r)
  end.

(** The bytes written to [output_path]; [None] when [struct.pack] raises. *)
Definition build_rom (self : builder) : option bytes :=
  let config_bytes := config_data self in
  let config_size := len config_bytes in
  r <- build_entries (assets self) 0 ;;
  m <- pack_I MAGIC_WISP ;;
  v <- pack_I 1 ;;
  n <- pack_H (len (assets self)) ;;
  c <- pack_H config_size ;;
  z <- pack_I 0 ;;
  let header := m ++ v ++ n ++ c ++ z in
  Some (header ++ config_bytes ++ fst r ++ snd r).

(** The statement of the specification, read on this builder: without a
    configuration no container is produced, whatever the assets. *)
Definition no_config_no_container : Prop :=
  forall l, build_rom {| assets := l; config_data := [] |} = None.

End RomBuilder.

(** ** [tools/png_to_spr_standalone.py] *)
Module PngToSpr.
Import Numpy.

Abbreviation rgba := (Z * Z * Z * Z)%type.

(** The dictionary stored in the global [WLUT_DATA] by [load_wlut]. *)
Record wlut := {
  w_width : Z;
  w_height : Z;
  w_colors : list Z;
  w_count : Z
}.

(** [for i, color in enumerate(colors): if color == 0x1000: return i] *)
Fixpoint first_transparent (colors : list Z) (i : Z) : option Z :=
  match colors with
  | [] => None
  | color :: rest =>
      if color =? 4096 then Some i else first_transparent rest (i + 1)
  end.

(** [WLUT_DATA] is [None] until a table is loaded. *)
Definition find_closest_transparent_index (WLUT_DATA : option wlut) : Z :=
  match WLUT_DATA with
  | None => 0
  | Some w =>
      match first_transparent (w_colors w) 0 with
      | Some i => i
      | None => 0
      end
  end.

(** The channels of an RGB565 code held by a number of kind [k]:
    [(c >> 11) & 0x1F], [(c >> 5) & 0x3F] and [c & 0x1F]. *)
Definition red (k : number) (c : Z) : Z :=
  arith k (Z.land (arith k (Z.shiftr c 11)) 31).
Definition green (k : number) (c : Z) : Z :=
  arith k (Z.land (arith k (Z.shiftr c 5)) 63).
Definition blue (k : number) (c : Z) : Z :=
  arith k (Z.land c 31).

(** [color >= 0x1000 and color <= 0x1111] *)
Definition is_magic (color : Z) : bool := (4096 <=? color) && (color <=? 4369).

(** Lines 75-77 and 88-96.  [target] is the [rgb565] scalar that
    [compile_png_to_spr] computed from the uint8 samples; [color] is a
    Python int read by [struct.unpack].  Its channels lie in 0..63, so
    each fits the type of the target's and no operation raises. *)
Definition distance (np : promotion) (target color : Z) : Z :=
  let u := arith (uint8_sample np) in
  let target_r := red (uint8_sample np) target in
  let target_g := green (uint8_sample np) target in
  let target_b := blue (uint8_sample np) target in
  let r := red python_int color in
  let g := green python_int color in
  let b := blue python_int color in
  let dr := u (target_r - r) in
  let dg := u (target_g - g) in
  let db := u (target_b - b) in
  u (u (u (dr * dr) + u (dg * dg)) + u (db * db)).

(** [distance < best_distance], where [None] is [float('inf')]. *)
Definition closer (d : Z) (best_distance : option Z) : bool :=
  match best_distance with
  | None => true
  | Some best => d <? best
  end.

(** The search loop, at entry [i] of the table. *)
Fixpoint closest_loop (np : promotion) (colors : list Z)
    (i target best_index : Z) (best_distance : option Z) : Z :=
  match colors with
  | [] => best_index
  | color :: rest =>
      if is_magic color
      then closest_loop np rest (i + 1) target best_index best_distance
      else
        let d := distance np target color in
        if closer d best_distance
        then closest_loop np rest (i + 1) target i (Some d)
        else closest_loop np rest (i + 1) target best_index best_distance
  end.

Definition find_closest_color_index (np : promotion) (WLUT_DATA : option wlut)
    (target_rgb565 : Z) : Z :=
  match WLUT_DATA with
  | None => 0
  | Some w => closest_loop np (w_colors w) 0 target_rgb565 0 None
  end.

(** Lines 174-177, on the uint8 samples [r], [g], [b] of
    [rgba_array[y, x]]. *)
Definition rgb565 (np : promotion) (r g b : Z) : Z :=
  let u := arith (uint8_sample np) in
  let r_565 := u (Z.land (u (Z.shiftr r 3)) 31) in
  let g_565 := u (Z.land (u (Z.shiftr g 2)) 63) in
  let b_565 := u (Z.land (u (Z.shiftr b 3)) 31) in
  u (Z.lor (u (Z.lor (u (Z.shiftl r_565 11)) (u (Z.shiftl g_565 5)))) b_565).

(** The body of the pixel loop of [compile_png_to_spr] (lines 166-181). *)
Definition palette_index (np : promotion) (WLUT_DATA : option wlut) (px : rgba)
    : Z :=
  let '(r, g, b, a) := px in
  if a <=? 127 then find_closest_transparent_index WLUT_DATA
  else find_closest_color_index np WLUT_DATA (rgb565 np r g b).

Definition color_data (np : promotion) (WLUT_DATA : option wlut)
    (rows : list (list rgba)) : list Z :=
  flat_map (map (palette_index np WLUT_DATA)) rows.

(** What the search has found among the entries [colors]: entry [i] is
    not skipped as magic, no other entry that is not skipped has a smaller
    computed distance, and no earlier one has the same. *)
Definition best (np : promotion) (colors : list Z) (target i : Z) : Prop :=
  exists ci,
    index colors i = Some ci /\ is_magic ci = false /\
    forall j cj,
      index colors j = Some cj -> is_magic cj = false ->
      distance np target ci <= distance np target cj /\
      (distance np target cj = distance np target ci -> i <= j).

(** What the search knows after scanning the entries [pre]. *)
Definition scanned (np : promotion) (target : Z) (pre : list Z)
    (best_index : Z) (best_distance : option Z) : Prop :=
  match best_distance with
  | None => forall j c, index pre j = Some c -> is_magic c = true
  | Some d => d = match index pre best_index with
                  | Some c => distance np target c
                  | None => d
                  end
              /\ best np pre target best_index
  end.

(** The nearest colour, as the specification words it.  A code carries
    5, 6 and 5 bits of red, green and blue; the distance of two codes is
    the squared Euclidean distance of their channel values; the codes
    from 0x1000 to 0x1111 are never matched; among equally near entries
    the lowest index wins. *)
Definition channels (c : Z) : Z * Z * Z :=
  ((c / 2048) mod 32, (c / 32) mod 64, c mod 32).

Definition squared_distance (target color : Z) : Z :=
  let '(tr, tg, tb) := channels target in
  let '(r, g, b) := channels color in
  (tr - r) * (tr - r) + (tg - g) * (tg - g) + (tb - b) * (tb - b).

Definition sentinel (c : Z) : Prop := 4096 <= c <= 4369.

Definition nearest (colors : list Z) (target i : Z) : Prop :=
  exists ci,
    index colors i = Some ci /\ ~ sentinel ci /\
    forall j cj,
      index colors j = Some cj -> ~ sentinel cj ->
      squared_distance target ci <= squared_distance target cj /\
      (squared_distance target cj = squared_distance target ci -> i <= j).

(** The three fields of a packed RGB565 code, checked over all codes. *)
Definition fields_ok (R G B : Z) : bool :=
  let t := Z.lor (Z.lor (Z.shiftl R 11) (Z.shiftl G 5)) B in
  (red python_int t =? R) && (green python_int t =? G)
  && (blue python_int t =? B)
  && (t =? R * 2048 + G * 32 + B).

(** The same packing on [uint8] scalars under NEP 50: the red field is
    shifted out and the green field keeps its three low bits. *)
Definition wrapped_fields_ok (R G B : Z) : bool :=
  let u := wrap_uint8 in
  u (Z.lor (u (Z.lor (u (Z.shiftl R 11)) (u (Z.shiftl G 5)))) B)
  =? (G mod 8) * 32 + B.

End PngToSpr.

(** ** [tools/wisp_palette_converter.py] *)
Module PaletteConverter.
Import Numpy.

Inductive mode := RGB | RGBA | P | OtherMode.

(** A pixel as PIL and numpy hand it out: its bands, one band for a
    palette index or a grey level. *)
Abbreviation pixel := (list Z).

(** An opened image, after the mode conversion of [analyze_image]. *)
Record image := {
  i_mode : mode;
  i_size : Z * Z;                     (* (width, height) *)
  i_rows : list (list pixel);         (* np.array(img), row by row *)
  i_palette : option (list Z)         (* img.getpalette() *)
}.

(** [rgb888_to_rgb565], for arguments of kind [k]: the LUT loops pass the
    uint8 samples of [np.array(img)], [convert_to_palette] passes the
    Python ints of [getpalette()] or [getcolors()]. *)
Definition rgb888_to_rgb565 (k : number) (r g b : Z) : Z :=
  let r := arith k (Z.land (arith k (Z.shiftr r 3)) 31) in
  let g := arith k (Z.land (arith k (Z.shiftr g 2)) 63) in
  let b := arith k (Z.land (arith k (Z.shiftr b 3)) 31) in
  arith k (Z.lor (arith k (Z.lor (arith k (Z.shiftl r 11))
                                 (arith k (Z.shiftl g 5)))) b).

Inductive format :=
| LUT_64x64 | LUT_32x32 | PALETTE_16 | PALETTE_64 | PALETTE_256 | PALETTE_SMALL.

Definition pixel_dec : forall a b : pixel, {a = b} + {a <> b} :=
  list_eq_dec Z.eq_dec.

(** The distinct colours of an image, in order of first occurrence. *)
Definition distinct_colors (img : image) : list pixel :=
  nodup pixel_dec (List.concat (i_rows img)).

(** [img.getcolors(maxcolors)]: the (count, colour) pairs of the distinct
    colours, or [None] when there are more than [maxcolors] of them. *)
Definition getcolors (img : image) (maxcolors : Z) : option (list (Z * pixel)) :=
  let pixels := List.concat (i_rows img) in
  let colors :=
    map (fun c => (Z.of_nat (count_occ pixel_dec pixels c), c))
        (distinct_colors img) in
  if maxcolors <? len colors then None else Some colors.

Definition analyze_image (img : image) : format :=
  let (width, height) := i_size img in
  if (width =? 64) && (height =? 64) then LUT_64x64
  else if (width =? 32) && (height =? 32) then LUT_32x32
  else if (width =? 16) && (height =? 1) then PALETTE_16
  else if (width =? 64) && (height =? 1) then PALETTE_64
  else if (width =? 256) && (height =? 1) then PALETTE_256
  else if (width <=? 16) && (height <=? 16) then PALETTE_SMALL
  else
    let colors := getcolors img (256 * 256 * 256) in
    let color_count :=
      match colors with
      | Some (c :: l) => len (c :: l)
      | _ => 65536
      end in
    if color_count <=? 16 then PALETTE_16
    else if color_count <=? 64 then PALETTE_64
    else if color_count <=? 256 then PALETTE_256
    else LUT_64x64.

Definition magic_colors : list Z := [4096; 4097; 4098; 4099; 4100].

(** One pixel of a LUT: [r, g, b, a = pixels[y, x]] in RGBA mode,
    [r, g, b = pixels[y, x]] otherwise; a pixel with another number of
    bands makes the unpacking raise. *)
Definition lut_pixel (np : promotion) (m : mode) (px : pixel) : option Z :=
  match m with
  | RGBA =>
      match px with
      | [r; g; b; a] =>
          Some (if a <=? 127 then 4096
                else rgb888_to_rgb565 (uint8_sample np) r g b)
      | _ => None
      end
  | _ =>
      match px with
      | [r; g; b] => Some (rgb888_to_rgb565 (uint8_sample np) r g b)
      | _ => None
      end
  end.

(** The raster positions (y, x) that the two nested loops sample: all of
    the [n] x [n] raster, row-major, but the last five of the last row. *)
Definition lut_positions (n : Z) : list (Z * Z) :=
  filter (fun p => negb ((fst p =? n - 1) && (n - 5 <=? snd p)))
         (list_prod (range n) (range n)).

(** The pixel loops of [convert_to_lut_64x64] ([n] = 64) and of the
    LUT_32x32 branch of [main] ([n] = 32), which differ in [n] only. *)
Definition lut_scan (np : promotion) (n : Z) (img : image) : option (list Z) :=
  mapM (fun p =>
          row <- index (i_rows img) (fst p) ;;
          px <- index row (snd p) ;;
          lut_pixel np (i_mode img) px)
       (lut_positions n).

(** The table of an [n] x [n] LUT with its dimensions: the sampled codes,
    then [lut_data.extend(magic_colors)]. *)
Definition lut_table (np : promotion) (n : Z) (img : image)
    : option (list Z * Z * Z) :=
  lut_data <- lut_scan np n img ;;
  Some (lut_data ++ magic_colors, n, n).

(** [sorted(colors, key=lambda x: x[0], reverse=True)]: by count,
    descending, colours of equal count in their original order. *)
Fixpoint insert_desc (x : Z * pixel) (l : list (Z * pixel)) : list (Z * pixel) :=
  match l with
  | [] => [x]
  | y :: l' => if fst y <=? fst x then x :: l else y :: insert_desc x l'
  end.

Definition sorted_desc (colors : list (Z * pixel)) : list (Z * pixel) :=
  fold_right insert_desc [] colors.

(** Lines 146-150: one RGB565 code per complete (r, g, b) triple. *)
Fixpoint to_rgb565_palette (palette_data : list Z) : list Z :=
  match palette_data with
  | r :: g :: b :: rest =>
      rgb888_to_rgb565 python_int r g b :: to_rgb565_palette rest
  | _ => []
  end.

Section Pillow.

(** The promotion rules of the installed NumPy, and the resampling and
    colour quantisation of the imaging library. *)
Variable np : promotion.
Variable resize : image -> Z -> Z -> image.
Variable quantize : image -> Z -> image.

Definition convert_to_lut_64x64 (img : image) : option (list Z * Z * Z) :=
  let img :=
    if (fst (i_size img) =? 64) && (snd (i_size img) =? 64) then img
    else resize img 64 64 in
  lut_table np 64 img.

(** The LUT_32x32 branch of [main]. *)
Definition convert_to_lut_32x32 (img : image) : option (list Z * Z * Z) :=
  let img_32 := resize img 32 32 in
  lut_table np 32 img_32.

(** [None] is the [return None] of line 131; [max_colors] is 16, 64 or
    256 at every call. *)
Definition convert_to_palette (img : image) (max_colors : Z) : option (list Z) :=
  let usable_colors := max_colors - 5 in
  let img :=
    match i_mode img with
    | P => img
    | _ => quantize img (usable_colors - 1)
    end in
  palette_data <-
    match i_palette img with
    | Some (v :: palette) =>
        Some (slice (v :: palette) 0 (usable_colors * 3))
    | _ =>
        match getcolors img usable_colors with
        | Some (c :: colors) =>
            Some (flat_map
                    (fun cc =>
                       match snd cc with
                       | [v] => [v; v; v]
                       | color => color
                       end)
                    (slice (sorted_desc (c :: colors)) 0 usable_colors))
        | _ => None
        end
    end ;;
  let rgb565_palette := to_rgb565_palette palette_data in
  let padding := repeat 0 (Z.to_nat (usable_colors - len rgb565_palette)) in
  Some ((rgb565_palette ++ padding) ++ magic_colors).

(** The conversion dispatch of [main]; PALETTE_SMALL is the
    "Unsupported format" exit. *)
Definition convert (format_type : format) (img : image) : option (list Z * Z * Z) :=
  match format_type with
  | LUT_64x64 => convert_to_lut_64x64 img
  | LUT_32x32 => convert_to_lut_32x32 img
  | PALETTE_16 => data <- convert_to_palette img 16 ;; Some (data, 0, 0)
  | PALETTE_64 => data <- convert_to_palette img 64 ;; Some (data, 0, 0)
  | PALETTE_256 => data <- convert_to_palette img 256 ;; Some (data, 0, 0)
  | PALETTE_SMALL => None
  end.

End Pillow.

(** The last [n] entries of a table. *)
Definition last_entries (n : nat) (table : list Z) : list Z :=
  skipn (List.length table - n) table.

(** The class for a number of distinct colours, as the specification
    words it: the smallest of 16/64/256 that fits, else the 64x64 LUT. *)
Definition class_of_count (distinct : Z) : format :=
  if distinct <=? 16 then PALETTE_16
  else if distinct <=? 64 then PALETTE_64
  else if distinct <=? 256 then PALETTE_256
  else LUT_64x64.

Definition known_shape (width height : Z) : bool :=
  ((width =? 64) && (height =? 64)) || ((width =? 32) && (height =? 32))
  || ((width =? 16) && (height =? 1)) || ((width =? 64) && (height =? 1))
  || ((width =? 256) && (height =? 1)).

(** The capacity selection of the specification, as it is worded: an
    image of no known shape is classified by its number of distinct
    colours. *)
Definition unknown_shapes_classified_by_count : Prop :=
  forall img,
    known_shape (fst (i_size img)) (snd (i_size img)) = false ->
    analyze_image img = class_of_count (len (distinct_colors img)).

(** The number of slots of a capacity class. *)
Definition capacity (format_type : format) : Z :=
  match format_type with
  | LUT_64x64 => 64 * 64
  | LUT_32x32 => 32 * 32
  | PALETTE_16 => 16
  | PALETTE_64 => 64
  | PALETTE_256 => 256
  | PALETTE_SMALL => 0
  end.

End PaletteConverter.

(** ** [tools/wisp_rom_builder_v2.py] *)
Module RomBuilderV2.

(** [self.string_pool]: a dictionary from text (UTF-8) to offset, in
    insertion order. *)
Abbreviation pool := (list (bytes * Z)).

Fixpoint pool_get (string_pool : pool) (text : bytes) : option Z :=
  match string_pool with
  | [] => None
  | (k, v) :: rest => if bytes_eqb k text then Some v else pool_get rest text
  end.

(** The methods read and update the pool and may raise; what was added
    to the pool before an exception stays in it.  A state monad over the
    pool, with failure. *)
Definition M (A : Type) : Type := pool -> option A * pool.

Definition ret {A : Type} (a : A) : M A := fun p => (Some a, p).

Definition bindM {A B : Type} (m : M A) (k : A -> M B) : M B :=
  fun p =>
    match m p with
    | (Some a, p') => k a p'
    | (None, p') => (None, p')
    end.

Definition lift {A : Type} (o : option A) : M A := fun p => (o, p).

Notation "x <~ m ;; k" := (bindM m (fun x => k))
  (at level 61, m at next level, right associativity).

Fixpoint mapS {A B : Type} (f : A -> M B) (l : list A) : M (list B) :=
  match l with
  | [] => ret []
  | a :: l' =>
      b <~ f a ;;
      bs <~ mapS f l' ;;
      ret (b :: bs)
  end.

Definition add_string (text : bytes) : M Z :=
  fun string_pool =>
    match pool_get string_pool text with
    | Some offset => (Some offset, string_pool)
    | None =>
        let offset := len string_pool in
        (Some offset, string_pool ++ [(text, offset)])
    end.

(** The record dictionaries; a field read with [.get(key, default)] is
    optional, [id] is read with [record['id']]. *)
Record item := {
  item_id : Z;
  item_name : option bytes;
  item_description : option bytes;
  item_type : option Z;
  item_rarity : option Z;
  item_value : option Z;
  item_properties : option Z
}.

Record quest := {
  quest_id : Z;
  quest_title : option bytes;
  quest_description : option bytes;
  quest_required_level : option Z
}.

Record map_def := {
  map_id : Z;
  map_name : option bytes;
  map_width : option Z;
  map_height : option Z
}.

Record poke := {
  poke_id : Z;
  poke_name : option bytes;
  poke_type1 : option Z;
  poke_type2 : option Z;
  poke_base_hp : option Z;
  poke_base_attack : option Z;
  poke_base_defense : option Z;
  poke_base_speed : option Z
}.

Record builder := {
  items : list item;
  quests : list quest;
  maps : list map_def;
  pokemon : list poke;
  string_pool : pool
}.

(** [d.get(key, default)] *)
Definition get {A : Type} (field : option A) (default : A) : A :=
  match field with
  | Some v => v
  | None => default
  end.

Definition _make_key (namespace category id : Z) : Z :=
  Z.lor (Z.lor (Z.shiftl namespace 24) (Z.shiftl category 16)) id.

Definition _pack_item (it : item) : M bytes :=
  name_offset <~ add_string (get (item_name it) []) ;;
  desc_offset <~ add_string (get (item_description it) []) ;;
  lift (struct_pack "HBBHHH"
          [name_offset;
           get (item_type it) 1;
           get (item_rarity it) 1;
           get (item_value it) 0;
           get (item_properties it) 0;
           desc_offset]).

(** Entry header and data, as appended to [rom_data]; 6 is the type
    STRUCT and 1 the flag READ_ONLY. *)
Definition entry_bytes (key : Z) (entry_data : bytes) : option bytes :=
  entry_header <- struct_pack "LBBH" [key; 6; 1; len entry_data] ;;
  Some (entry_header ++ entry_data).

Definition item_entry (it : item) : M bytes :=
  let key := _make_key 1 1 (item_id it) in
  entry_data <~ _pack_item it ;;
  lift (entry_bytes key entry_data).

Definition quest_entry (q : quest) : M bytes :=
  let key := _make_key 1 2 (quest_id q) in
  title_offset <~ add_string (get (quest_title q) []) ;;
  desc_offset <~ add_string (get (quest_description q) []) ;;
  entry_data <~ lift (struct_pack "HHH"
                        [title_offset; get (quest_required_level q) 1; desc_offset]) ;;
  lift (entry_bytes key entry_data).

Definition map_entry (m : map_def) : M bytes :=
  let key := _make_key 3 4 (map_id m) in
  name_offset <~ add_string (get (map_name m) []) ;;
  entry_data <~ lift (struct_pack "HHH"
                        [name_offset; get (map_width m) 20; get (map_height m) 20]) ;;
  lift (entry_bytes key entry_data).

Definition poke_entry (p : poke) : M bytes :=
  let key := _make_key 1 7 (poke_id p) in
  name_offset <~ add_string (get (poke_name p) []) ;;
  entry_data <~ lift (struct_pack "HBBHHHH"
                        [name_offset;
                         get (poke_type1 p) 0;
                         get (poke_type2 p) 0;
                         get (poke_base_hp p) 50;
                         get (poke_base_attack p) 50;
                         get (poke_base_defense p) 50;
                         get (poke_base_speed p) 50]) ;;
  lift (entry_bytes key entry_data).

(** [sorted(self.string_pool.keys(), key=lambda x: self.string_pool[x])]:
    by offset, ascending; the sort is stable, so texts of equal offset keep
    their order in the dictionary. *)
Fixpoint insert_by_offset (x : bytes * Z) (l : pool) : pool :=
  match l with
  | [] => [x]
  | y :: l' => if snd x <=? snd y then x :: l else y :: insert_by_offset x l'
  end.

Definition sorted_by_offset (string_pool : pool) : pool :=
  fold_right insert_by_offset [] string_pool.

(** The string pool section: each text followed by a null byte. *)
Definition string_data (string_pool : pool) : bytes :=
  flat_map (fun kv => fst kv ++ [0]) (sorted_by_offset string_pool).

Definition sum_bytes (b : bytes) : Z := fold_right Z.add 0 b.

(** Lines 69-144 of [generate_rom]: [rom_data] and the entry keys when
    the four loops are done and the header is still to be filled in.  The
    string pool section is written from the pool as it is on entry. *)
Definition rom_body (self : builder) : M (bytes * list bytes) :=
  let rom_data := ascii_bytes "WRPV" ++ le_bytes 2 2 ++ repeat 0 26 in
  let rom_data := rom_data ++ string_data (string_pool self) in
  it <~ mapS item_entry (items self) ;;
  qu <~ mapS quest_entry (quests self) ;;
  ma <~ mapS map_entry (maps self) ;;
  po <~ mapS poke_entry (pokemon self) ;;
  let entries := it ++ qu ++ ma ++ po in
  ret (rom_data ++ List.concat entries, entries).

(** [generate_rom]: the ROM bytes ([None] when an exception is raised)
    and the pool as the call leaves it. *)
Definition generate_rom (self : builder) : option bytes * pool :=
  (body <~ rom_body self ;;
   let rom_data := fst body in
   let entry_count := len (snd body) in
   let string_data := string_data (string_pool self) in
   let data_size := len rom_data - 32 in
   let checksum := Z.land (sum_bytes (slice rom_data 32 (len rom_data))) 4294967295 in
   header_data <~ lift (struct_pack "HLLLL6L"
                          [entry_count;
                           data_size;
                           checksum;
                           0;
                           data_size - len string_data;
                           0;
                           0; 0; 0; 0; 0; 0]) ;;
   (* rom_data[6:32] = header_data *)
   ret (slice rom_data 0 6 ++ header_data ++ slice rom_data 32 (len rom_data)))
    (string_pool self).

(** The byte offset of a text within the serialized pool: the sizes of
    the texts before it, each with its null byte. *)
Fixpoint byte_offset_in (sorted : pool) (text : bytes) (at_byte : Z) : option Z :=
  match sorted with
  | [] => None
  | (k, _) :: rest =>
      if bytes_eqb k text then Some at_byte
      else byte_offset_in rest text (at_byte + len k + 1)
  end.

Definition pool_byte_offset (string_pool : pool) (text : bytes) : option Z :=
  byte_offset_in (sorted_by_offset string_pool) text 0.

End RomBuilderV2.

(** ** Sample inputs *)
Module Samples.
Import WispBuilder.

(** One asset named "a" with the payload "x", and a ten-byte configuration. *)
Definition one_asset : list asset := [(ascii_bytes "a", 8, [120])].
Definition ten_byte_config : bytes := ascii_bytes "name: demo".

Definition bundle_of (config : bytes) (l : list asset) : option bytes :=
  match collect_assets (Some config) None l with
  | Collected entries payloads config_data =>
      write_wisp_bundle entries payloads (Some config_data)
  | FileNotFoundError => None
  end.

(** Three assets, the last two under the same name, and a four-byte
    configuration. *)
Definition dup_assets : list asset :=
  [(ascii_bytes "x", 8, [1]); (ascii_bytes "dup", 8, [65]);
   (ascii_bytes "dup", 8, [66])].
Definition four_byte_config : bytes := ascii_bytes "a: 1".

Definition dup_file : bytes :=
  Eval vm_compute in
    match bundle_of four_byte_config dup_assets with
    | Some f => f
    | None => []
    end.

(** One asset of five bytes, written with the four-byte configuration,
    and the file without its last two bytes. *)
Definition five_byte_asset : list asset :=
  [(ascii_bytes "a", 8, [1; 2; 3; 4; 5])].

Definition cut_file : bytes :=
  Eval vm_compute in
    match bundle_of four_byte_config five_byte_asset with
    | Some f => firstn (List.length f - 2) f
    | None => []
    end.

(** A ROM builder that was given a configuration and two assets. *)
Definition two_asset_rom : RomBuilder.builder :=
  {| RomBuilder.assets :=
       [{| RomBuilder.a_name := ascii_bytes "hero.art";
           RomBuilder.a_data := [1; 2; 3];
           RomBuilder.a_type := 2; RomBuilder.a_flags := 0 |};
        {| RomBuilder.a_name := ascii_bytes "theme.sfx";
           RomBuilder.a_data := [9; 8];
           RomBuilder.a_type := 4; RomBuilder.a_flags := 0 |}];
     RomBuilder.config_data := ascii_bytes "name: demo" |}.

(** A table whose first entry is the magic code 0x1001, which is also
    the RGB565 code of the visible colour (16, 0, 8). *)
Definition magic_first_wlut : PngToSpr.wlut :=
  {| PngToSpr.w_width := 0; PngToSpr.w_height := 0;
     PngToSpr.w_colors := [4097; 63488; 0];
     PngToSpr.w_count := 3 |}.

(** The 2 x 2 scenario of the sprite compiler: red, blue and white at the
    indices 0, 1, 2 of the table, the transparent code at index 3. *)
Definition scenario_wlut : PngToSpr.wlut :=
  {| PngToSpr.w_width := 0; PngToSpr.w_height := 0;
     PngToSpr.w_colors := [63488; 31; 65535; 4096];
     PngToSpr.w_count := 4 |}.

Definition scenario_image : list (list PngToSpr.rgba) :=
  [[(255, 0, 0, 255); (0, 255, 0, 64)];
   [(0, 0, 255, 255); (255, 255, 255, 255)]].

(** An 8 x 8 image of one colour. *)
Definition small_image : PaletteConverter.image :=
  {| PaletteConverter.i_mode := PaletteConverter.RGB;
     PaletteConverter.i_size := (8, 8);
     PaletteConverter.i_rows := repeat (repeat [0; 0; 0] 8) 8;
     PaletteConverter.i_palette := None |}.

(** A 20 x 2 image of two colours. *)
Definition wide_image : PaletteConverter.image :=
  {| PaletteConverter.i_mode := PaletteConverter.RGB;
     PaletteConverter.i_size := (20, 2);
     PaletteConverter.i_rows := [repeat [255; 0; 0] 20; repeat [0; 0; 255] 20];
     PaletteConverter.i_palette := None |}.

(** Stand-ins for the imaging library: a resampler that keeps the image
    and a quantiser that answers a two-colour palette image. *)
Definition keep_size (img : PaletteConverter.image) (w h : Z) : PaletteConverter.image :=
  img.

Definition two_color_quantize (img : PaletteConverter.image) (colors : Z)
    : PaletteConverter.image :=
  {| PaletteConverter.i_mode := PaletteConverter.P;
     PaletteConverter.i_size := PaletteConverter.i_size img;
     PaletteConverter.i_rows := [repeat [0] 20; repeat [1] 20];
     PaletteConverter.i_palette := Some [255; 0; 0; 0; 0; 255] |}.

(** A database of one item, "ab" with the description "cd", built by a
    fresh builder, and the same builder after its first build. *)
Definition potion : RomBuilderV2.item :=
  {| RomBuilderV2.item_id := 1;
     RomBuilderV2.item_name := Some (ascii_bytes "ab");
     RomBuilderV2.item_description := Some (ascii_bytes "cd");
     RomBuilderV2.item_type := None;
     RomBuilderV2.item_rarity := None;
     RomBuilderV2.item_value := None;
     RomBuilderV2.item_properties := None |}.

Definition builder_with (string_pool : RomBuilderV2.pool) : RomBuilderV2.builder :=
  {| RomBuilderV2.items := [potion];
     RomBuilderV2.quests := [];
     RomBuilderV2.maps := [];
     RomBuilderV2.pokemon := [];
     RomBuilderV2.string_pool := string_pool |}.

Definition potion_pool : RomBuilderV2.pool :=
  [(ascii_bytes "ab", 0); (ascii_bytes "cd", 1)].

End Samples.

(** ** The layout of a written bundle ([tools/wisp_builder.py],
    [tools/wisp_verifier.py]) *)
Module BundleLayout.
Import WispBuilder WispVerifier.

(** The size of the payload region: the sum of the data sizes. *)
Definition payload_size (assets : list asset) : Z :=
  fold_right (fun a acc => len (snd a) + acc) 0 assets.

(** The lines that [verify_wisp_file] prints for the bundle of [assets]:
    the name as truncated by the builder, the running offset, the size,
    the tag, no flag, no warning. *)
Fixpoint listing (assets : list asset) (offset : Z) : list listed :=
  match assets with
  | [] => []
  | (rel_path, ty, data) :: rest =>
      {| l_name := rstrip0 (firstn 31 rel_path);
         l_offset := offset;
         l_size := len data;
         l_type := ty;
         l_flags := 0;
         l_beyond_end := false |}
      :: listing rest (offset + len data)
  end.

(** A bundle whose first name does not survive the cut at 31 bytes: 30
    ASCII letters followed by a two-byte character, then the asset "b". *)
Definition split_name_assets : list asset :=
  [(repeat 97 30 ++ [195; 169], 8, [1]); (ascii_bytes "b", 8, [2])].

Definition split_name_file : bytes :=
  match write_wisp_bundle (fst (collect_entries split_name_assets 0))
          (snd (collect_entries split_name_assets 0))
          (Some (ascii_bytes "a: 1")) with
  | Some f => f
  | None => []
  end.

(** Every type tag is a byte. *)
Definition types_fit (assets : list asset) : bool :=
  forallb (fun a => between 0 255 (snd (fst a))) assets.

(** The 48 bytes of an entry whose numbers fit their fields. *)
Definition entry_record (e : entry) : bytes :=
  pack_s 32 (e_name e) ++ le_bytes 4 (e_offset e) ++ le_bytes 4 (e_size e)
  ++ le_bytes 1 (e_type e) ++ le_bytes 1 (e_flags e) ++ pack_s 6 (e_reserved e).

(** The 12 bytes of the header. *)
Definition header_record (entry_count config_size : Z) : bytes :=
  pack_s 4 MAGIC ++ le_bytes 2 256 ++ le_bytes 2 entry_count
  ++ le_bytes 4 config_size.

End BundleLayout.

(** ** The sprite file and the WLUT reader
    ([tools/png_to_spr_standalone.py]) *)
Module SpriteFile.
Import Numpy PngToSpr.

(** [struct.unpack('<HH', f.read(4))] *)
Definition unpack_HH (b : bytes) : option (Z * Z) :=
  if Nat.eqb (List.length b) 4
  then Some (le_value (firstn 2 b), le_value (skipn 2 b))
  else None.

(** The colour loop of [load_wlut]: [count] reads of two bytes each. *)
Fixpoint read_colors (count : nat) (rest : bytes) : option (list Z) :=
  match count with
  | O => Some []
  | S count' =>
      color <- unpack_H (firstn 2 rest) ;;
      colors <- read_colors count' (skipn 2 rest) ;;
      Some (color :: colors)
  end.

(** [load_wlut], on the content of the file: the table stored in
    [WLUT_DATA], or [None] when the magic is wrong or a read comes short
    (the function then returns None or False and stores nothing). *)
Definition load_wlut (file : bytes) : option wlut :=
  let magic := firstn 4 file in
  if negb (bytes_eqb magic (ascii_bytes "WLUT")) then None
  else
    format_type <- unpack_I (firstn 4 (skipn 4 file)) ;;
    dims <- unpack_HH (firstn 4 (skipn 8 file)) ;;
    color_count <- unpack_H (firstn 2 (skipn 12 file)) ;;
    reserved <- unpack_H (firstn 2 (skipn 14 file)) ;;
    colors <- read_colors (Z.to_nat color_count) (skipn 16 file) ;;
    Some {| w_width := fst dims;
            w_height := snd dims;
            w_colors := colors;
            w_count := color_count |}.

(** [bytes(color_data)]: ValueError unless every index is in range(256). *)
Definition to_bytes (l : list Z) : option bytes :=
  if forallb (between 0 255) l then Some l else None.

(** [struct.pack('<BH', depth, distance)] for each run. *)
Definition pack_runs (depth_runs : list (Z * Z)) : option bytes :=
  chunks <- mapM (fun r => struct_pack "BH" [fst r; snd r]) depth_runs ;;
  Some (List.concat chunks).

(** Line 199, [(depth_pixels[y, x] * 12) // 255] on a uint8 sample of the
    depth image. *)
Definition depth_value (np : promotion) (v : Z) : Z :=
  let u := arith (uint8_sample np) in
  u (u (v * 12) / 255).

(** Lines 183-201.  [depth_img] is the size (w, h) and the pixel array
    (h rows of w samples) of the '.depth' image converted to mode L, [None]
    when there is no such file; a depth image of another size than the
    sprite is replaced by a flat depth. *)
Definition depth_data (np : promotion) (width height : Z)
    (depth_img : option (Z * Z * list (list Z))) : list Z :=
  match depth_img with
  | Some (w, h, depth_pixels) =>
      if (w =? width) && (h =? height)
      then flat_map (map (depth_value np)) depth_pixels
      else repeat 6 (Z.to_nat (width * height))
  | None => repeat 6 (Z.to_nat (width * height))
  end.

(** [compile_png_to_spr], from the decoded image and the depth samples:
    the bytes written to [output_path], [None] for the [return False] of
    the exception handler. *)
Definition compile_png_to_spr (np : promotion) (WLUT_DATA : option wlut)
    (width height : Z) (rows : list (list rgba)) (depth_data : list Z)
    (palette_id : Z) : option bytes :=
  let color_data := color_data np WLUT_DATA rows in
  depth_runs <- DepthRle.rle_encode depth_data ;;
  let color_data_size := len color_data in
  let depth_data_size := len depth_runs * 3 in
  let flags := 0 in
  let frame_rows := 1 in
  let frame_cols := 1 in
  let frame_width := width in
  let frame_height := height in
  header <- struct_pack "HHIIBBBBHH"
              [width; height; color_data_size; depth_data_size;
               palette_id; flags; frame_rows; frame_cols;
               frame_width; frame_height] ;;
  colors <- to_bytes color_data ;;
  runs <- pack_runs depth_runs ;;
  Some (header ++ colors ++ runs).

End SpriteFile.

(** ** The WLUT binary and the shape of LUT images
    ([tools/wisp_palette_converter.py]) *)
Module WlutBinary.
Import PaletteConverter.

(** The format code and the dimensions that [generate_binary] writes; any
    format name other than the five known ones gets 'PAL\0' and 0 x 0. *)
Definition format_code (format_type : format) : Z :=
  match format_type with
  | LUT_64x64 => 1280660534      (* 0x4C555436 *)
  | LUT_32x32 => 1280660531      (* 0x4C555433 *)
  | PALETTE_16 => 1346456625     (* 0x50414C31 *)
  | PALETTE_64 => 1346456630     (* 0x50414C36 *)
  | PALETTE_256 => 1346456632    (* 0x50414C38 *)
  | PALETTE_SMALL => 1346456576  (* 0x50414C00 *)
  end.

Definition format_dims (format_type : format) : Z * Z :=
  match format_type with
  | LUT_64x64 => (64, 64)
  | LUT_32x32 => (32, 32)
  | _ => (0, 0)
  end.

Definition generate_binary (data : list Z) (format_type : format) : option bytes :=
  code <- struct_pack "I" [format_code format_type] ;;
  dims <- struct_pack "HH" [fst (format_dims format_type);
                            snd (format_dims format_type)] ;;
  count <- struct_pack "H" [len data] ;;
  reserved <- struct_pack "H" [0] ;;
  colors <- mapM (fun color => struct_pack "H" [color]) data ;;
  Some (ascii_bytes "WLUT" ++ code ++ dims ++ count ++ reserved
        ++ List.concat colors).

(** The number of bands of a pixel that the LUT loops unpack. *)
Definition bands (m : mode) : nat :=
  match m with
  | RGBA => 4
  | _ => 3
  end.

(** An [n] x [n] pixel array whose pixels have the bands of the mode. *)
Definition well_shaped (n : Z) (img : image) : bool :=
  (len (i_rows img) =? n)
  && forallb
       (fun row =>
          (len row =? n)
          && forallb (fun px => Nat.eqb (List.length px) (bands (i_mode img))) row)
       (i_rows img).

(** A 64 x 64 RGB image of one colour. *)
Definition solid_lut_image : image :=
  {| i_mode := RGB;
     i_size := (64, 64);
     i_rows := repeat (repeat [255; 0; 0] 64) 64;
     i_palette := None |}.

End WlutBinary.

(** ** Sizes in the ROM builders ([tools/wisp_rom_builder.py],
    [tools/wisp_rom_builder_v2.py]) *)
Module RomLayout.

Definition data_size (l : list RomBuilder.asset) : Z :=
  fold_right (fun a acc => len (RomBuilder.a_data a) + acc) 0 l.

(** The pool as [add_string] builds it: the offsets are 0, 1, 2, ... in
    insertion order and no text occurs twice. *)
Definition pool_ok (string_pool : RomBuilderV2.pool) : Prop :=
  map snd string_pool = range (len string_pool) /\
  NoDup (map fst string_pool).

End RomLayout.

(** * Properties *)

(** ** General facts on lists, bytes and the exception monad *)

Lemma len_cons {A : Type} (x : A) (l : list A) : len (x :: l) = 1 + len l.
Proof. unfold len. cbn [List.length]. lia. Qed.

Lemma len_nil {A : Type} : len (@nil A) = 0.
Proof. reflexivity. Qed.

Lemma len_app {A : Type} (a b : list A) : len (a ++ b) = len a + len b.
Proof. unfold len. rewrite length_app. lia. Qed.

Lemma len_nonneg {A : Type} (l : list A) : 0 <= len l.
Proof. unfold len. lia. Qed.

Lemma bytes_eqb_eq (a b : bytes) : bytes_eqb a b = true <-> a = b.
Proof.
  revert b. induction a as [|x a IH]; intros [|y b]; cbn; split; intros H;
    try reflexivity; try discriminate.
  - apply andb_true_iff in H as [Hx Hab]. apply Z.eqb_eq in Hx.
    apply IH in Hab. congruence.
  - injection H as -> ->. rewrite Z.eqb_refl. cbn. now apply IH.
Qed.

Lemma bytes_eqb_neq (a b : bytes) : a <> b -> bytes_eqb a b = false.
Proof.
  intros H. destruct (bytes_eqb a b) eqn:E; [|reflexivity].
  apply bytes_eqb_eq in E. contradiction.
Qed.

Lemma index_lt {A : Type} (l : list A) (i : Z) (x : A) :
  index l i = Some x -> 0 <= i < len l.
Proof.
  unfold index, len. destruct (i <? 0) eqn:E; [discriminate|].
  apply Z.ltb_ge in E. intros H.
  assert (Hlt : (Z.to_nat i < List.length l)%nat)
    by (apply nth_error_Some; congruence).
  lia.
Qed.

Lemma index_snoc {A : Type} (pre : list A) (c : A) (j : Z) (x : A) :
  index (pre ++ [c]) j = Some x <->
  index pre j = Some x \/ (j = len pre /\ x = c).
Proof.
  unfold index, len. destruct (j <? 0) eqn:E.
  - apply Z.ltb_lt in E. split; [discriminate|].
    intros [H|[H _]]; [discriminate | lia].
  - apply Z.ltb_ge in E.
    destruct (Nat.lt_ge_cases (Z.to_nat j) (List.length pre)) as [Hlt|Hge].
    + rewrite nth_error_app1 by exact Hlt. split; [now left|].
      intros [H|[H _]]; [exact H | lia].
    + rewrite nth_error_app2 by exact Hge.
      assert (Hnone : nth_error pre (Z.to_nat j) = None)
        by (apply nth_error_None; exact Hge).
      rewrite Hnone.
      destruct (Z.to_nat j - List.length pre)%nat as [|k] eqn:Ek; cbn.
      * split.
        -- intros [= <-]. right. split; [lia | reflexivity].
        -- intros [H|[_ ->]]; [discriminate | reflexivity].
      * destruct k; cbn; split; try discriminate;
          intros [H|[H _]]; try discriminate; lia.
Qed.

Lemma in_range (n x : Z) : 0 <= x < n -> In x (range n).
Proof.
  intros H. unfold range. apply in_map_iff. exists (Z.to_nat x).
  split; [lia|]. apply in_seq. lia.
Qed.

Lemma mapM_length {A B : Type} (f : A -> option B) (l : list A) :
  forall r, mapM f l = Some r -> List.length r = List.length l.
Proof.
  induction l as [|a l IH]; intros r; cbn [mapM].
  - intros [= <-]. reflexivity.
  - unfold bind. destruct (f a); [|discriminate].
    destruct (mapM f l) as [bs|]; [|discriminate].
    intros [= <-]. cbn [List.length]. now rewrite (IH bs).
Qed.

Lemma bind_Some {A B : Type} (m : option A) (k : A -> option B) (y : B) :
  bind m k = Some y -> exists x, m = Some x /\ k x = Some y.
Proof. destruct m as [x|]; [|discriminate]. intros H. now exists x. Qed.

Module DepthRleFacts.
Import DepthRle.

Lemma decode_runs_app (a b : list run) :
  decode_runs (a ++ b) = decode_runs a ++ decode_runs b.
Proof. unfold decode_runs. apply flat_map_app. Qed.

Lemma total_run_length_app (a b : list run) :
  total_run_length (a ++ b) = total_run_length a + total_run_length b.
Proof.
  induction a as [|r a IH]; simpl; [reflexivity|].
  rewrite IH. lia.
Qed.

Lemma repeat_snoc_cons (x : Z) (n : nat) : repeat x n ++ [x] = x :: repeat x n.
Proof. induction n as [|n IH]; simpl; [reflexivity|]. now rewrite IH. Qed.

Lemma rle_loop_decode (rest : list Z) :
  forall cur n acc, 1 <= n ->
    decode_runs (rle_loop rest cur n acc)
    = decode_runs acc ++ repeat cur (Z.to_nat n) ++ rest.
Proof.
  induction rest as [|d rest IH]; intros cur n acc Hn; simpl.
  - rewrite decode_runs_app. simpl. now rewrite !app_nil_r.
  - destruct ((d =? cur) && (n <? 65535)) eqn:E.
    + apply andb_true_iff in E as [Ed _]. apply Z.eqb_eq in Ed. subst d.
      rewrite IH by lia.
      replace (Z.to_nat (n + 1)) with (S (Z.to_nat n)) by lia.
      f_equal. change (repeat cur (S (Z.to_nat n))) with (cur :: repeat cur (Z.to_nat n)).
      rewrite <- repeat_snoc_cons, <- app_assoc. reflexivity.
    + rewrite IH by lia. rewrite decode_runs_app. simpl.
      rewrite app_nil_r, <- app_assoc. reflexivity.
Qed.

Lemma rle_loop_total (rest : list Z) :
  forall cur n acc,
    total_run_length (rle_loop rest cur n acc)
    = total_run_length acc + n + len rest.
Proof.
  induction rest as [|d rest IH]; intros cur n acc; cbn [rle_loop].
  - rewrite total_run_length_app, len_nil. unfold total_run_length at 2. cbn [fold_right snd]. lia.
  - rewrite len_cons. destruct ((d =? cur) && (n <? 65535)).
    + rewrite IH. lia.
    + rewrite IH, total_run_length_app. unfold total_run_length at 2. cbn [fold_right snd]. lia.
Qed.

(** C3. For every non-empty depth sequence of [width * height] samples the
    encoder returns a run list, the run lengths sum to [width * height],
    and repeating each depth value run-length times gives the sequence back. *)
Theorem rle_roundtrip (width height : Z) (depth_data : list Z) :
  depth_data <> [] ->
  len depth_data = width * height ->
  exists runs,
    rle_encode depth_data = Some runs /\
    total_run_length runs = width * height /\
    decode_runs runs = depth_data.
Proof.
  intros Hne Hlen. destruct depth_data as [|d0 rest]; [congruence|].
  exists (rle_loop rest d0 1 []). split; [reflexivity|]. split.
  - rewrite rle_loop_total, <- Hlen, len_cons. unfold total_run_length. cbn [fold_right]. lia.
  - rewrite rle_loop_decode by lia. reflexivity.
Qed.

Lemma rle_roundtrip_witness :
  exists runs,
    rle_encode [6; 6; 6; 4; 4; 7] = Some runs /\
    total_run_length runs = 3 * 2 /\
    decode_runs runs = [6; 6; 6; 4; 4; 7].
Proof.
  apply (rle_roundtrip 3 2 [6; 6; 6; 4; 4; 7]); [discriminate | reflexivity].
Defined.

Lemma capped_snoc_two (acc : list run) (a b : run) :
  runs_maximal_capped (acc ++ [a; b])
  = runs_maximal_capped (acc ++ [a]) && (negb (fst a =? fst b) || (snd a =? 65535)).
Proof.
  induction acc as [|r acc IH].
  - cbn. now rewrite andb_true_r.
  - destruct acc as [|r' acc].
    + cbn. now rewrite !andb_true_r.
    + change ((r :: r' :: acc) ++ [a; b]) with (r :: r' :: (acc ++ [a; b])).
      change ((r :: r' :: acc) ++ [a]) with (r :: r' :: (acc ++ [a])).
      change (runs_maximal_capped (r :: r' :: acc ++ [a; b]))
        with ((negb (fst r =? fst r') || (snd r =? 65535))
              && runs_maximal_capped ((r' :: acc) ++ [a; b])).
      change (runs_maximal_capped (r :: r' :: acc ++ [a]))
        with ((negb (fst r =? fst r') || (snd r =? 65535))
              && runs_maximal_capped ((r' :: acc) ++ [a])).
      rewrite IH. now rewrite andb_assoc.
Qed.

Lemma capped_snoc_length (acc : list run) (c n m : Z) :
  runs_maximal_capped (acc ++ [(c, n)]) = runs_maximal_capped (acc ++ [(c, m)]).
Proof.
  induction acc as [|r acc IH]; [reflexivity|].
  destruct acc as [|r' acc]; [reflexivity|].
  change (runs_maximal_capped ((r :: r' :: acc) ++ [(c, n)]))
    with ((negb (fst r =? fst r') || (snd r =? 65535))
          && runs_maximal_capped ((r' :: acc) ++ [(c, n)])).
  change (runs_maximal_capped ((r :: r' :: acc) ++ [(c, m)]))
    with ((negb (fst r =? fst r') || (snd r =? 65535))
          && runs_maximal_capped ((r' :: acc) ++ [(c, m)])).
  now rewrite IH.
Qed.

Lemma run_lengths_snoc (acc : list run) (r : run) :
  run_lengths_in_range (acc ++ [r])
  = run_lengths_in_range acc && ((1 <=? snd r) && (snd r <=? 65535)).
Proof.
  unfold run_lengths_in_range. rewrite forallb_app. cbn. now rewrite andb_true_r.
Qed.

(** The loop keeps the runs emitted so far, followed by the open run,
    maximal up to the cap, and every run length within [1, 65535]. *)
Lemma rle_loop_capped (rest : list Z) :
  forall cur n acc,
    1 <= n <= 65535 ->
    runs_maximal_capped (acc ++ [(cur, n)]) = true ->
    run_lengths_in_range acc = true ->
    runs_maximal_capped (rle_loop rest cur n acc) = true /\
    run_lengths_in_range (rle_loop rest cur n acc) = true.
Proof.
  induction rest as [|d rest IH]; intros cur n acc Hn Hmax Hrange; cbn [rle_loop].
  - split; [exact Hmax|].
    rewrite run_lengths_snoc, Hrange. cbn [snd andb].
    apply andb_true_iff; split; [apply Z.leb_le | apply Z.leb_le]; lia.
  - destruct ((d =? cur) && (n <? 65535)) eqn:E.
    + apply andb_true_iff in E as [_ En]. apply Z.ltb_lt in En.
      apply IH; [lia | | exact Hrange].
      rewrite (capped_snoc_length acc cur (n + 1) n). exact Hmax.
    + apply IH; [lia | |].
      * rewrite <- app_assoc. cbn [app]. rewrite capped_snoc_two, Hmax.
        cbn [fst snd andb].
        apply andb_false_iff in E as [E|E].
        -- rewrite Z.eqb_sym, E. reflexivity.
        -- apply Z.ltb_ge in E. replace n with 65535 by lia.
           now rewrite orb_true_r.
      * rewrite run_lengths_snoc, Hrange. cbn [snd andb].
        apply andb_true_iff; split; apply Z.leb_le; lia.
Qed.

(** C4 (as amended). The run list of every depth sequence is maximal up to
    the run-length cap: two neighbouring runs carry the same depth value
    only when the earlier one holds 65535 samples, and every run length
    lies in [1, 65535]. *)
Theorem rle_maximal_up_to_cap (depth_data : list Z) (runs : list run) :
  rle_encode depth_data = Some runs ->
  runs_maximal_capped runs = true /\ run_lengths_in_range runs = true.
Proof.
  destruct depth_data as [|d0 rest]; [discriminate|].
  intros [= <-]. apply rle_loop_capped; [lia | reflexivity | reflexivity].
Qed.

Lemma rle_maximal_up_to_cap_witness :
  runs_maximal_capped [(6, 3); (4, 2); (7, 1)] = true /\
  run_lengths_in_range [(6, 3); (4, 2); (7, 1)] = true.
Proof.
  apply (rle_maximal_up_to_cap [6; 6; 6; 4; 4; 7]). reflexivity.
Defined.

(** C4 (as worded) fails: the flat depth map of a 256 x 256 sprite holds
    65536 equal samples and is split into the runs (6, 65535), (6, 1). *)
Lemma rle_not_always_maximal : ~ every_encoding_is_maximal.
Proof.
  intros H.
  specialize (H (flat_depth 256 256) [(6, 65535); (6, 1)]).
  assert (E : rle_encode (flat_depth 256 256) = Some [(6, 65535); (6, 1)])
    by (vm_compute; reflexivity).
  specialize (H E). discriminate H.
Qed.

End DepthRleFacts.

Module BundleFacts.
Import WispBuilder WispVerifier Samples.

(** The scan stops at the first entry whose name is the requested one. *)
Lemma find_asset_first (data asset_name : bytes) (hs ds : Z) (asset_data : bytes) :
  forall todo i0 i,
    i0 <= i < i0 + Z.of_nat todo ->
    (forall j, i0 <= j < i ->
       exists name, entry_name data hs j = Some name /\ name <> asset_name) ->
    entry_name data hs i = Some asset_name ->
    entry_payload data hs ds i = Some asset_data ->
    find_asset data asset_name hs ds todo i0 = Extracted asset_data.
Proof.
  induction todo as [|todo IH]; intros i0 i Hi Hbefore Hname Hpay; [lia|].
  cbn [find_asset].
  destruct (Z.eq_dec i0 i) as [->|Hne].
  - rewrite Hname, (proj2 (bytes_eqb_eq _ _) eq_refl), Hpay. reflexivity.
  - destruct (Hbefore i0) as (name & Hn & Hdiff); [lia|].
    rewrite Hn, (bytes_eqb_neq _ _ Hdiff).
    apply (IH (i0 + 1) i); [lia | | exact Hname | exact Hpay].
    intros j Hj. apply Hbefore. lia.
Qed.

(** C2 (as amended). When the entry table holds several entries with the
    requested name, extraction returns the payload of the first of them in
    table order: the scan returns at the first entry whose decoded name is
    equal, whatever follows it. *)
Theorem extract_first_match_wins
    (data asset_name : bytes) (entry_count i : Z) (asset_data : bytes) :
  bytes_eqb (slice data 0 4) (ascii_bytes "WISP") = true ->
  unpack_H (slice data 6 8) = Some entry_count ->
  0 <= i < entry_count ->
  (forall j, 0 <= j < i ->
     exists name, entry_name data 16 j = Some name /\ name <> asset_name) ->
  entry_name data 16 i = Some asset_name ->
  entry_payload data 16 (16 + entry_count * 48) i = Some asset_data ->
  extract_asset data asset_name = Extracted asset_data.
Proof.
  intros Hmagic Hcount Hi Hbefore Hname Hpay.
  unfold extract_asset. rewrite Hmagic, Hcount. cbn [negb].
  apply (find_asset_first data asset_name 16 _ asset_data _ 0 i); try assumption.
  lia.
Qed.

Lemma extract_first_match_wins_witness :
  extract_asset dup_file (ascii_bytes "dup") = Extracted [65].
Proof.
  apply (extract_first_match_wins dup_file (ascii_bytes "dup") 3 1 [65]).
  - vm_compute. reflexivity.
  - vm_compute. reflexivity.
  - lia.
  - intros j Hj. assert (j = 0) as -> by lia.
    exists (ascii_bytes "x"). split; [vm_compute; reflexivity | discriminate].
  - vm_compute. reflexivity.
  - vm_compute. reflexivity.
Defined.

(** C2 (as worded) fails: in the bundle written from [dup_assets] the
    entries 1 and 2 are both named "dup"; extraction returns the payload
    of entry 1, not that of entry 2. *)
Lemma extract_last_match_does_not_win : ~ last_match_wins.
Proof.
  intros H.
  specialize (H dup_file (ascii_bytes "dup") 3 1 2 [66]).
  assert (E : extract_asset dup_file (ascii_bytes "dup") = Extracted [66]).
  { apply H.
    - vm_compute. reflexivity.
    - vm_compute. reflexivity.
    - lia.
    - lia.
    - vm_compute. reflexivity.
    - vm_compute. reflexivity.
    - intros j Hj. lia.
    - vm_compute. reflexivity. }
  vm_compute in E. discriminate E.
Qed.

(** C1 (the code departs from it). The bundle written from one asset "a"
    and a ten-byte configuration lists that asset in [verify_wisp_file],
    which starts the entry table at 12 + config_size, but [extract_asset],
    which starts it at 16, does not find it. *)
Theorem extract_misses_written_asset :
  exists file,
    bundle_of ten_byte_config one_asset = Some file /\
    extract_asset file (ascii_bytes "a") = NotFound /\
    verify_wisp_file file
    = Some [{| l_name := ascii_bytes "a"; l_offset := 0; l_size := 1;
               l_type := 8; l_flags := 0; l_beyond_end := false |}].
Proof.
  eexists. split; [vm_compute; reflexivity|].
  split; vm_compute; reflexivity.
Qed.

(** The same holds for the container of the ROM builder class, whose
    16-byte header keeps the entry count at bytes 8-9: [extract_asset]
    reads the count 0 at bytes 6-7 and finds nothing. *)
Lemma extract_misses_rom_builder_asset :
  exists file,
    RomBuilder.build_rom
      {| RomBuilder.assets :=
           [{| RomBuilder.a_name := ascii_bytes "a"; RomBuilder.a_data := [120];
               RomBuilder.a_type := 8; RomBuilder.a_flags := 0 |}];
         RomBuilder.config_data := ten_byte_config |} = Some file /\
    extract_asset file (ascii_bytes "a") = NotFound.
Proof. eexists. split; vm_compute; reflexivity. Qed.

(** C9 (as amended). In the bundle builder a missing or empty
    configuration file is a hard failure: [collect_assets] raises
    FileNotFoundError for every asset list and the tool writes no
    container; with a non-empty configuration the assets are collected. *)
Theorem bundle_builder_requires_config
    (config_yaml config_yml : option bytes) (l : list asset) :
  (truthy (find_config config_yaml config_yml) = false ->
     collect_assets config_yaml config_yml l = FileNotFoundError /\
     forall check file,
       main check config_yaml config_yml l <> Wrote file /\
       main check config_yaml config_yml l <> WroteRaised file) /\
  (truthy (find_config config_yaml config_yml) = true ->
     exists entries payloads config_data,
       collect_assets config_yaml config_yml l
       = Collected entries payloads config_data /\
       find_config config_yaml config_yml = Some config_data).
Proof.
  unfold main, collect_assets.
  destruct (find_config config_yaml config_yml) as [[|b d]|]; cbn [truthy];
    split; intros H; try discriminate H.
  - split; [reflexivity|]. intros check file.
    destruct (validate_app_config _ _ _); split; discriminate.
  - destruct (collect_entries l 0) as [es ps]. now exists es, ps, (b :: d).
  - split; [reflexivity|]. intros check file.
    destruct (validate_app_config _ _ _); split; discriminate.
Qed.

Lemma bundle_builder_requires_config_witness :
  collect_assets None None one_asset = FileNotFoundError /\
  exists entries payloads config_data,
    collect_assets (Some ten_byte_config) None one_asset
    = Collected entries payloads config_data /\
    find_config (Some ten_byte_config) None = Some config_data.
Proof.
  split.
  - apply (proj1 (bundle_builder_requires_config None None one_asset)).
    reflexivity.
  - apply (proj2 (bundle_builder_requires_config (Some ten_byte_config) None
                    one_asset)).
    reflexivity.
Defined.

(** C9 (as worded) fails on the ROM builder class: a builder that was
    never given a configuration writes a 16-byte container whose
    configuration size is 0. *)
Lemma rom_builder_builds_without_config : ~ RomBuilder.no_config_no_container.
Proof.
  intros H. specialize (H []). vm_compute in H. discriminate H.
Qed.

(** C10. In [compile_png_to_sprite] every pixel with alpha below 128 gets
    colour index 0 and every pixel with alpha 128 or more gets an index in
    [1, 255]; so a colour index is 0 exactly when its pixel is transparent. *)
Theorem png_color_zero_iff_transparent (rows : list (list rgba)) :
  Forall2
    (fun px c =>
       ((alpha px < 128 /\ c = 0) \/ (128 <= alpha px /\ 1 <= c <= 255)) /\
       (c = 0 <-> alpha px < 128))
    (List.concat rows) (color_data rows).
Proof.
  assert (Hpx : forall px,
             ((alpha px < 128 /\ pixel_color px = 0)
              \/ (128 <= alpha px /\ 1 <= pixel_color px <= 255))
             /\ (pixel_color px = 0 <-> alpha px < 128)).
  { intros [[[r g] b] a]. unfold pixel_color, alpha. cbn [snd].
    destruct (a <? 128) eqn:E.
    - apply Z.ltb_lt in E. split; [left; lia | split; intros; [lia | reflexivity]].
    - apply Z.ltb_ge in E. split; [right; lia | split; intros; lia]. }
  unfold color_data. induction rows as [|row rows IH]; cbn [List.concat flat_map].
  - constructor.
  - apply Forall2_app; [|exact IH].
    clear IH. induction row as [|px row IHr]; cbn [map]; constructor; auto.
Qed.

(** X24. The sprite header of the bundle builder is packed with ten
    values into a format of eight fields, so the assembly always ends in
    the exception handler and the caller packs the raw PNG file. *)
Lemma compile_png_to_sprite_none (width height : Z) (rows : list (list rgba))
    (depth_data : list Z) :
  compile_png_to_sprite width height rows depth_data = None.
Proof.
  unfold compile_png_to_sprite, bind.
  destruct (DepthRle.rle_encode depth_data); [|reflexivity].
  unfold struct_pack.
  change (format_sizes (list_ascii_of_string "HHHBBBHH") None)
    with [2; 2; 2; 1; 1; 1; 2; 2]%nat.
  cbn [pack_values]. unfold bind.
  repeat match goal with
         | |- context [pack_uint ?n ?v] => destruct (pack_uint n v)
         end; reflexivity.
Qed.

End BundleFacts.

Module SpriteFacts.
Import Numpy PngToSpr Samples.

(** *** The search loop, under either promotion rule *)

Lemma scanned_step (np : promotion) (target : Z) (pre : list Z) (c bi : Z)
    (bd : option Z) :
  scanned np target pre bi bd ->
  scanned np target (pre ++ [c])
    (if is_magic c then bi
     else if closer (distance np target c) bd then len pre else bi)
    (if is_magic c then bd
     else if closer (distance np target c) bd
          then Some (distance np target c) else bd).
Proof.
  intros H. destruct (is_magic c) eqn:Em.
  - destruct bd as [d|]; cbn [scanned] in *.
    + destruct H as (Hd & ci & Hi & Hci & Hbest).
      rewrite Hi in Hd.
      assert (Hi' : index (pre ++ [c]) bi = Some ci) by (apply index_snoc; now left).
      rewrite Hi'. split; [exact Hd|].
      exists ci. split; [exact Hi'|]. split; [exact Hci|].
      intros j cj Hj Hcj. apply index_snoc in Hj as [Hj|[_ ->]]; [eauto | congruence].
    + intros j x Hj. apply index_snoc in Hj as [Hj|[_ ->]]; [eauto | exact Em].
  - assert (Hself : index (pre ++ [c]) (len pre) = Some c)
      by (apply index_snoc; now right).
    destruct bd as [d|]; cbn [closer scanned] in *.
    + destruct H as (Hd & ci & Hi & Hci & Hbest). rewrite Hi in Hd.
      destruct (distance np target c <? d) eqn:El.
      * apply Z.ltb_lt in El. cbn [scanned]. rewrite Hself.
        split; [reflexivity|].
        exists c. split; [exact Hself|]. split; [exact Em|].
        intros j cj Hj Hcj. apply index_snoc in Hj as [Hj|[-> ->]].
        -- destruct (Hbest j cj Hj Hcj) as [Hle _]. lia.
        -- lia.
      * apply Z.ltb_ge in El. cbn [scanned].
        assert (Hi' : index (pre ++ [c]) bi = Some ci) by (apply index_snoc; now left).
        rewrite Hi'. split; [exact Hd|].
        exists ci. split; [exact Hi'|]. split; [exact Hci|].
        intros j cj Hj Hcj. apply index_snoc in Hj as [Hj|[-> ->]].
        -- eauto.
        -- apply index_lt in Hi. lia.
    + cbn [scanned]. rewrite Hself. split; [reflexivity|].
      exists c. split; [exact Hself|]. split; [exact Em|].
      intros j cj Hj Hcj. apply index_snoc in Hj as [Hj|[-> ->]].
      * apply H in Hj. congruence.
      * lia.
Qed.

Lemma closest_loop_scanned (np : promotion) (target : Z) (colors : list Z) :
  forall pre bi bd,
    scanned np target pre bi bd ->
    exists bd',
      scanned np target (pre ++ colors)
        (closest_loop np colors (len pre) target bi bd) bd'.
Proof.
  induction colors as [|c rest IH]; intros pre bi bd H.
  - exists bd. now rewrite app_nil_r.
  - pose proof (scanned_step np target pre c bi bd H) as Hstep.
    cbn [closest_loop].
    replace (pre ++ c :: rest) with ((pre ++ [c]) ++ rest)
      by (rewrite <- app_assoc; reflexivity).
    replace (len pre + 1) with (len (pre ++ [c]))
      by (unfold len; rewrite length_app; cbn [List.length]; lia).
    destruct (is_magic c).
    + apply IH. exact Hstep.
    + destruct (closer (distance np target c) bd); apply IH; exact Hstep.
Qed.

(** Whatever the arithmetic, the index returned is the first entry of
    least computed distance among those not skipped. *)
Lemma find_closest_color_index_best (np : promotion) (w : wlut) (target : Z) :
  (exists j c, index (w_colors w) j = Some c /\ is_magic c = false) ->
  best np (w_colors w) target (find_closest_color_index np (Some w) target).
Proof.
  intros (j & c & Hj & Hc). unfold find_closest_color_index.
  destruct (closest_loop_scanned np target (w_colors w) [] 0 None) as [bd' H].
  { intros k x Hk. unfold index in Hk. destruct (k <? 0); [discriminate|].
    destruct (Z.to_nat k); discriminate. }
  cbn [app] in H. change (len (@nil Z)) with 0 in H.
  destruct bd' as [d|]; cbn [scanned] in H.
  - exact (proj2 H).
  - apply H in Hj. congruence.
Qed.

(** *** The fields of a code *)

(** The three fields of a packed RGB565 code, checked over all codes. *)
Lemma fields_check_ok :
  forallb (fun R =>
    forallb (fun G => forallb (fun B => fields_ok R G B) (range 32)) (range 64))
    (range 32) = true.
Proof. vm_compute. reflexivity. Qed.

Lemma packed_fields (R G B : Z) :
  0 <= R < 32 -> 0 <= G < 64 -> 0 <= B < 32 ->
  let t := Z.lor (Z.lor (Z.shiftl R 11) (Z.shiftl G 5)) B in
  red python_int t = R /\ green python_int t = G /\ blue python_int t = B /\
  t = R * 2048 + G * 32 + B.
Proof.
  intros HR HG HB.
  assert (H : fields_ok R G B = true).
  { pose proof (proj1 (forallb_forall _ _) fields_check_ok R (in_range 32 R HR)) as H1.
    pose proof (proj1 (forallb_forall _ _) H1 G (in_range 64 G HG)) as H2.
    exact (proj1 (forallb_forall _ _) H2 B (in_range 32 B HB)). }
  unfold fields_ok in H. cbv zeta in H |- *.
  apply andb_true_iff in H as [H H4]. apply andb_true_iff in H as [H H3].
  apply andb_true_iff in H as [H1 H2].
  apply Z.eqb_eq in H1, H2, H3, H4. auto.
Qed.

(** The packing on [uint8] scalars, checked over all fields. *)
Lemma wrapped_fields_check_ok :
  forallb (fun R =>
    forallb (fun G => forallb (fun B => wrapped_fields_ok R G B) (range 32))
            (range 64))
    (range 32) = true.
Proof. vm_compute. reflexivity. Qed.

Lemma wrapped_fields (R G B : Z) :
  0 <= R < 32 -> 0 <= G < 64 -> 0 <= B < 32 ->
  wrap_uint8
    (Z.lor (wrap_uint8 (Z.lor (wrap_uint8 (Z.shiftl R 11))
                              (wrap_uint8 (Z.shiftl G 5)))) B)
  = (G mod 8) * 32 + B.
Proof.
  intros HR HG HB.
  pose proof (proj1 (forallb_forall _ _) wrapped_fields_check_ok R
                (in_range 32 R HR)) as H1.
  pose proof (proj1 (forallb_forall _ _) H1 G (in_range 64 G HG)) as H2.
  pose proof (proj1 (forallb_forall _ _) H2 B (in_range 32 B HB)) as H3.
  unfold wrapped_fields_ok in H3. cbv zeta in H3. now apply Z.eqb_eq in H3.
Qed.

Lemma truncate_5 (v : Z) : 0 <= v <= 255 ->
  Z.land (Z.shiftr v 3) 31 = Z.shiftr v 3 /\ 0 <= Z.shiftr v 3 < 32 /\
  Z.shiftr v 3 = v / 8.
Proof.
  intros H. rewrite Z.shiftr_div_pow2 by lia.
  change 31 with (Z.ones 5). rewrite Z.land_ones by lia.
  change (2 ^ 3) with 8. change (2 ^ 5) with 32.
  assert (0 <= v / 8 < 32)
    by (split; [apply Z.div_pos; lia | apply Z.div_lt_upper_bound; lia]).
  split; [apply Z.mod_small; lia | split; [lia | reflexivity]].
Qed.

Lemma truncate_6 (v : Z) : 0 <= v <= 255 ->
  Z.land (Z.shiftr v 2) 63 = Z.shiftr v 2 /\ 0 <= Z.shiftr v 2 < 64 /\
  Z.shiftr v 2 = v / 4.
Proof.
  intros H. rewrite Z.shiftr_div_pow2 by lia.
  change 63 with (Z.ones 6). rewrite Z.land_ones by lia.
  change (2 ^ 2) with 4. change (2 ^ 6) with 64.
  assert (0 <= v / 4 < 64)
    by (split; [apply Z.div_pos; lia | apply Z.div_lt_upper_bound; lia]).
  split; [apply Z.mod_small; lia | split; [lia | reflexivity]].
Qed.

(** *** The width of the results *)

Lemma wrap_int64_small (v : Z) :
  - 2 ^ 63 <= v < 2 ^ 63 -> wrap_int64 v = v.
Proof.
  intros H. unfold wrap_int64.
  change (2 ^ 64) with (2 * 2 ^ 63). rewrite Z.mod_small by lia. lia.
Qed.

Lemma wrap_uint8_small (v : Z) : 0 <= v < 256 -> wrap_uint8 v = v.
Proof. intros H. unfold wrap_uint8. apply Z.mod_small. exact H. Qed.

(** Under value-based casting a result of moderate size is exact. *)
Lemma arith_value_based (v : Z) :
  - 2 ^ 32 <= v < 2 ^ 32 -> arith (uint8_sample value_based) v = v.
Proof.
  intros H. cbn [arith]. apply wrap_int64_small.
  change (2 ^ 32) with 4294967296 in H.
  change (2 ^ 63) with 9223372036854775808. lia.
Qed.

Lemma red_int (c : Z) : red python_int c = (c / 2048) mod 32.
Proof.
  unfold red. cbn [arith]. rewrite Z.shiftr_div_pow2 by lia.
  change 31 with (Z.ones 5). rewrite Z.land_ones by lia. reflexivity.
Qed.

Lemma green_int (c : Z) : green python_int c = (c / 32) mod 64.
Proof.
  unfold green. cbn [arith]. rewrite Z.shiftr_div_pow2 by lia.
  change 63 with (Z.ones 6). rewrite Z.land_ones by lia. reflexivity.
Qed.

Lemma blue_int (c : Z) : blue python_int c = c mod 32.
Proof.
  unfold blue. cbn [arith].
  change 31 with (Z.ones 5). rewrite Z.land_ones by lia. reflexivity.
Qed.

Lemma channels_value_based (t : Z) :
  0 <= t < 65536 ->
  red (uint8_sample value_based) t = (t / 2048) mod 32 /\
  green (uint8_sample value_based) t = (t / 32) mod 64 /\
  blue (uint8_sample value_based) t = t mod 32.
Proof.
  intros Ht.
  assert (H11 : 0 <= t / 2048 < 32)
    by (split; [apply Z.div_pos; lia | apply Z.div_lt_upper_bound; lia]).
  assert (H5 : 0 <= t / 32 < 2048)
    by (split; [apply Z.div_pos; lia | apply Z.div_lt_upper_bound; lia]).
  pose proof (Z.mod_pos_bound (t / 2048) 32 ltac:(lia)) as M1.
  pose proof (Z.mod_pos_bound (t / 32) 64 ltac:(lia)) as M2.
  pose proof (Z.mod_pos_bound t 32 ltac:(lia)) as M3.
  change (2 ^ 32) with 4294967296 in *.
  unfold red, green, blue.
  rewrite !Z.shiftr_div_pow2 by lia.
  change (2 ^ 11) with 2048. change (2 ^ 5) with 32.
  rewrite (arith_value_based (t / 2048)), (arith_value_based (t / 32))
    by (change (2 ^ 32) with 4294967296; lia).
  change 31 with (Z.ones 5). change 63 with (Z.ones 6).
  rewrite !Z.land_ones by lia.
  change (2 ^ 5) with 32. change (2 ^ 6) with 64.
  rewrite !arith_value_based by (change (2 ^ 32) with 4294967296; lia).
  auto.
Qed.

Lemma square_bound (d n : Z) : - n <= d <= n -> 0 <= d * d <= n * n.
Proof. intros H. split; nia. Qed.

(** Under value-based casting the computed distance of a 16-bit target
    is the squared distance of the channel values. *)
Lemma distance_value_based (target color : Z) :
  0 <= target < 65536 ->
  distance value_based target color = squared_distance target color.
Proof.
  intros Ht. unfold distance, squared_distance, channels. cbv zeta.
  destruct (channels_value_based target Ht) as (-> & -> & ->).
  rewrite red_int, green_int, blue_int.
  pose proof (Z.mod_pos_bound (target / 2048) 32 ltac:(lia)) as T1.
  pose proof (Z.mod_pos_bound (target / 32) 64 ltac:(lia)) as T2.
  pose proof (Z.mod_pos_bound target 32 ltac:(lia)) as T3.
  pose proof (Z.mod_pos_bound (color / 2048) 32 ltac:(lia)) as C1.
  pose proof (Z.mod_pos_bound (color / 32) 64 ltac:(lia)) as C2.
  pose proof (Z.mod_pos_bound color 32 ltac:(lia)) as C3.
  set (tr := (target / 2048) mod 32) in *.
  set (tg := (target / 32) mod 64) in *.
  set (tb := target mod 32) in *.
  set (r := (color / 2048) mod 32) in *.
  set (g := (color / 32) mod 64) in *.
  set (b := color mod 32) in *.
  assert (B32 : 2 ^ 32 = 4294967296) by reflexivity.
  rewrite (arith_value_based (tr - r)), (arith_value_based (tg - g)),
    (arith_value_based (tb - b)) by lia.
  clearbody tr tg tb r g b.
  pose proof (square_bound (tr - r) 31 ltac:(lia)) as Hr.
  pose proof (square_bound (tg - g) 63 ltac:(lia)) as Hg.
  pose proof (square_bound (tb - b) 31 ltac:(lia)) as Hb.
  rewrite (arith_value_based ((tr - r) * (tr - r))),
    (arith_value_based ((tg - g) * (tg - g))),
    (arith_value_based ((tb - b) * (tb - b))) by lia.
  rewrite (arith_value_based ((tr - r) * (tr - r) + (tg - g) * (tg - g))) by lia.
  rewrite arith_value_based by lia.
  reflexivity.
Qed.

Lemma is_magic_sentinel (c : Z) : is_magic c = false <-> ~ sentinel c.
Proof.
  unfold is_magic, sentinel. split.
  - intros H [H1 H2]. apply andb_false_iff in H as [H|H].
    + apply Z.leb_gt in H. lia.
    + apply Z.leb_gt in H. lia.
  - intros H. destruct (4096 <=? c) eqn:E1; [|reflexivity].
    destruct (c <=? 4369) eqn:E2; [|reflexivity].
    apply Z.leb_le in E1, E2. exfalso. apply H. lia.
Qed.

Lemma best_nearest (colors : list Z) (target i : Z) :
  0 <= target < 65536 ->
  best value_based colors target i -> nearest colors target i.
Proof.
  intros Ht (ci & Hi & Hci & Hall). exists ci.
  split; [exact Hi|]. split; [now apply is_magic_sentinel|].
  intros j cj Hj Hcj. apply is_magic_sentinel in Hcj.
  rewrite <- !(distance_value_based target) by exact Ht.
  exact (Hall j cj Hj Hcj).
Qed.

(** *** The code of a pixel *)

Lemma rgb565_alias (np : promotion) (r g b : Z) :
  rgb565 np r g b = PaletteConverter.rgb888_to_rgb565 (uint8_sample np) r g b.
Proof. reflexivity. Qed.

Lemma code_value_based (r g b : Z) :
  0 <= r <= 255 -> 0 <= g <= 255 -> 0 <= b <= 255 ->
  PaletteConverter.rgb888_to_rgb565 (uint8_sample value_based) r g b
  = (r / 8) * 2048 + (g / 4) * 32 + b / 8.
Proof.
  intros Hr Hg Hb.
  destruct (truncate_5 r Hr) as (Er & Rr & Dr), (truncate_6 g Hg) as (Eg & Rg & Dg),
    (truncate_5 b Hb) as (Eb & Rb & Db).
  destruct (packed_fields _ _ _ Rr Rg Rb) as (_ & _ & _ & H4).
  destruct (packed_fields (Z.shiftr r 3) (Z.shiftr g 2) 0 Rr Rg ltac:(lia))
    as (_ & _ & _ & H3).
  cbv zeta in H3, H4. rewrite Z.lor_0_r in H3.
  assert (B32 : 2 ^ 32 = 4294967296) by reflexivity.
  assert (S11 : Z.shiftl (Z.shiftr r 3) 11 = Z.shiftr r 3 * 2048)
    by (rewrite Z.shiftl_mul_pow2 by lia; reflexivity).
  assert (S5 : Z.shiftl (Z.shiftr g 2) 5 = Z.shiftr g 2 * 32)
    by (rewrite Z.shiftl_mul_pow2 by lia; reflexivity).
  unfold PaletteConverter.rgb888_to_rgb565. cbv zeta.
  rewrite (arith_value_based (Z.shiftr r 3)), (arith_value_based (Z.shiftr g 2)),
    (arith_value_based (Z.shiftr b 3)) by lia.
  rewrite Er, Eg, Eb.
  rewrite (arith_value_based (Z.shiftr r 3)), (arith_value_based (Z.shiftr g 2)),
    (arith_value_based (Z.shiftr b 3)) by lia.
  rewrite (arith_value_based (Z.shiftl (Z.shiftr r 3) 11)),
    (arith_value_based (Z.shiftl (Z.shiftr g 2) 5)) by lia.
  rewrite (arith_value_based
             (Z.lor (Z.shiftl (Z.shiftr r 3) 11) (Z.shiftl (Z.shiftr g 2) 5)))
    by lia.
  rewrite arith_value_based by lia.
  rewrite H4, Dr, Dg, Db. reflexivity.
Qed.

Lemma code_weak_scalar (r g b : Z) :
  0 <= r <= 255 -> 0 <= g <= 255 -> 0 <= b <= 255 ->
  PaletteConverter.rgb888_to_rgb565 (uint8_sample weak_scalar) r g b
  = ((g / 4) mod 8) * 32 + b / 8.
Proof.
  intros Hr Hg Hb.
  destruct (truncate_5 r Hr) as (Er & Rr & Dr), (truncate_6 g Hg) as (Eg & Rg & Dg),
    (truncate_5 b Hb) as (Eb & Rb & Db).
  unfold PaletteConverter.rgb888_to_rgb565. cbv zeta. cbn [arith].
  rewrite (wrap_uint8_small (Z.shiftr r 3)), (wrap_uint8_small (Z.shiftr g 2)),
    (wrap_uint8_small (Z.shiftr b 3)) by lia.
  rewrite Er, Eg, Eb.
  rewrite (wrap_uint8_small (Z.shiftr r 3)), (wrap_uint8_small (Z.shiftr g 2)),
    (wrap_uint8_small (Z.shiftr b 3)) by lia.
  rewrite (wrapped_fields _ _ _ Rr Rg Rb), Dg, Db. reflexivity.
Qed.

Lemma code_python_int (r g b : Z) :
  PaletteConverter.rgb888_to_rgb565 python_int r g b
  = ((r / 8) mod 32) * 2048 + ((g / 4) mod 64) * 32 + (b / 8) mod 32.
Proof.
  unfold PaletteConverter.rgb888_to_rgb565. cbv zeta. cbn [arith].
  rewrite !Z.shiftr_div_pow2 by lia.
  change 31 with (Z.ones 5). change 63 with (Z.ones 6).
  rewrite !Z.land_ones by lia.
  change (2 ^ 3) with 8. change (2 ^ 2) with 4.
  change (2 ^ 5) with 32. change (2 ^ 6) with 64.
  assert (HR : 0 <= (r / 8) mod 32 < 32) by (apply Z.mod_pos_bound; lia).
  assert (HG : 0 <= (g / 4) mod 64 < 64) by (apply Z.mod_pos_bound; lia).
  assert (HB : 0 <= (b / 8) mod 32 < 32) by (apply Z.mod_pos_bound; lia).
  exact (proj2 (proj2 (proj2 (packed_fields _ _ _ HR HG HB)))).
Qed.

Lemma channels_of_code (R G B : Z) :
  0 <= R < 32 -> 0 <= G < 64 -> 0 <= B < 32 ->
  channels (R * 2048 + G * 32 + B) = (R, G, B).
Proof.
  intros HR HG HB. unfold channels.
  assert (E1 : (R * 2048 + G * 32 + B) / 2048 = R).
  { symmetry. apply (Z.div_unique _ 2048 R (G * 32 + B)); lia. }
  assert (E2 : (R * 2048 + G * 32 + B) / 32 = R * 64 + G).
  { symmetry. apply (Z.div_unique _ 32 (R * 64 + G) B); lia. }
  assert (E3 : (R * 2048 + G * 32 + B) mod 32 = B).
  { symmetry. apply (Z.mod_unique _ 32 (R * 64 + G) B); lia. }
  rewrite E1, E2, E3.
  rewrite (Z.mod_small R 32) by lia.
  replace ((R * 64 + G) mod 64) with G
    by (apply (Z.mod_unique _ 64 R G); lia).
  reflexivity.
Qed.

(** C6. The code breaks the claim under the promotion rules of NumPy 2:
    the samples are uint8 scalars, so the red field is shifted out of the
    code, the green field keeps three bits and the distance wraps modulo
    256.  The 2 x 2 scenario compiles to [2, 3, 1, 2]: its red pixel gets
    the code 0 and is matched to white (computed distance 3), although red
    is in the table at index 0.  Under the value-based casting of NumPy 1.x
    the same input compiles to [0, 3, 1, 2], as the claim says. *)
Theorem scenario_indices_wrap_under_nep50 :
  color_data weak_scalar (Some scenario_wlut) scenario_image = [2; 3; 1; 2] /\
  rgb565 weak_scalar 255 0 0 = 0 /\
  distance weak_scalar 0 63488 = 193 /\
  distance weak_scalar 0 65535 = 3 /\
  color_data value_based (Some scenario_wlut) scenario_image = [0; 3; 1; 2].
Proof. vm_compute. repeat split; reflexivity. Qed.

(** X27. Under the value-based casting of NumPy 1.x a visible pixel
    (alpha above 127) is converted to RGB565 by 5-6-5 truncation and mapped
    to the index of the nearest colour of the table: an entry outside
    0x1000..0x1111 of least squared distance over the three channels, the
    lowest index among equals. *)
Theorem nearest_color_under_value_based (w : wlut) (r g b a : Z) :
  127 < a -> 0 <= r <= 255 -> 0 <= g <= 255 -> 0 <= b <= 255 ->
  (exists j c, index (w_colors w) j = Some c /\ ~ sentinel c) ->
  let target := rgb565 value_based r g b in
  target = (r / 8) * 2048 + (g / 4) * 32 + b / 8 /\
  channels target = (r / 8, g / 4, b / 8) /\
  nearest (w_colors w) target (palette_index value_based (Some w) (r, g, b, a)).
Proof.
  intros Ha Hr Hg Hb (j & c & Hj & Hc) target.
  destruct (truncate_5 r Hr) as (_ & Rr & Dr), (truncate_6 g Hg) as (_ & Rg & Dg),
    (truncate_5 b Hb) as (_ & Rb & Db).
  rewrite Dr in Rr. rewrite Dg in Rg. rewrite Db in Rb.
  assert (Ht : target = (r / 8) * 2048 + (g / 4) * 32 + b / 8).
  { unfold target. rewrite rgb565_alias. now apply code_value_based. }
  split; [exact Ht|]. split.
  - rewrite Ht. now apply channels_of_code.
  - unfold palette_index. fold target.
    destruct (a <=? 127) eqn:E; [apply Z.leb_le in E; lia|].
    apply best_nearest; [lia|].
    apply find_closest_color_index_best.
    exists j, c. split; [exact Hj | now apply is_magic_sentinel].
Qed.

Lemma nearest_color_under_value_based_witness :
  let target := rgb565 value_based 16 0 8 in
  target = (16 / 8) * 2048 + (0 / 4) * 32 + 8 / 8 /\
  channels target = (16 / 8, 0 / 4, 8 / 8) /\
  nearest (w_colors magic_first_wlut) target
    (palette_index value_based (Some magic_first_wlut) (16, 0, 8, 255)).
Proof.
  apply (nearest_color_under_value_based magic_first_wlut 16 0 8 255); try lia.
  exists 1, 63488. split; [reflexivity|]. unfold sentinel. lia.
Defined.

(** The magic entry at index 0 carries the very code of the pixel and is
    passed over: the pixel goes to index 2. *)
Example magic_entry_is_skipped :
  rgb565 value_based 16 0 8 = 4097 /\
  palette_index value_based (Some magic_first_wlut) (16, 0, 8, 255) = 2.
Proof. vm_compute. split; reflexivity. Qed.

End SpriteFacts.

Module PaletteFacts.
Import Numpy PaletteConverter Samples.

Lemma last_entries_app (regular tail : list Z) :
  last_entries (List.length tail) (regular ++ tail) = tail.
Proof.
  unfold last_entries. rewrite length_app.
  replace (List.length regular + List.length tail - List.length tail)%nat
    with (List.length regular + 0)%nat by lia.
  rewrite skipn_app, Nat.add_0_r, skipn_all.
  replace (List.length regular - List.length regular)%nat with 0%nat by lia.
  reflexivity.
Qed.

Lemma lut_scan_length (np : promotion) (n : Z) (img : image) (lut_data : list Z) :
  lut_scan np n img = Some lut_data -> len lut_data = len (lut_positions n).
Proof.
  unfold lut_scan, len. intros H. apply mapM_length in H. now rewrite H.
Qed.

Lemma lut_positions_64 : len (lut_positions 64) = 64 * 64 - 5.
Proof. vm_compute. reflexivity. Qed.

Lemma lut_positions_32 : len (lut_positions 32) = 32 * 32 - 5.
Proof. vm_compute. reflexivity. Qed.

Lemma convert_to_palette_shape (quantize : image -> Z -> image)
    (img : image) (max_colors : Z) (data : list Z) :
  convert_to_palette quantize img max_colors = Some data ->
  exists regular,
    data = regular ++ magic_colors /\ max_colors - 5 <= len regular.
Proof.
  intros H. apply bind_Some in H as (palette_data & _ & [= <-]).
  eexists. split; [reflexivity|].
  rewrite len_app. unfold len at 2. rewrite repeat_length. lia.
Qed.

Lemma lut_table_shape (np : promotion) (n : Z) (img : image) (data : list Z)
    (width height : Z) :
  lut_table np n img = Some (data, width, height) ->
  exists regular,
    data = regular ++ magic_colors /\ len regular = len (lut_positions n).
Proof.
  intros H. apply bind_Some in H as (lut_data & E & [= <- _ _]).
  exists lut_data. split; [reflexivity|]. exact (lut_scan_length _ _ _ _ E).
Qed.

(** The unfolding equations of the dispatch, stated once. *)
Lemma convert_to_lut_64x64_eq (np : promotion)
    (resize : image -> Z -> Z -> image) (img : image) :
  convert_to_lut_64x64 np resize img
  = lut_table np 64
      (if (fst (i_size img) =? 64) && (snd (i_size img) =? 64) then img
       else resize img 64 64).
Proof. reflexivity. Qed.

Lemma convert_to_lut_32x32_eq (np : promotion)
    (resize : image -> Z -> Z -> image) (img : image) :
  convert_to_lut_32x32 np resize img = lut_table np 32 (resize img 32 32).
Proof. reflexivity. Qed.

Lemma convert_lut_64_eq (np : promotion) (resize : image -> Z -> Z -> image)
    (quantize : image -> Z -> image) (img : image) :
  convert np resize quantize LUT_64x64 img = convert_to_lut_64x64 np resize img.
Proof. reflexivity. Qed.

Lemma convert_lut_32_eq (np : promotion) (resize : image -> Z -> Z -> image)
    (quantize : image -> Z -> image) (img : image) :
  convert np resize quantize LUT_32x32 img = convert_to_lut_32x32 np resize img.
Proof. reflexivity. Qed.

Lemma convert_to_lut_64x64_shape (np : promotion) (resize : image -> Z -> Z -> image)
    (img : image) (data : list Z) (width height : Z) :
  convert_to_lut_64x64 np resize img = Some (data, width, height) ->
  exists regular,
    data = regular ++ magic_colors /\ 64 * 64 - 5 <= len regular.
Proof.
  rewrite convert_to_lut_64x64_eq. intros H.
  apply lut_table_shape in H as (regular & -> & Hlen).
  exists regular. split; [reflexivity|]. rewrite Hlen, lut_positions_64. lia.
Qed.

Lemma convert_to_lut_32x32_shape (np : promotion) (resize : image -> Z -> Z -> image)
    (img : image) (data : list Z) (width height : Z) :
  convert_to_lut_32x32 np resize img = Some (data, width, height) ->
  exists regular,
    data = regular ++ magic_colors /\ 32 * 32 - 5 <= len regular.
Proof.
  rewrite convert_to_lut_32x32_eq. intros H.
  apply lut_table_shape in H as (regular & -> & Hlen).
  exists regular. split; [reflexivity|]. rewrite Hlen, lut_positions_32. lia.
Qed.

(** C5. Every palette table that the converter generates, whatever the
    capacity class (16/64/256 flat palette, 32x32 or 64x64 LUT), ends with
    the five codes 0x1000..0x1004; the regular colours fill the slots
    before them. *)
Theorem palette_tables_end_with_magic
    (np : promotion) (resize : image -> Z -> Z -> image)
    (quantize : image -> Z -> image)
    (format_type : format) (img : image) (data : list Z) (width height : Z) :
  convert np resize quantize format_type img = Some (data, width, height) ->
  last_entries 5 data = [4096; 4097; 4098; 4099; 4100] /\
  exists regular,
    data = regular ++ [4096; 4097; 4098; 4099; 4100] /\
    capacity format_type - 5 <= len regular.
Proof.
  intros H.
  assert (Hshape : exists regular,
             data = regular ++ magic_colors /\
             capacity format_type - 5 <= len regular).
  { destruct format_type.
    - rewrite convert_lut_64_eq in H.
      exact (convert_to_lut_64x64_shape _ _ _ _ _ _ H).
    - rewrite convert_lut_32_eq in H.
      exact (convert_to_lut_32x32_shape _ _ _ _ _ _ H).
    - apply bind_Some in H as (d & E & [= <- _ _]).
      exact (convert_to_palette_shape _ _ _ _ E).
    - apply bind_Some in H as (d & E & [= <- _ _]).
      exact (convert_to_palette_shape _ _ _ _ E).
    - apply bind_Some in H as (d & E & [= <- _ _]).
      exact (convert_to_palette_shape _ _ _ _ E).
    - discriminate H. }
  destruct Hshape as (regular & -> & Hlen).
  split; [|now exists regular].
  exact (last_entries_app regular magic_colors).
Qed.

Lemma to_rgb565_palette_length (n : nat) :
  forall palette_data,
    (List.length palette_data <= n)%nat ->
    3 * len (to_rgb565_palette palette_data) <= len palette_data.
Proof.
  induction n as [|n IH]; intros [|r [|g [|b rest]]] Hn;
    cbn [to_rgb565_palette]; unfold len in *; cbn [List.length] in *; try lia.
  assert (Hrest : (List.length rest <= n)%nat) by lia.
  specialize (IH rest Hrest). lia.
Qed.

(** X14. With a palette at hand (the usual case after quantisation) a
    flat palette of capacity [max_colors] is generated and has exactly
    [max_colors] entries: the colours, zero padding, the five magic codes. *)
Lemma convert_to_palette_full (quantize : image -> Z -> image)
    (img : image) (max_colors v : Z) (palette : list Z) :
  5 <= max_colors ->
  i_palette (match i_mode img with
             | P => img
             | _ => quantize img (max_colors - 5 - 1)
             end) = Some (v :: palette) ->
  exists data,
    convert_to_palette quantize img max_colors = Some data /\
    len data = max_colors.
Proof.
  intros Hmax Hpal. unfold convert_to_palette. rewrite Hpal. cbn [bind].
  eexists. split; [reflexivity|].
  set (palette_data := slice (v :: palette) 0 ((max_colors - 5) * 3)).
  pose proof (to_rgb565_palette_length _ palette_data (Nat.le_refl _)) as H3.
  assert (Hcut : len palette_data <= (max_colors - 5) * 3).
  { unfold palette_data, slice, len.
    pose proof (firstn_le_length (Z.to_nat ((max_colors - 5) * 3 - 0))
                  (skipn (Z.to_nat 0) (v :: palette))). lia. }
  rewrite !len_app. unfold len at 2. rewrite repeat_length.
  change (len magic_colors) with 5. lia.
Qed.

Lemma palette_tables_end_with_magic_witness :
  last_entries 5
    [63488; 31; 0; 0; 0; 0; 0; 0; 0; 0; 0; 4096; 4097; 4098; 4099; 4100]
  = [4096; 4097; 4098; 4099; 4100] /\
  exists regular,
    [63488; 31; 0; 0; 0; 0; 0; 0; 0; 0; 0; 4096; 4097; 4098; 4099; 4100]
    = regular ++ [4096; 4097; 4098; 4099; 4100] /\
    capacity PALETTE_16 - 5 <= len regular.
Proof.
  apply (palette_tables_end_with_magic weak_scalar keep_size two_color_quantize
           PALETTE_16 wide_image _ 0 0).
  vm_compute. reflexivity.
Defined.

Lemma nodup_nonempty (l : list pixel) : l <> [] -> nodup pixel_dec l <> [].
Proof.
  destruct l as [|x l]; [congruence|]. intros _ H.
  assert (Hin : In x (nodup pixel_dec (x :: l)))
    by (apply nodup_In; now left).
  rewrite H in Hin. exact Hin.
Qed.

(** C7 (as amended). An image of no known LUT or flat-palette shape that
    fits in 16 x 16 is classified PALETTE_SMALL without counting colours;
    any other image of no known shape (with at least one pixel) gets the
    smallest of the classes 16/64/256 that holds its distinct colours, and
    the 64x64 LUT class when it has more than 256 of them. *)
Theorem unknown_shapes_small_or_by_count (img : image) :
  known_shape (fst (i_size img)) (snd (i_size img)) = false ->
  List.concat (i_rows img) <> [] ->
  analyze_image img
  = if (fst (i_size img) <=? 16) && (snd (i_size img) <=? 16)
    then PALETTE_SMALL
    else class_of_count (len (distinct_colors img)).
Proof.
  unfold known_shape, analyze_image. destruct (i_size img) as [width height].
  cbn [fst snd]. intros Hshape Hpix.
  repeat (apply orb_false_iff in Hshape as [Hshape ?]).
  repeat match goal with H : _ = false |- _ => rewrite H; clear H end.
  destruct ((width <=? 16) && (height <=? 16)); [reflexivity|].
  unfold getcolors, class_of_count.
  set (colors := map _ (distinct_colors img)).
  assert (Hlen : len colors = len (distinct_colors img))
    by (unfold colors, len; now rewrite length_map).
  rewrite Hlen.
  destruct (256 * 256 * 256 <? len (distinct_colors img)) eqn:Emax.
  - apply Z.ltb_lt in Emax.
    change (65536 <=? 16) with false. change (65536 <=? 64) with false.
    change (65536 <=? 256) with false. cbv iota.
    repeat match goal with
           | |- context [?a <=? ?b] =>
               let E := fresh in destruct (a <=? b) eqn:E;
               [apply Z.leb_le in E; lia|]
           end.
    reflexivity.
  - destruct colors as [|c l] eqn:Ec.
    + exfalso. apply (nodup_nonempty _ Hpix).
      unfold colors in Ec. apply map_eq_nil in Ec. exact Ec.
    + rewrite Hlen. reflexivity.
Qed.

Lemma unknown_shapes_small_or_by_count_witness :
  analyze_image wide_image
  = if (fst (i_size wide_image) <=? 16) && (snd (i_size wide_image) <=? 16)
    then PALETTE_SMALL
    else class_of_count (len (distinct_colors wide_image)).
Proof.
  apply (unknown_shapes_small_or_by_count wide_image).
  - reflexivity.
  - discriminate.
Defined.

(** C7 (as worded) fails: an 8 x 8 image of one colour has no known shape
    and is classified PALETTE_SMALL, not PALETTE_16. *)
Lemma small_images_not_classified_by_count : ~ unknown_shapes_classified_by_count.
Proof.
  intros H. specialize (H small_image). vm_compute in H.
  specialize (H eq_refl). discriminate H.
Qed.

End PaletteFacts.

Module RomV2Facts.
Import RomBuilderV2 Samples.

(** Interning is by exact value: a text that is in the pool keeps its
    offset and leaves the pool as it is; a new text gets the number of
    texts already in the pool. *)
Lemma add_string_known (text : bytes) (string_pool : pool) (offset : Z) :
  pool_get string_pool text = Some offset ->
  add_string text string_pool = (Some offset, string_pool).
Proof. unfold add_string. now intros ->. Qed.

Lemma add_string_new (text : bytes) (string_pool : pool) :
  pool_get string_pool text = None ->
  add_string text string_pool
  = (Some (len string_pool), string_pool ++ [(text, len string_pool)]).
Proof. unfold add_string. now intros ->. Qed.

Lemma pool_get_snoc (string_pool : pool) (text : bytes) (offset : Z) :
  pool_get string_pool text = None ->
  pool_get (string_pool ++ [(text, offset)]) text = Some offset.
Proof.
  induction string_pool as [|[k v] rest IH]; cbn [pool_get app].
  - now rewrite (proj2 (bytes_eqb_eq text text) eq_refl).
  - destruct (bytes_eqb k text); [discriminate | exact IH].
Qed.

Lemma add_string_twice (text : bytes) (string_pool : pool) :
  exists offset string_pool',
    add_string text string_pool = (Some offset, string_pool') /\
    add_string text string_pool' = (Some offset, string_pool').
Proof.
  destruct (pool_get string_pool text) as [offset|] eqn:E.
  - exists offset, string_pool. rewrite (add_string_known _ _ _ E). now split.
  - eexists _, _. rewrite (add_string_new _ _ E). split; [reflexivity|].
    apply add_string_known. now apply pool_get_snoc.
Qed.

(** The header format has eleven fields and is given twelve values. *)
Lemma header_format_fields :
  format_sizes (list_ascii_of_string "HLLLL6L") None
  = [2; 4; 4; 4; 4; 4; 4; 4; 4; 4; 4]%nat.
Proof. reflexivity. Qed.

(** C8 (the code departs from it). On a fresh builder with the one item
    "ab"/"cd": the body of the ROM is assembled with an empty string pool
    section, the strings being interned only while the entries are packed;
    the item stores the ordinals 0 and 1 of its two strings, while "cd"
    starts at byte 3 of the serialized pool, also on a second run that
    writes the pool; and [generate_rom] ends in [struct.error] on the
    header, both times. *)
Theorem string_fields_hold_ordinals :
  rom_body (builder_with []) []
  = (Some (ascii_bytes "WRPV" ++ [2; 0] ++ repeat 0 26
           ++ [1; 0; 1; 1; 6; 1; 10; 0] ++ [0; 0; 1; 1; 0; 0; 0; 0; 1; 0],
           [[1; 0; 1; 1; 6; 1; 10; 0; 0; 0; 1; 1; 0; 0; 0; 0; 1; 0]]),
     potion_pool) /\
  rom_body (builder_with potion_pool) potion_pool
  = (Some (ascii_bytes "WRPV" ++ [2; 0] ++ repeat 0 26
           ++ [97; 98; 0; 99; 100; 0]
           ++ [1; 0; 1; 1; 6; 1; 10; 0] ++ [0; 0; 1; 1; 0; 0; 0; 0; 1; 0],
           [[1; 0; 1; 1; 6; 1; 10; 0; 0; 0; 1; 1; 0; 0; 0; 0; 1; 0]]),
     potion_pool) /\
  _pack_item potion potion_pool
  = (Some [0; 0; 1; 1; 0; 0; 0; 0; 1; 0], potion_pool) /\
  string_data potion_pool = [97; 98; 0; 99; 100; 0] /\
  pool_get potion_pool (ascii_bytes "cd") = Some 1 /\
  pool_byte_offset potion_pool (ascii_bytes "cd") = Some 3 /\
  generate_rom (builder_with []) = (None, potion_pool) /\
  generate_rom (builder_with potion_pool) = (None, potion_pool).
Proof. repeat split; vm_compute; reflexivity. Qed.

(** X23. Whatever the records and the pool, [generate_rom] returns no
    ROM: the header is packed with twelve values into the eleven fields of
    '<HLLLL6L', which raises [struct.error]. *)
Lemma generate_rom_raises (self : builder) : fst (generate_rom self) = None.
Proof.
  unfold generate_rom, bindM.
  destruct (rom_body self (string_pool self)) as [[body|] p]; [|reflexivity].
  unfold lift, struct_pack. rewrite header_format_fields.
  cbn [pack_values]. unfold bind.
  repeat match goal with
         | |- context [pack_uint ?n ?v] => destruct (pack_uint n v)
         end; reflexivity.
Qed.

End RomV2Facts.

(** ** Further facts on bytes and slices *)
Module ByteFacts.

Lemma le_bytes_length (n : nat) (v : Z) : List.length (le_bytes n v) = n.
Proof. unfold le_bytes. now rewrite length_map, length_seq. Qed.

Lemma le_value_from (v : Z) (n : nat) :
  forall s : nat,
    0 <= v ->
    le_value (map (fun k => Z.land (Z.shiftr v (8 * Z.of_nat k)) 255) (seq s n))
    = (v / 2 ^ (8 * Z.of_nat s)) mod 2 ^ (8 * Z.of_nat n).
Proof.
  induction n as [|n IH]; intros s Hv.
  - cbn. now rewrite Z.mod_1_r.
  - cbn [seq map le_value fold_right]. fold (le_value (map (fun k => Z.land (Z.shiftr v (8 * Z.of_nat k)) 255) (seq (S s) n))).
    rewrite IH by exact Hv.
    rewrite Z.shiftr_div_pow2 by lia.
    change 255 with (Z.ones 8). rewrite Z.land_ones by lia.
    replace (8 * Z.of_nat (S n)) with (8 + 8 * Z.of_nat n) by lia.
    replace (8 * Z.of_nat (S s)) with (8 * Z.of_nat s + 8) by lia.
    rewrite !Z.pow_add_r by lia.
    rewrite <- Z.div_div by lia.
    change (2 ^ 8) with 256.
    set (x := v / 2 ^ (8 * Z.of_nat s)).
    assert (0 < 2 ^ (8 * Z.of_nat n)) by (apply Z.pow_pos_nonneg; lia).
    rewrite (Z.rem_mul_r x 256 (2 ^ (8 * Z.of_nat n))) by lia.
    reflexivity.
Qed.

Lemma le_value_le_bytes (n : nat) (v : Z) :
  0 <= v < 2 ^ (8 * Z.of_nat n) -> le_value (le_bytes n v) = v.
Proof.
  intros H. unfold le_bytes. rewrite le_value_from by lia.
  change (8 * Z.of_nat 0) with 0. rewrite Z.div_1_r. apply Z.mod_small. exact H.
Qed.

Lemma pack_uint_Some (n : nat) (v : Z) :
  0 <= v < 2 ^ (8 * Z.of_nat n) -> pack_uint n v = Some (le_bytes n v).
Proof.
  intros [H0 H1]. unfold pack_uint.
  rewrite (proj2 (Z.leb_le _ _) H0), (proj2 (Z.ltb_lt _ _) H1). reflexivity.
Qed.

Lemma pack_uint_inv (n : nat) (v : Z) (b : bytes) :
  pack_uint n v = Some b -> b = le_bytes n v /\ 0 <= v < 2 ^ (8 * Z.of_nat n).
Proof.
  unfold pack_uint. destruct (0 <=? v) eqn:E0; [|discriminate].
  destruct (v <? 2 ^ (8 * Z.of_nat n)) eqn:E1; [|discriminate].
  intros [= <-]. apply Z.leb_le in E0. apply Z.ltb_lt in E1. auto.
Qed.

Lemma unpack_le_bytes (n : nat) (v : Z) :
  0 <= v < 2 ^ (8 * Z.of_nat n) -> unpack_uint n (le_bytes n v) = Some v.
Proof.
  intros H. unfold unpack_uint.
  rewrite le_bytes_length, Nat.eqb_refl, le_value_le_bytes by exact H.
  reflexivity.
Qed.

(** Slices of concatenations. *)
Lemma slice_app_skip {A : Type} (p q : list A) (a b : Z) :
  0 <= a -> slice (p ++ q) (len p + a) (len p + b) = slice q a b.
Proof.
  intros Ha. unfold slice, len.
  replace (Z.to_nat (Z.of_nat (List.length p) + a))
    with (List.length p + Z.to_nat a)%nat by lia.
  rewrite skipn_app, skipn_all2 by lia.
  replace (List.length p + Z.to_nat a - List.length p)%nat with (Z.to_nat a) by lia.
  cbn [app]. f_equal. lia.
Qed.

Lemma slice_prefix {A : Type} (q r : list A) (a b : Z) :
  0 <= a -> b <= len q -> slice (q ++ r) a b = slice q a b.
Proof.
  intros Ha Hb. unfold slice, len in *.
  rewrite skipn_app, firstn_app.
  replace (Z.to_nat (b - a) - List.length (skipn (Z.to_nat a) q))%nat with 0%nat
    by (rewrite length_skipn; lia).
  cbn [firstn]. now rewrite app_nil_r.
Qed.

Lemma slice_all {A : Type} (q : list A) : slice q 0 (len q) = q.
Proof.
  unfold slice, len. cbn [Z.to_nat skipn].
  replace (Z.to_nat (Z.of_nat (List.length q) - 0)) with (List.length q) by lia.
  apply firstn_all.
Qed.

Lemma slice_length {A : Type} (l : list A) (a b : Z) :
  0 <= a -> a <= b ->
  len (slice l a b) = Z.min (b - a) (Z.max 0 (len l - a)).
Proof.
  intros Ha Hab. unfold slice, len. rewrite length_firstn, length_skipn. lia.
Qed.

Lemma index_app_skip {A : Type} (p q : list A) (a : Z) :
  0 <= a -> index (p ++ q) (len p + a) = index q a.
Proof.
  intros Ha. unfold index, len.
  destruct (Z.of_nat (List.length p) + a <? 0) eqn:E1; [apply Z.ltb_lt in E1; lia|].
  destruct (a <? 0) eqn:E2; [apply Z.ltb_lt in E2; lia|].
  rewrite nth_error_app2 by lia. f_equal. lia.
Qed.

Lemma index_prefix {A : Type} (q r : list A) (a : Z) :
  a < len q -> index (q ++ r) a = index q a.
Proof.
  intros Ha. unfold index, len in *. destruct (a <? 0) eqn:E; [reflexivity|].
  apply Z.ltb_ge in E. apply nth_error_app1. lia.
Qed.

End ByteFacts.

Module BundleLayoutFacts.
Import WispBuilder WispVerifier BundleLayout Samples ByteFacts.

Lemma slice_at {A : Type} (p x q : list A) (a b : Z) :
  len p = a -> len x = b - a -> slice (p ++ x ++ q) a b = x.
Proof.
  intros Hp Hx. pose proof (len_nonneg p). pose proof (len_nonneg x).
  replace a with (len p + 0) by lia. replace b with (len p + len x) by lia.
  rewrite slice_app_skip by lia. rewrite slice_prefix by lia. apply slice_all.
Qed.

Lemma index_at {A : Type} (p q : list A) (x : A) (a : Z) :
  len p = a -> index (p ++ x :: q) a = Some x.
Proof.
  intros Hp. pose proof (len_nonneg p).
  replace a with (len p + 0) by lia. rewrite index_app_skip by lia. reflexivity.
Qed.

Lemma payload_size_cons (a : asset) (l : list asset) :
  payload_size (a :: l) = len (snd a) + payload_size l.
Proof. reflexivity. Qed.

Lemma payload_size_nonneg (assets : list asset) : 0 <= payload_size assets.
Proof.
  induction assets as [|a l IH]; [discriminate|].
  rewrite payload_size_cons. pose proof (len_nonneg (snd a)). lia.
Qed.

Lemma payload_size_app (a b : list asset) :
  payload_size (a ++ b) = payload_size a + payload_size b.
Proof.
  induction a as [|x a IH]; [reflexivity|].
  cbn [app]. rewrite !payload_size_cons, IH. lia.
Qed.

Lemma payload_size_concat (assets : list asset) :
  len (List.concat (map snd assets)) = payload_size assets.
Proof.
  induction assets as [|a l IH]; [reflexivity|].
  cbn [map List.concat]. rewrite len_app, IH, payload_size_cons. reflexivity.
Qed.

Lemma collect_entries_payloads (assets : list asset) :
  forall offset, snd (collect_entries assets offset) = map snd assets.
Proof.
  induction assets as [|[[p ty] d] rest IH]; intros offset; cbn [collect_entries].
  - reflexivity.
  - specialize (IH (offset + len d)).
    destruct (collect_entries rest (offset + len d)) as [es ps].
    cbn [snd map] in *. now rewrite IH.
Qed.

Lemma collect_entries_length (assets : list asset) :
  forall offset, List.length (fst (collect_entries assets offset)) = List.length assets.
Proof.
  induction assets as [|[[p ty] d] rest IH]; intros offset; cbn [collect_entries].
  - reflexivity.
  - specialize (IH (offset + len d)).
    destruct (collect_entries rest (offset + len d)) as [es ps].
    cbn [fst List.length] in *. now rewrite IH.
Qed.

(** X1. The entries that [collect_assets] builds tile the payload region
    in table order: the offset of entry [i] is the total size of the data
    before it, its size is that of its own data, and its name field is the
    path cut to 31 bytes and padded to 32. *)
Theorem collect_entries_tile (assets : list asset) (i : nat)
    (rel_path : bytes) (ty : Z) (data : bytes) :
  nth_error assets i = Some (rel_path, ty, data) ->
  exists e,
    nth_error (fst (collect_entries assets 0)) i = Some e /\
    nth_error (snd (collect_entries assets 0)) i = Some data /\
    e_offset e = payload_size (firstn i assets) /\
    e_size e = len data /\
    e_offset e + e_size e = payload_size (firstn (S i) assets) /\
    e_name e = firstn 31 rel_path ++ repeat 0 (32 - List.length (firstn 31 rel_path)) /\
    len (e_name e) = 32 /\
    e_type e = ty /\ e_flags e = 0.
Proof.
  assert (G : forall l offset j,
             nth_error l j = Some (rel_path, ty, data) ->
             exists e,
               nth_error (fst (collect_entries l offset)) j = Some e /\
               nth_error (snd (collect_entries l offset)) j = Some data /\
               e_offset e = offset + payload_size (firstn j l) /\
               e_size e = len data /\
               e_name e = ljust0 32 (firstn 31 rel_path) /\
               e_type e = ty /\ e_flags e = 0).
  { induction l as [|[[p t] d] rest IH]; intros offset j Hj.
    - destruct j; discriminate.
    - cbn [collect_entries].
      destruct j as [|j].
      + injection Hj as -> -> ->.
        destruct (collect_entries rest (offset + len data)) as [es ps].
        eexists. cbn [fst snd nth_error firstn].
        repeat split; cbn [e_offset e_size e_name e_type e_flags]; try reflexivity.
        change (payload_size []) with 0. lia.
      + cbn [nth_error] in Hj.
        destruct (IH (offset + len d) j Hj) as (e & H1 & H2 & H3 & H4 & H5).
        destruct (collect_entries rest (offset + len d)) as [es ps].
        exists e. cbn [fst snd nth_error] in *.
        split; [exact H1|]. split; [exact H2|]. split; [|exact (conj H4 H5)].
        rewrite H3. cbn [firstn]. rewrite payload_size_cons. cbn [snd]. lia. }
  intros Hi. destruct (G assets 0 i Hi) as (e & H1 & H2 & H3 & H4 & H5 & H6 & H7).
  exists e. repeat split; try assumption.
  - rewrite H3, H4.
    assert (Hs : firstn (S i) assets = firstn i assets ++ [(rel_path, ty, data)]).
    { clear -Hi. revert i Hi. induction assets as [|a l IH]; intros [|i] Hi;
        try discriminate.
      - now injection Hi as ->.
      - cbn [nth_error] in Hi. cbn [firstn app]. f_equal. change (firstn (S i) l = firstn i l ++ [(rel_path, ty, data)]). now apply IH. }
    rewrite Hs, payload_size_app, payload_size_cons. cbn [snd].
    change (payload_size []) with 0. lia.
  - rewrite H5. unfold len, ljust0. rewrite length_app, repeat_length.
    pose proof (firstn_le_length 31 rel_path). lia.
Qed.

Lemma collect_entries_tile_witness :
  exists e,
    nth_error (fst (collect_entries dup_assets 0)) 2 = Some e /\
    nth_error (snd (collect_entries dup_assets 0)) 2 = Some [66] /\
    e_offset e = payload_size (firstn 2 dup_assets) /\
    e_size e = len [66] /\
    e_offset e + e_size e = payload_size (firstn 3 dup_assets) /\
    e_name e = firstn 31 (ascii_bytes "dup")
               ++ repeat 0 (32 - List.length (firstn 31 (ascii_bytes "dup"))) /\
    len (e_name e) = 32 /\
    e_type e = 8 /\ e_flags e = 0.
Proof.
  apply (collect_entries_tile dup_assets 2 (ascii_bytes "dup") 8 [66]).
  reflexivity.
Defined.


Lemma pack_s_length (n : nat) (b : bytes) : List.length (pack_s n b) = n.
Proof.
  unfold pack_s. rewrite length_app, length_firstn, repeat_length. lia.
Qed.

Lemma le_bytes_1 (v : Z) : 0 <= v < 256 -> le_bytes 1 v = [v].
Proof.
  intros H. pose proof (le_value_le_bytes 1 v H) as E.
  unfold le_bytes in *. cbn [seq map le_value fold_right] in *. f_equal. lia.
Qed.

Lemma entry_record_length (e : entry) : len (entry_record e) = 48.
Proof.
  unfold entry_record, len.
  rewrite !length_app, !pack_s_length, !le_bytes_length. reflexivity.
Qed.

Lemma pack_entry_record (e : entry) :
  0 <= e_offset e < 2 ^ 32 -> 0 <= e_size e < 2 ^ 32 ->
  0 <= e_type e < 256 -> 0 <= e_flags e < 256 ->
  pack_entry e = Some (entry_record e).
Proof.
  intros Ho Hs Ht Hf. unfold pack_entry, pack_I, pack_B.
  rewrite (pack_uint_Some 4 (e_offset e)) by exact Ho.
  rewrite (pack_uint_Some 4 (e_size e)) by exact Hs.
  rewrite (pack_uint_Some 1 (e_type e)) by exact Ht.
  rewrite (pack_uint_Some 1 (e_flags e)) by exact Hf.
  reflexivity.
Qed.

Lemma pack_header_record (entry_count config_size : Z) :
  0 <= entry_count < 65536 -> 0 <= config_size < 2 ^ 32 ->
  pack_header 256 entry_count config_size
  = Some (header_record entry_count config_size).
Proof.
  intros Hn Hc. unfold pack_header, pack_H, pack_I.
  rewrite (pack_uint_Some 2 256) by (cbn; lia).
  rewrite (pack_uint_Some 2 entry_count) by exact Hn.
  rewrite (pack_uint_Some 4 config_size) by exact Hc.
  reflexivity.
Qed.

Lemma records_length (es : list entry) :
  len (List.concat (map entry_record es)) = 48 * len es.
Proof.
  induction es as [|e es IH]; [reflexivity|].
  cbn [map List.concat]. rewrite len_app, IH, entry_record_length, len_cons. lia.
Qed.

Lemma types_fit_cons (a : asset) (l : list asset) :
  types_fit (a :: l) = true ->
  0 <= snd (fst a) < 256 /\ types_fit l = true.
Proof.
  unfold types_fit. cbn [forallb]. intros H.
  apply andb_true_iff in H as [H1 H2]. unfold between in H1.
  apply andb_true_iff in H1 as [Ha Hb].
  apply Z.leb_le in Ha, Hb. split; [lia | exact H2].
Qed.

(** The entries of assets whose sizes and tags fit are packed without
    error, each into its 48-byte record. *)
Lemma pack_collected (assets : list asset) :
  forall offset,
    0 <= offset -> offset + payload_size assets < 2 ^ 32 ->
    types_fit assets = true ->
    mapM pack_entry (fst (collect_entries assets offset))
    = Some (map entry_record (fst (collect_entries assets offset))).
Proof.
  induction assets as [|[[p ty] d] rest IH]; intros offset Ho Hsize Hty.
  - reflexivity.
  - rewrite payload_size_cons in Hsize. cbn [snd] in Hsize.
    apply types_fit_cons in Hty as [Hty Hrest]. cbn [fst snd] in Hty.
    pose proof (len_nonneg d). pose proof (payload_size_nonneg rest).
    specialize (IH (offset + len d) ltac:(lia) ltac:(lia) Hrest).
    cbn [collect_entries].
    destruct (collect_entries rest (offset + len d)) as [es ps].
    cbn [fst map mapM] in *.
    rewrite pack_entry_record; cbn [e_offset e_size e_type e_flags]; try lia.
    cbn [bind]. rewrite IH. reflexivity.
Qed.

Lemma bundle_of_shape (config : bytes) (assets : list asset) :
  config <> [] -> len config < 2 ^ 32 -> len assets < 65536 ->
  payload_size assets < 2 ^ 32 -> types_fit assets = true ->
  bundle_of config assets
  = Some (header_record (len assets) (len config) ++ config
          ++ List.concat (map entry_record (fst (collect_entries assets 0)))
          ++ List.concat (map snd assets)).
Proof.
  intros Hne Hc Hn Hsize Hty. unfold bundle_of, collect_assets.
  cbn [find_config]. destruct config as [|b config]; [congruence|].
  pose proof (collect_entries_payloads assets 0) as Hps.
  pose proof (collect_entries_length assets 0) as Hlen.
  pose proof (pack_collected assets 0 ltac:(lia) ltac:(lia) Hty) as Hpack.
  destruct (collect_entries assets 0) as [es ps]. cbn [fst snd] in *. subst ps.
  unfold write_wisp_bundle. cbn [truthy blob].
  assert (Hes : len es = len assets) by (unfold len; now rewrite Hlen).
  rewrite Hes, pack_header_record;
    [|pose proof (len_nonneg assets); lia
     |pose proof (len_nonneg (b :: config)); lia].
  cbn [bind]. rewrite Hpack. reflexivity.
Qed.

(** X2. A bundle written from assets that fit (fewer than 65536 of them,
    less than 4 GiB of data, byte-sized tags) and a non-empty
    configuration has the size
    12 + config size + 48 * entry count + total data size. *)
Theorem bundle_size (config : bytes) (assets : list asset) :
  config <> [] -> len config < 2 ^ 32 -> len assets < 65536 ->
  payload_size assets < 2 ^ 32 -> types_fit assets = true ->
  exists file,
    bundle_of config assets = Some file /\
    len file = 12 + len config + 48 * len assets + payload_size assets.
Proof.
  intros Hne Hc Hn Hsize Hty. eexists. split.
  - apply bundle_of_shape; assumption.
  - rewrite !len_app, records_length, payload_size_concat.
    assert (Hes : len (fst (collect_entries assets 0)) = len assets)
      by (unfold len; now rewrite collect_entries_length).
    rewrite Hes. unfold header_record, len at 1.
    rewrite !length_app, pack_s_length, !le_bytes_length. lia.
Qed.

Lemma bundle_size_witness :
  exists file,
    bundle_of four_byte_config dup_assets = Some file /\
    len file = 12 + len four_byte_config + 48 * len dup_assets
               + payload_size dup_assets.
Proof.
  apply (bundle_size four_byte_config dup_assets);
    solve [discriminate | reflexivity].
Defined.


Lemma rstrip0_zeros (k : nat) : rstrip0 (repeat 0 k) = [].
Proof. induction k as [|k IH]; [reflexivity|]. cbn [repeat rstrip0]. now rewrite IH. Qed.

Lemma rstrip0_padded (b : bytes) (k : nat) : rstrip0 (b ++ repeat 0 k) = rstrip0 b.
Proof.
  induction b as [|x b IH]; cbn [app rstrip0].
  - apply rstrip0_zeros.
  - now rewrite IH.
Qed.

Lemma name_field (rel_path : bytes) :
  rstrip0 (pack_s 32 (ljust0 32 (firstn 31 rel_path))) = rstrip0 (firstn 31 rel_path).
Proof.
  unfold pack_s, ljust0.
  set (n := firstn 31 rel_path).
  assert (Hn : (List.length n <= 31)%nat) by apply firstn_le_length.
  assert (Hlen : List.length (n ++ repeat 0 (32 - List.length n)) = 32%nat)
    by (rewrite length_app, repeat_length; lia).
  rewrite firstn_all2 by lia. rewrite Hlen. cbn [Nat.sub repeat].
  rewrite app_nil_r. apply rstrip0_padded.
Qed.

(** Reading back one 48-byte record that lies at its place in the file. *)
Lemma read_listed_record (data pre post : bytes) (e : entry)
    (entry_table_start data_start i : Z) :
  data = pre ++ entry_record e ++ post ->
  len pre = entry_table_start + i * 48 ->
  0 <= e_offset e < 2 ^ 32 -> 0 <= e_size e < 2 ^ 32 ->
  0 <= e_type e < 256 -> 0 <= e_flags e < 256 ->
  read_listed data entry_table_start data_start i
  = Some {| l_name := rstrip0 (pack_s 32 (e_name e));
            l_offset := e_offset e;
            l_size := e_size e;
            l_type := e_type e;
            l_flags := e_flags e;
            l_beyond_end := len data <? data_start + e_offset e + e_size e |}.
Proof.
  intros Hdata Hpre Ho Hs Ht Hf. unfold read_listed.
  set (eo := entry_table_start + i * 48) in *.
  set (N := pack_s 32 (e_name e)).
  set (O := le_bytes 4 (e_offset e)). set (S := le_bytes 4 (e_size e)).
  set (R := pack_s 6 (e_reserved e)).
  assert (HN : len N = 32) by (unfold len, N; now rewrite pack_s_length).
  assert (HO : len O = 4) by (unfold len, O; now rewrite le_bytes_length).
  assert (HS : len S = 4) by (unfold len, S; now rewrite le_bytes_length).
  assert (Hd : data = pre ++ N ++ O ++ S ++ e_type e :: e_flags e :: R ++ post).
  { rewrite Hdata. unfold entry_record.
    rewrite (le_bytes_1 (e_type e)), (le_bytes_1 (e_flags e)) by assumption.
    fold N O S R. rewrite <- !app_assoc. reflexivity. }
  assert (E1 : slice data eo (eo + 32) = N).
  { rewrite Hd. apply slice_at; lia. }
  assert (E2 : slice data (eo + 32) (eo + 36) = O).
  { rewrite Hd, (app_assoc pre N). apply slice_at; rewrite ?len_app; lia. }
  assert (E3 : slice data (eo + 36) (eo + 40) = S).
  { rewrite Hd, (app_assoc pre N), (app_assoc (pre ++ N) O).
    apply slice_at; rewrite ?len_app; lia. }
  assert (E4 : index data (eo + 40) = Some (e_type e)).
  { rewrite Hd, (app_assoc pre N), (app_assoc (pre ++ N) O),
      (app_assoc ((pre ++ N) ++ O) S).
    apply index_at. rewrite !len_app. lia. }
  assert (E5 : index data (eo + 41) = Some (e_flags e)).
  { rewrite Hd, (app_assoc pre N), (app_assoc (pre ++ N) O),
      (app_assoc ((pre ++ N) ++ O) S).
    change (e_type e :: e_flags e :: R ++ post)
      with ([e_type e] ++ e_flags e :: R ++ post).
    rewrite (app_assoc (((pre ++ N) ++ O) ++ S)).
    apply index_at. rewrite !len_app. change (len [e_type e]) with 1. lia. }
  rewrite E1, E2, E3, E4, E5. unfold unpack_I, O, S.
  rewrite !unpack_le_bytes by assumption. reflexivity.
Qed.

Lemma scan_listing (data post : bytes) (entry_table_start data_start : Z)
    (assets : list asset) :
  forall pre offset (i0 : nat),
    0 <= offset -> offset + payload_size assets < 2 ^ 32 ->
    types_fit assets = true ->
    len pre = entry_table_start + Z.of_nat i0 * 48 ->
    data = pre ++ List.concat (map entry_record (fst (collect_entries assets offset)))
               ++ post ->
    data_start + offset + payload_size assets <= len data ->
    mapM (read_listed data entry_table_start data_start)
         (map Z.of_nat (seq i0 (List.length assets)))
    = Some (listing assets offset).
Proof.
  induction assets as [|[[p ty] d] rest IH];
    intros pre offset i0 Ho Hsize Hty Hpre Hdata Hend.
  - reflexivity.
  - rewrite payload_size_cons in Hsize, Hend. cbn [snd] in Hsize, Hend.
    apply types_fit_cons in Hty as [Hty Hrest]. cbn [fst snd] in Hty.
    pose proof (len_nonneg d). pose proof (payload_size_nonneg rest).
    cbn [collect_entries] in Hdata.
    specialize (IH (pre ++ entry_record
                      {| e_name := ljust0 32 (firstn 31 p); e_offset := offset;
                         e_size := len d; e_type := ty; e_flags := 0;
                         e_reserved := [0; 0; 0; 0; 0; 0] |})
                   (offset + len d) (S i0)).
    destruct (collect_entries rest (offset + len d)) as [es ps].
    cbn [fst map List.concat] in Hdata, IH.
    rewrite <- app_assoc in Hdata.
    cbn [List.length seq map mapM listing].
    rewrite (read_listed_record data pre _ _ _ _ _ Hdata Hpre);
      cbn [e_offset e_size e_type e_flags e_name]; try lia.
    cbn [bind]. rewrite IH; try lia; try assumption.
    + cbn [bind]. rewrite name_field.
      replace (len data <? data_start + offset + len d) with false
        by (symmetry; apply Z.ltb_ge; lia).
      reflexivity.
    + rewrite len_app, entry_record_length. lia.
    + rewrite Hdata, <- app_assoc. reflexivity.
Qed.

(** X3. Reading a written bundle back with [verify_wisp_file] lists the
    assets as they were packed: for every asset, in order, its name (cut
    to 31 bytes), its offset in the payload region, its size and its type
    tag, with no flag and no out-of-bounds warning. *)
Theorem verify_lists_written_bundle (config : bytes) (assets : list asset) :
  config <> [] -> len config < 2 ^ 32 -> len assets < 65536 ->
  payload_size assets < 2 ^ 32 -> types_fit assets = true ->
  exists file,
    bundle_of config assets = Some file /\
    verify_wisp_file file = Some (listing assets 0).
Proof.
  intros Hne Hc Hn Hsize Hty. eexists. split.
  - apply bundle_of_shape; assumption.
  - set (es := fst (collect_entries assets 0)).
    set (table := List.concat (map entry_record es)).
    set (payload := List.concat (map snd assets)).
    pose proof (len_nonneg assets) as Hn0. pose proof (len_nonneg config) as Hc0.
    pose proof (payload_size_nonneg assets) as Hp0.
    assert (Hmagic : len (pack_s 4 MAGIC) = 4) by reflexivity.
    assert (Hver : len (le_bytes 2 256) = 2) by reflexivity.
    assert (Hcnt : len (le_bytes 2 (len assets)) = 2)
      by (unfold len at 1; now rewrite le_bytes_length).
    assert (Hcfg : len (le_bytes 4 (len config)) = 4)
      by (unfold len at 1; now rewrite le_bytes_length).
    assert (Htable : len table = 48 * len assets).
    { unfold table. rewrite records_length. unfold es, len.
      now rewrite collect_entries_length. }
    assert (Hpayload : len payload = payload_size assets)
      by apply payload_size_concat.
    set (file := header_record (len assets) (len config) ++ config ++ table ++ payload).
    assert (Hfile : len file = 12 + len config + 48 * len assets + payload_size assets).
    { unfold file, header_record. rewrite !len_app. lia. }
    assert (E1 : slice file 0 4 = pack_s 4 MAGIC).
    { unfold file, header_record. rewrite <- !app_assoc.
      apply (slice_at [] (pack_s 4 MAGIC)); [reflexivity | lia]. }
    assert (E2 : slice file 6 8 = le_bytes 2 (len assets)).
    { unfold file, header_record. rewrite <- !app_assoc.
      rewrite (app_assoc (pack_s 4 MAGIC)).
      apply slice_at; rewrite ?len_app; lia. }
    assert (E3 : slice file 8 12 = le_bytes 4 (len config)).
    { unfold file, header_record. rewrite <- !app_assoc.
      rewrite (app_assoc (pack_s 4 MAGIC)),
        (app_assoc (pack_s 4 MAGIC ++ le_bytes 2 256)).
      apply slice_at; rewrite ?len_app; lia. }
    unfold verify_wisp_file.
    replace (len file <? 12) with false by (symmetry; apply Z.ltb_ge; lia).
    rewrite E2, E3, E1. unfold unpack_H, unpack_I.
    rewrite !unpack_le_bytes by lia. cbn [bind].
    change (bytes_eqb (pack_s 4 MAGIC) (ascii_bytes "WISP")) with true.
    cbn [negb].
    replace (len file <? 12 + len config + len assets * 48) with false
      by (symmetry; apply Z.ltb_ge; pose proof (payload_size_nonneg assets); lia).
    unfold range.
    replace (Z.to_nat (len assets)) with (List.length assets)
      by (unfold len; lia).
    apply (scan_listing file payload _ _ assets
             (header_record (len assets) (len config) ++ config) 0 0%nat);
      try lia; try assumption.
    + unfold header_record. rewrite !len_app. lia.
    + unfold file. rewrite <- !app_assoc. reflexivity.
Qed.

Lemma verify_lists_written_bundle_witness :
  exists file,
    bundle_of four_byte_config dup_assets = Some file /\
    verify_wisp_file file = Some (listing dup_assets 0).
Proof.
  apply (verify_lists_written_bundle four_byte_config dup_assets);
    solve [discriminate | reflexivity].
Defined.

End BundleLayoutFacts.

Module VerifierFacts.
Import WispVerifier BundleLayout Samples ByteFacts.

Lemma find_asset_none (data asset_name : bytes) (hs ds : Z) :
  forall todo i0,
    (forall j, i0 <= j < i0 + Z.of_nat todo ->
       exists name, entry_name data hs j = Some name /\ name <> asset_name) ->
    find_asset data asset_name hs ds todo i0 = NotFound.
Proof.
  induction todo as [|todo IH]; intros i0 Hall; [reflexivity|].
  cbn [find_asset].
  destruct (Hall i0) as (name & Hn & Hdiff); [lia|].
  rewrite Hn, (bytes_eqb_neq _ _ Hdiff). apply IH.
  intros j Hj. apply Hall. lia.
Qed.

Lemma find_asset_undecodable (data asset_name : bytes) (hs ds : Z) :
  forall todo i0 i,
    i0 <= i < i0 + Z.of_nat todo ->
    (forall j, i0 <= j < i ->
       exists name, entry_name data hs j = Some name /\ name <> asset_name) ->
    entry_name data hs i = None ->
    find_asset data asset_name hs ds todo i0 = Failed.
Proof.
  induction todo as [|todo IH]; intros i0 i Hi Hbefore Hname; [lia|].
  cbn [find_asset].
  destruct (Z.eq_dec i0 i) as [->|Hne].
  - now rewrite Hname.
  - destruct (Hbefore i0) as (name & Hn & Hdiff); [lia|].
    rewrite Hn, (bytes_eqb_neq _ _ Hdiff).
    apply (IH (i0 + 1) i); [lia | | exact Hname].
    intros j Hj. apply Hbefore. lia.
Qed.

(** X4. A name that no entry of the table carries is reported as not
    found: when every entry name decodes and differs from the requested
    one, [extract_asset] writes nothing and returns False. *)
Theorem extract_unknown_name (data asset_name : bytes) (entry_count : Z) :
  bytes_eqb (slice data 0 4) (ascii_bytes "WISP") = true ->
  unpack_H (slice data 6 8) = Some entry_count ->
  (forall j, 0 <= j < entry_count ->
     exists name, entry_name data 16 j = Some name /\ name <> asset_name) ->
  extract_asset data asset_name = NotFound.
Proof.
  intros Hmagic Hcount Hall. unfold extract_asset.
  rewrite Hmagic, Hcount. cbn [negb].
  apply find_asset_none. intros j Hj. apply Hall. lia.
Qed.

Lemma extract_unknown_name_witness :
  extract_asset dup_file (ascii_bytes "missing") = NotFound.
Proof.
  apply (extract_unknown_name dup_file (ascii_bytes "missing") 3).
  - vm_compute. reflexivity.
  - vm_compute. reflexivity.
  - intros j Hj.
    assert (Hcases : j = 0 \/ j = 1 \/ j = 2) by lia.
    destruct Hcases as [-> | [-> | ->]];
      eexists; (split; [vm_compute; reflexivity | discriminate]).
Defined.

(** X5. A name field that is not well-formed UTF-8 stops the scan with an
    exception: if the entries before it decode and do not match, the
    extraction fails whatever name was requested, also for assets that
    come later in the table. *)
Theorem extract_fails_on_undecodable_name
    (data asset_name : bytes) (entry_count i : Z) :
  bytes_eqb (slice data 0 4) (ascii_bytes "WISP") = true ->
  unpack_H (slice data 6 8) = Some entry_count ->
  0 <= i < entry_count ->
  (forall j, 0 <= j < i ->
     exists name, entry_name data 16 j = Some name /\ name <> asset_name) ->
  entry_name data 16 i = None ->
  extract_asset data asset_name = Failed.
Proof.
  intros Hmagic Hcount Hi Hbefore Hname. unfold extract_asset.
  rewrite Hmagic, Hcount. cbn [negb].
  apply (find_asset_undecodable data asset_name 16 _ _ 0 i); try assumption.
  lia.
Qed.

Lemma extract_fails_on_undecodable_name_witness :
  extract_asset split_name_file (ascii_bytes "b") = Failed.
Proof.
  apply (extract_fails_on_undecodable_name split_name_file (ascii_bytes "b") 2 0).
  - vm_compute. reflexivity.
  - vm_compute. reflexivity.
  - lia.
  - intros j Hj. lia.
  - vm_compute. reflexivity.
Defined.

Lemma find_asset_found (data asset_name : bytes) (hs ds : Z) (asset_data : bytes) :
  forall todo i0 i,
    i0 <= i < i0 + Z.of_nat todo ->
    (forall j, i0 <= j < i ->
       exists name, entry_name data hs j = Some name /\ name <> asset_name) ->
    entry_name data hs i = Some asset_name ->
    entry_payload data hs ds i = Some asset_data ->
    find_asset data asset_name hs ds todo i0 = Extracted asset_data.
Proof.
  induction todo as [|todo IH]; intros i0 i Hi Hbefore Hname Hpay; [lia|].
  cbn [find_asset].
  destruct (Z.eq_dec i0 i) as [->|Hne].
  - rewrite Hname, (proj2 (bytes_eqb_eq _ _) eq_refl), Hpay. reflexivity.
  - destruct (Hbefore i0) as (name & Hn & Hdiff); [lia|].
    rewrite Hn, (bytes_eqb_neq _ _ Hdiff).
    apply (IH (i0 + 1) i); [lia | | exact Hname | exact Hpay].
    intros j Hj. apply Hbefore. lia.
Qed.

Lemma slice_In {A : Type} (l : list A) (a b : Z) (x : A) :
  In x (slice l a b) -> In x l.
Proof.
  unfold slice. intros H.
  rewrite <- (firstn_skipn (Z.to_nat a) l). apply in_or_app. right.
  rewrite <- (firstn_skipn (Z.to_nat (b - a)) (skipn (Z.to_nat a) l)).
  apply in_or_app. now left.
Qed.

Lemma le_value_nonneg (b : bytes) :
  (forall x, In x b -> 0 <= x) -> 0 <= le_value b.
Proof.
  induction b as [|x b IH]; intros H; cbn [le_value fold_right]; [lia|].
  assert (0 <= x) by (apply H; now left).
  assert (0 <= le_value b) by (apply IH; intros y Hy; apply H; now right).
  unfold le_value in *. lia.
Qed.

(** A field of four bytes that lies within the file unpacks to a
    non-negative number. *)
Lemma unpack_I_field (data : bytes) (a : Z) :
  forallb (between 0 255) data = true ->
  0 <= a -> a + 4 <= len data ->
  exists v, unpack_I (slice data a (a + 4)) = Some v /\ 0 <= v.
Proof.
  intros Hbytes Ha Hlen.
  pose proof (slice_length data a (a + 4) Ha ltac:(lia)) as Hs.
  exists (le_value (slice data a (a + 4))). split.
  - unfold unpack_I, unpack_uint.
    replace (List.length (slice data a (a + 4))) with 4%nat
      by (unfold len in *; lia).
    reflexivity.
  - apply le_value_nonneg. intros x Hx. apply slice_In in Hx.
    rewrite forallb_forall in Hbytes. specialize (Hbytes x Hx).
    unfold between in Hbytes. apply andb_true_iff in Hbytes as [H0 _].
    now apply Z.leb_le in H0.
Qed.

(** X6. [extract_asset] does not check the bounds of the entry it
    extracts: it writes the slice of the file that starts at
    16 + 48 * entry_count + offset and has the recorded size, clipped to
    the end of the file.  An entry that points beyond the file so yields
    fewer bytes than its size (possibly none), without an error. *)
Theorem extracted_payload_is_clipped
    (data asset_name : bytes) (entry_count i : Z) :
  forallb (between 0 255) data = true ->
  bytes_eqb (slice data 0 4) (ascii_bytes "WISP") = true ->
  unpack_H (slice data 6 8) = Some entry_count ->
  0 <= i < entry_count ->
  16 + i * 48 + 40 <= len data ->
  (forall j, 0 <= j < i ->
     exists name, entry_name data 16 j = Some name /\ name <> asset_name) ->
  entry_name data 16 i = Some asset_name ->
  exists offset size,
    unpack_I (slice data (16 + i * 48 + 32) (16 + i * 48 + 36)) = Some offset /\
    unpack_I (slice data (16 + i * 48 + 36) (16 + i * 48 + 40)) = Some size /\
    let asset_start := 16 + entry_count * 48 + offset in
    extract_asset data asset_name
    = Extracted (slice data asset_start (asset_start + size)) /\
    len (slice data asset_start (asset_start + size))
    = Z.min size (Z.max 0 (len data - asset_start)).
Proof.
  intros Hbytes Hmagic Hcount Hi Hlen Hbefore Hname.
  destruct (unpack_I_field data (16 + i * 48 + 32) Hbytes) as (offset & Ho & Ho0);
    [lia | lia |].
  destruct (unpack_I_field data (16 + i * 48 + 36) Hbytes) as (size & Hs & Hs0);
    [lia | lia |].
  replace (16 + i * 48 + 32 + 4) with (16 + i * 48 + 36) in Ho by lia.
  replace (16 + i * 48 + 36 + 4) with (16 + i * 48 + 40) in Hs by lia.
  exists offset, size. split; [exact Ho|]. split; [exact Hs|]. cbv zeta. split.
  - unfold extract_asset. rewrite Hmagic, Hcount. cbn [negb].
    apply (find_asset_found data asset_name 16 _ _ _ 0 i);
      [lia | exact Hbefore | exact Hname |].
    unfold entry_payload. rewrite Ho, Hs. reflexivity.
  - rewrite slice_length by lia. f_equal. lia.
Qed.

Lemma extracted_payload_is_clipped_witness :
  exists offset size,
    unpack_I (slice cut_file (16 + 0 * 48 + 32) (16 + 0 * 48 + 36)) = Some offset /\
    unpack_I (slice cut_file (16 + 0 * 48 + 36) (16 + 0 * 48 + 40)) = Some size /\
    let asset_start := 16 + 1 * 48 + offset in
    extract_asset cut_file (ascii_bytes "a")
    = Extracted (slice cut_file asset_start (asset_start + size)) /\
    len (slice cut_file asset_start (asset_start + size))
    = Z.min size (Z.max 0 (len cut_file - asset_start)).
Proof.
  apply (extracted_payload_is_clipped cut_file (ascii_bytes "a") 1 0).
  - vm_compute. reflexivity.
  - vm_compute. reflexivity.
  - vm_compute. reflexivity.
  - lia.
  - vm_compute. discriminate.
  - intros j Hj. lia.
  - vm_compute. reflexivity.
Defined.

(** The entry of the cut file records five bytes; three are left in the
    file and three are extracted. *)
Example cut_file_extraction :
  unpack_I (slice cut_file 52 56) = Some 5 /\
  len cut_file = 67 /\
  extract_asset cut_file (ascii_bytes "a") = Extracted [1; 2; 3].
Proof. vm_compute. repeat split; reflexivity. Qed.

End VerifierFacts.

Module SpriteFileFacts.
Import Numpy PngToSpr SpriteFile DepthRle Samples ByteFacts.

Lemma first_transparent_spec (colors : list Z) :
  forall i0,
    match first_transparent colors i0 with
    | Some k =>
        i0 <= k /\ index colors (k - i0) = Some 4096 /\
        forall j, 0 <= j < k - i0 -> index colors j <> Some 4096
    | None => forall j, index colors j <> Some 4096
    end.
Proof.
  induction colors as [|c rest IH]; intros i0; cbn [first_transparent].
  - intros j. unfold index. destruct (j <? 0); [discriminate|].
    destruct (Z.to_nat j); discriminate.
  - destruct (c =? 4096) eqn:E.
    + apply Z.eqb_eq in E. subst c. split; [lia|]. split.
      * replace (i0 - i0) with 0 by lia. reflexivity.
      * intros j Hj. lia.
    + apply Z.eqb_neq in E. specialize (IH (i0 + 1)).
      assert (Hshift : forall j, 0 < j -> index (c :: rest) j = index rest (j - 1)).
      { intros j Hj. unfold index.
        destruct (j <? 0) eqn:E1; [apply Z.ltb_lt in E1; lia|].
        destruct (j - 1 <? 0) eqn:E2; [apply Z.ltb_lt in E2; lia|].
        replace (Z.to_nat j) with (S (Z.to_nat (j - 1))) by lia. reflexivity. }
      assert (Hzero : index (c :: rest) 0 <> Some 4096)
        by (cbn; congruence).
      destruct (first_transparent rest (i0 + 1)) as [k|].
      * destruct IH as (Hk & Hat & Hbefore). split; [lia|]. split.
        -- rewrite Hshift by lia. replace (k - i0 - 1) with (k - (i0 + 1)) by lia.
           exact Hat.
        -- intros j Hj. destruct (Z.eq_dec j 0) as [->|Hj0]; [exact Hzero|].
           rewrite Hshift by lia. apply Hbefore. lia.
      * intros j. destruct (Z_lt_le_dec j 0) as [Hneg|Hpos].
        -- unfold index. rewrite (proj2 (Z.ltb_lt _ _) Hneg). discriminate.
        -- destruct (Z.eq_dec j 0) as [->|Hj0]; [exact Hzero|].
           rewrite Hshift by lia. apply IH.
Qed.

(** X7. A pixel with alpha at most 127 is mapped to the first index of
    the table that holds the transparent code 0x1000; when the table has
    no such entry, or no table is loaded, it is mapped to index 0. *)
Theorem transparent_pixel_index (np : promotion) (r g b a : Z) :
  a <= 127 ->
  palette_index np None (r, g, b, a) = 0 /\
  forall w,
    let i := palette_index np (Some w) (r, g, b, a) in
    ((exists j, index (w_colors w) j = Some 4096) ->
       index (w_colors w) i = Some 4096 /\
       forall j, 0 <= j < i -> index (w_colors w) j <> Some 4096) /\
    ((forall j, index (w_colors w) j <> Some 4096) -> i = 0).
Proof.
  intros Ha. unfold palette_index.
  rewrite (proj2 (Z.leb_le _ _) Ha). split; [reflexivity|].
  intros w. cbv zeta. unfold find_closest_transparent_index.
  pose proof (first_transparent_spec (w_colors w) 0) as H.
  destruct (first_transparent (w_colors w) 0) as [k|].
  - destruct H as (Hk & Hat & Hbefore). rewrite Z.sub_0_r in *. split.
    + intros _. split; [exact Hat | exact Hbefore].
    + intros Hnone. exfalso. exact (Hnone k Hat).
  - split.
    + intros [j Hj]. exfalso. exact (H j Hj).
    + reflexivity.
Qed.

Lemma transparent_pixel_index_witness :
  palette_index weak_scalar None (0, 255, 0, 64) = 0 /\
  forall w,
    let i := palette_index weak_scalar (Some w) (0, 255, 0, 64) in
    ((exists j, index (w_colors w) j = Some 4096) ->
       index (w_colors w) i = Some 4096 /\
       forall j, 0 <= j < i -> index (w_colors w) j <> Some 4096) /\
    ((forall j, index (w_colors w) j <> Some 4096) -> i = 0).
Proof. apply (transparent_pixel_index weak_scalar 0 255 0 64). lia. Defined.

Lemma closest_loop_all_magic (np : promotion) (colors : list Z) :
  forall i target best_index best_distance,
    forallb is_magic colors = true ->
    closest_loop np colors i target best_index best_distance = best_index.
Proof.
  induction colors as [|c rest IH]; intros i target bi bd H; [reflexivity|].
  cbn [forallb] in H. apply andb_true_iff in H as [Hc Hrest].
  cbn [closest_loop]. rewrite Hc. now apply IH.
Qed.

(** X8. Without a usable colour every visible pixel falls back to index
    0: so it is when no table is loaded and when every entry of the table
    is a magic code (0x1000..0x1111). *)
Theorem visible_pixel_fallback (np : promotion) (WLUT_DATA : option wlut)
    (r g b a : Z) :
  127 < a ->
  match WLUT_DATA with
  | None => True
  | Some w => forallb is_magic (w_colors w) = true
  end ->
  palette_index np WLUT_DATA (r, g, b, a) = 0.
Proof.
  intros Ha Hw. unfold palette_index.
  rewrite (proj2 (Z.leb_gt _ _) Ha).
  destruct WLUT_DATA as [w|]; [|reflexivity].
  unfold find_closest_color_index. now apply closest_loop_all_magic.
Qed.

Lemma visible_pixel_fallback_witness :
  palette_index weak_scalar
    (Some {| w_width := 0; w_height := 0;
             w_colors := [4096; 4097; 4098; 4099; 4100]; w_count := 5 |})
    (255, 0, 0, 255) = 0.
Proof.
  apply (visible_pixel_fallback weak_scalar
           (Some {| w_width := 0; w_height := 0;
                    w_colors := [4096; 4097; 4098; 4099; 4100]; w_count := 5 |})
           255 0 0 255).
  - lia.
  - reflexivity.
Defined.

(** The depth values of the runs are depth values of the samples. *)
Lemma rle_loop_depths (P : Z -> Prop) (rest : list Z) :
  forall cur n acc,
    Forall P rest -> P cur -> Forall (fun r => P (fst r)) acc ->
    Forall (fun r => P (fst r)) (rle_loop rest cur n acc).
Proof.
  induction rest as [|d rest IH]; intros cur n acc Hrest Hcur Hacc;
    cbn [rle_loop].
  - apply Forall_app. split; [exact Hacc|]. constructor; [exact Hcur | constructor].
  - inversion Hrest as [|? ? Hd Hrest']; subst.
    destruct ((d =? cur) && (n <? 65535)).
    + now apply IH.
    + apply IH; [exact Hrest' | exact Hd |].
      apply Forall_app. split; [exact Hacc|].
      constructor; [exact Hcur | constructor].
Qed.

Lemma len_le_bytes (n : nat) (v : Z) : len (le_bytes n v) = Z.of_nat n.
Proof. unfold len. now rewrite le_bytes_length. Qed.

Lemma pack_values_length (sizes : list nat) :
  forall values b,
    pack_values sizes values = Some b ->
    List.length b = fold_right Nat.add 0%nat sizes.
Proof.
  induction sizes as [|n sizes IH]; intros [|v values] b; cbn [pack_values];
    try discriminate.
  - intros [= <-]. reflexivity.
  - intros H. apply bind_Some in H as (x & Hx & H).
    apply bind_Some in H as (bs & Hbs & [= <-]).
    apply pack_uint_inv in Hx as [-> _].
    rewrite length_app, le_bytes_length, (IH _ _ Hbs). reflexivity.
Qed.

Lemma pack_runs_fit (runs : list (Z * Z)) :
  Forall (fun r => 0 <= fst r <= 255) runs ->
  run_lengths_in_range runs = true ->
  exists b, pack_runs runs = Some b /\ len b = 3 * len runs.
Proof.
  unfold pack_runs, run_lengths_in_range.
  induction runs as [|[d n] runs IH]; intros Hd Hn.
  - exists []. split; reflexivity.
  - inversion Hd as [|? ? Hd0 Hd']; subst. cbn [fst] in Hd0.
    cbn [forallb snd] in Hn. apply andb_true_iff in Hn as [Hn0 Hn'].
    apply andb_true_iff in Hn0 as [Hn1 Hn2]. apply Z.leb_le in Hn1, Hn2.
    destruct (IH Hd' Hn') as (b & Hb & Hlen).
    apply bind_Some in Hb as (chunks & Hchunks & [= <-]).
    cbn [mapM fst snd]. unfold struct_pack at 1.
    change (format_sizes (list_ascii_of_string "BH") None) with [1; 2]%nat.
    cbn [pack_values].
    rewrite (pack_uint_Some 1 d) by (cbn; lia).
    rewrite (pack_uint_Some 2 n) by (cbn; lia).
    cbn [bind]. rewrite Hchunks. cbn [bind].
    eexists. split; [reflexivity|].
    cbn [List.concat]. rewrite !len_app, Hlen, len_cons, !len_le_bytes, len_nil. lia.
Qed.

(** X9. The depth channel of samples in 0..255 is always written: the
    run-length cap of 65535 keeps every run within the 16-bit field of
    '<BH', so packing the runs never raises, and the depth data takes
    three bytes per run. *)
Theorem depth_runs_always_pack (depth_data : list Z) :
  depth_data <> [] ->
  Forall (fun d => 0 <= d <= 255) depth_data ->
  exists runs b,
    rle_encode depth_data = Some runs /\
    pack_runs runs = Some b /\
    len b = 3 * len runs.
Proof.
  intros Hne Hd. destruct depth_data as [|d0 rest]; [congruence|].
  inversion Hd as [|? ? Hd0 Hrest]; subst.
  exists (rle_loop rest d0 1 []).
  destruct (DepthRleFacts.rle_loop_capped rest d0 1 []) as [_ Hrange];
    [lia | reflexivity | reflexivity |].
  destruct (pack_runs_fit (rle_loop rest d0 1 [])) as (b & Hb & Hlen);
    [|exact Hrange|].
  - apply (rle_loop_depths (fun d => 0 <= d <= 255)); [exact Hrest | exact Hd0 | constructor].
  - exists b. split; [reflexivity|]. split; assumption.
Qed.

Lemma depth_runs_always_pack_witness :
  exists runs b,
    rle_encode [6; 6; 6; 4; 4; 7] = Some runs /\
    pack_runs runs = Some b /\
    len b = 3 * len runs.
Proof.
  apply (depth_runs_always_pack [6; 6; 6; 4; 4; 7]).
  - discriminate.
  - repeat constructor; lia.
Defined.

Lemma color_data_length (np : promotion) (WLUT_DATA : option wlut)
    (rows : list (list rgba)) :
  len (color_data np WLUT_DATA rows) = len (List.concat rows).
Proof.
  unfold color_data. induction rows as [|row rows IH]; [reflexivity|].
  cbn [flat_map List.concat]. rewrite !len_app, IH. unfold len.
  now rewrite length_map.
Qed.

(** X10. A sprite file that [compile_png_to_spr] writes holds a 20-byte
    header, one byte per pixel and three bytes per depth run; and it is
    only written when every palette index is below 256: a pixel matched
    to a higher index of a large table makes the compilation fail. *)
Theorem sprite_file_layout (np : promotion) (WLUT_DATA : option wlut)
    (width height : Z) (rows : list (list rgba)) (depth_data : list Z)
    (palette_id : Z) (file : bytes) :
  compile_png_to_spr np WLUT_DATA width height rows depth_data palette_id
  = Some file ->
  exists runs,
    rle_encode depth_data = Some runs /\
    len file = 20 + len (List.concat rows) + 3 * len runs /\
    Forall (fun c => 0 <= c <= 255) (color_data np WLUT_DATA rows).
Proof.
  intros H. unfold compile_png_to_spr in H.
  apply bind_Some in H as (runs & Hruns & H).
  apply bind_Some in H as (header & Hheader & H).
  apply bind_Some in H as (colors & Hcolors & H).
  apply bind_Some in H as (packed & Hpacked & [= <-]).
  exists runs. split; [exact Hruns|].
  unfold to_bytes in Hcolors.
  destruct (forallb (between 0 255) (color_data np WLUT_DATA rows)) eqn:Hall;
    [|discriminate].
  injection Hcolors as <-.
  assert (Hlen_header : len header = 20).
  { unfold struct_pack in Hheader. apply pack_values_length in Hheader.
    change (fold_right Nat.add 0%nat
              (format_sizes (list_ascii_of_string "HHIIBBBBHH") None))
      with 20%nat in Hheader.
    unfold len. rewrite Hheader. reflexivity. }
  assert (Hlen_runs : len packed = 3 * len runs).
  { clear -Hpacked. unfold pack_runs in Hpacked.
    apply bind_Some in Hpacked as (chunks & Hchunks & [= <-]).
    revert chunks Hchunks. induction runs as [|r runs IH]; intros chunks Hchunks.
    - injection Hchunks as <-. reflexivity.
    - cbn [mapM] in Hchunks. apply bind_Some in Hchunks as (c & Hc & Hchunks).
      apply bind_Some in Hchunks as (cs & Hcs & [= <-]).
      cbn [List.concat]. rewrite len_app, (IH cs Hcs), len_cons.
      unfold struct_pack in Hc. apply pack_values_length in Hc.
      change (fold_right Nat.add 0%nat
                (format_sizes (list_ascii_of_string "BH") None)) with 3%nat in Hc.
      unfold len at 1. rewrite Hc. lia. }
  split.
  - rewrite !len_app, Hlen_header, Hlen_runs, color_data_length. lia.
  - apply Forall_forall. intros c Hc.
    rewrite forallb_forall in Hall. specialize (Hall c Hc).
    unfold between in Hall. apply andb_true_iff in Hall as [H0 H1].
    apply Z.leb_le in H0, H1. lia.
Qed.

Lemma sprite_file_layout_witness :
  exists runs,
    rle_encode [6; 6; 6; 6] = Some runs /\
    len [2; 0; 2; 0; 4; 0; 0; 0; 3; 0; 0; 0; 0; 0; 1; 1; 2; 0; 2; 0;
         2; 3; 1; 2; 6; 4; 0]
    = 20 + len (List.concat scenario_image) + 3 * len runs /\
    Forall (fun c => 0 <= c <= 255)
      (color_data weak_scalar (Some scenario_wlut) scenario_image).
Proof.
  apply (sprite_file_layout weak_scalar (Some scenario_wlut) 2 2 scenario_image
           [6; 6; 6; 6] 0).
  vm_compute. reflexivity.
Defined.

Lemma depth_value_value_based (v : Z) :
  0 <= v <= 255 ->
  depth_value value_based v = v * 12 / 255 /\ 0 <= v * 12 / 255 <= 12.
Proof.
  intros Hv. unfold depth_value. cbv zeta.
  assert (Hq : 0 <= v * 12 / 255 <= 12).
  { split; [apply Z.div_pos; lia|].
    apply Z.div_le_upper_bound; lia. }
  assert (B32 : 2 ^ 32 = 4294967296) by reflexivity.
  rewrite (SpriteFacts.arith_value_based (v * 12)) by lia.
  rewrite SpriteFacts.arith_value_based by lia.
  split; [reflexivity | exact Hq].
Qed.

Lemma depth_value_weak_scalar (v : Z) : depth_value weak_scalar v = 0.
Proof.
  unfold depth_value. cbv zeta. cbn [arith]. unfold wrap_uint8.
  pose proof (Z.mod_pos_bound (v * 12) 256 ltac:(lia)) as Hm.
  pose proof (Z.div_mod (v * 12) 256 ltac:(lia)) as Hd.
  assert (Hq : (v * 12) mod 256 / 255 = 0).
  { apply Z.div_small. lia. }
  rewrite Hq. reflexivity.
Qed.

(** X28. The depth samples of a sprite lie in 0..12 under either
    promotion rule.  A depth image of the size of the sprite is scaled
    sample by sample: to [v * 12 // 255] under the value-based casting of
    NumPy 1.x, but to 0 for every sample under NumPy 2, where [v * 12]
    wraps modulo 256 and is never 255. *)
Theorem depth_scaling (np : promotion) (width height : Z)
    (depth_img : option (Z * Z * list (list Z))) :
  match depth_img with
  | Some (_, _, depth_pixels) =>
      Forall (Forall (fun v => 0 <= v <= 255)) depth_pixels
  | None => True
  end ->
  Forall (fun d => 0 <= d <= 12) (depth_data np width height depth_img) /\
  forall depth_pixels,
    depth_img = Some (width, height, depth_pixels) ->
    depth_data np width height depth_img
    = map (fun v => match np with
                    | value_based => v * 12 / 255
                    | weak_scalar => 0
                    end)
          (List.concat depth_pixels).
Proof.
  intros Hpx.
  assert (Hflat : Forall (fun d => 0 <= d <= 12)
                    (repeat 6 (Z.to_nat (width * height)))).
  { apply Forall_forall. intros d Hd. apply repeat_spec in Hd. lia. }
  assert (Hscaled : forall depth_pixels,
             Forall (Forall (fun v => 0 <= v <= 255)) depth_pixels ->
             flat_map (map (depth_value np)) depth_pixels
             = map (fun v => match np with
                             | value_based => v * 12 / 255
                             | weak_scalar => 0
                             end) (List.concat depth_pixels) /\
             Forall (fun d => 0 <= d <= 12)
               (flat_map (map (depth_value np)) depth_pixels)).
  { induction 1 as [|row rows Hrow Hrows [IHe IHf]]; cbn [flat_map List.concat].
    - split; [reflexivity | constructor].
    - rewrite map_app, <- IHe. split.
      + f_equal. clear -Hrow. induction Hrow as [|v row Hv Hrow IH]; [reflexivity|].
        cbn [map]. rewrite IH. f_equal.
        destruct np; [exact (proj1 (depth_value_value_based v Hv))
                     | apply depth_value_weak_scalar].
      + apply Forall_app. split; [|exact IHf].
        clear -Hrow. induction Hrow as [|v row Hv Hrow IH]; [constructor|].
        cbn [map]. constructor; [|exact IH].
        destruct np.
        * destruct (depth_value_value_based v Hv) as [-> Hq]. exact Hq.
        * rewrite depth_value_weak_scalar. lia. }
  split.
  - unfold depth_data. destruct depth_img as [[[w h] depth_pixels]|]; [|exact Hflat].
    destruct ((w =? width) && (h =? height)); [|exact Hflat].
    exact (proj2 (Hscaled depth_pixels Hpx)).
  - intros depth_pixels ->. unfold depth_data.
    rewrite !Z.eqb_refl. cbn [andb].
    exact (proj1 (Hscaled depth_pixels Hpx)).
Qed.

Lemma depth_scaling_witness :
  Forall (fun d => 0 <= d <= 12)
    (depth_data weak_scalar 2 2 (Some (2, 2, [[0; 128]; [200; 255]]))) /\
  forall depth_pixels,
    Some (2, 2, [[0; 128]; [200; 255]]) = Some (2, 2, depth_pixels) ->
    depth_data weak_scalar 2 2 (Some (2, 2, [[0; 128]; [200; 255]]))
    = map (fun v => 0) (List.concat depth_pixels).
Proof.
  apply (depth_scaling weak_scalar 2 2 (Some (2, 2, [[0; 128]; [200; 255]]))).
  repeat constructor; lia.
Defined.

Example depth_of_four_samples :
  depth_data value_based 2 2 (Some (2, 2, [[0; 128]; [200; 255]])) = [0; 6; 9; 12] /\
  depth_data weak_scalar 2 2 (Some (2, 2, [[0; 128]; [200; 255]])) = [0; 0; 0; 0] /\
  depth_data weak_scalar 2 2 (Some (3, 2, [[0; 128; 1]; [200; 255; 1]])) = [6; 6; 6; 6].
Proof. vm_compute. repeat split; reflexivity. Qed.

End SpriteFileFacts.

Module WlutFacts.
Import PaletteConverter PngToSpr SpriteFile WlutBinary Samples ByteFacts.

Lemma struct_pack_H (v : Z) :
  0 <= v < 65536 -> struct_pack "H" [v] = Some (le_bytes 2 v).
Proof.
  intros H. unfold struct_pack.
  change (format_sizes (list_ascii_of_string "H") None) with [2%nat].
  cbn [pack_values]. rewrite pack_uint_Some by (cbn; lia).
  cbn [bind]. now rewrite app_nil_r.
Qed.

Lemma pack_colors (data : list Z) :
  Forall (fun c => 0 <= c < 65536) data ->
  mapM (fun color => struct_pack "H" [color]) data = Some (map (le_bytes 2) data).
Proof.
  induction 1 as [|c data Hc _ IH]; [reflexivity|].
  cbn [mapM map]. rewrite struct_pack_H by exact Hc. cbn [bind].
  rewrite IH. reflexivity.
Qed.

Lemma read_packed_colors (data : list Z) (rest : bytes) :
  Forall (fun c => 0 <= c < 65536) data ->
  read_colors (List.length data) (List.concat (map (le_bytes 2) data) ++ rest)
  = Some data.
Proof.
  induction 1 as [|c data Hc _ IH]; [reflexivity|].
  cbn [List.length read_colors map List.concat].
  assert (Hsplit : le_bytes 2 c
                   = [Z.land (Z.shiftr c (8 * Z.of_nat 0)) 255;
                      Z.land (Z.shiftr c (8 * Z.of_nat 1)) 255]) by reflexivity.
  rewrite <- app_assoc. rewrite Hsplit. cbn [app firstn skipn].
  rewrite <- Hsplit. unfold unpack_H. rewrite unpack_le_bytes by (cbn; lia).
  cbn [bind]. rewrite IH. reflexivity.
Qed.

(** X11. A palette table written by [generate_binary] is read back by
    [load_wlut] as it was: when the table has at most 65535 entries, each
    a 16-bit code, the binary has 16 + 2 * count bytes and loading it
    yields the same colours, their count, and the dimensions of the
    format. *)
Theorem wlut_roundtrip (data : list Z) (format_type : format) :
  len data < 65536 ->
  Forall (fun c => 0 <= c < 65536) data ->
  exists file,
    generate_binary data format_type = Some file /\
    len file = 16 + 2 * len data /\
    load_wlut file
    = Some {| w_width := fst (format_dims format_type);
              w_height := snd (format_dims format_type);
              w_colors := data;
              w_count := len data |}.
Proof.
  intros Hlen Hdata. pose proof (len_nonneg data) as H0.
  assert (Hcode : 0 <= format_code format_type < 2 ^ 32)
    by (destruct format_type; cbn; lia).
  assert (Hw : 0 <= fst (format_dims format_type) < 65536)
    by (destruct format_type; cbn; lia).
  assert (Hh : 0 <= snd (format_dims format_type) < 65536)
    by (destruct format_type; cbn; lia).
  assert (Hgen : generate_binary data format_type
                 = Some (ascii_bytes "WLUT"
                         ++ le_bytes 4 (format_code format_type)
                         ++ (le_bytes 2 (fst (format_dims format_type))
                             ++ le_bytes 2 (snd (format_dims format_type)))
                         ++ le_bytes 2 (len data) ++ le_bytes 2 0
                         ++ List.concat (map (le_bytes 2) data))).
  { unfold generate_binary.
    rewrite !struct_pack_H by lia.
    unfold struct_pack.
    change (format_sizes (list_ascii_of_string "I") None) with [4%nat].
    change (format_sizes (list_ascii_of_string "HH") None) with [2%nat; 2%nat].
    cbn [pack_values].
    rewrite (pack_uint_Some 4 (format_code format_type)) by exact Hcode.
    rewrite (pack_uint_Some 2 (fst (format_dims format_type))) by (cbn; lia).
    rewrite (pack_uint_Some 2 (snd (format_dims format_type))) by (cbn; lia).
    cbn [bind]. rewrite pack_colors by exact Hdata. cbn [bind].
    rewrite !app_nil_r. reflexivity. }
  eexists. split; [exact Hgen|]. split.
  - rewrite !len_app.
    assert (Hc : len (List.concat (map (le_bytes 2) data)) = 2 * len data).
    { clear. induction data as [|c data IH]; [reflexivity|].
      cbn [map List.concat].
      rewrite len_app, IH, len_cons, SpriteFileFacts.len_le_bytes. lia. }
    rewrite Hc, !SpriteFileFacts.len_le_bytes.
    change (len (ascii_bytes "WLUT")) with 4. lia.
  - set (code := format_code format_type) in *.
    set (w := fst (format_dims format_type)) in *.
    set (h := snd (format_dims format_type)) in *.
    set (colors := List.concat (map (le_bytes 2) data)).
    assert (E4 : forall v, le_bytes 4 v
                  = [Z.land (Z.shiftr v (8 * Z.of_nat 0)) 255;
                     Z.land (Z.shiftr v (8 * Z.of_nat 1)) 255;
                     Z.land (Z.shiftr v (8 * Z.of_nat 2)) 255;
                     Z.land (Z.shiftr v (8 * Z.of_nat 3)) 255]) by reflexivity.
    assert (E2 : forall v, le_bytes 2 v
                  = [Z.land (Z.shiftr v (8 * Z.of_nat 0)) 255;
                     Z.land (Z.shiftr v (8 * Z.of_nat 1)) 255]) by reflexivity.
    unfold load_wlut.
    assert (F1 : firstn 4 (skipn 4 (ascii_bytes "WLUT" ++ le_bytes 4 code
                   ++ (le_bytes 2 w ++ le_bytes 2 h)
                   ++ le_bytes 2 (len data) ++ le_bytes 2 0 ++ colors))
                 = le_bytes 4 code).
    { rewrite (E4 code). reflexivity. }
    assert (F2 : firstn 4 (skipn 8 (ascii_bytes "WLUT" ++ le_bytes 4 code
                   ++ (le_bytes 2 w ++ le_bytes 2 h)
                   ++ le_bytes 2 (len data) ++ le_bytes 2 0 ++ colors))
                 = le_bytes 2 w ++ le_bytes 2 h).
    { rewrite (E4 code), (E2 w), (E2 h). reflexivity. }
    assert (F3 : firstn 2 (skipn 12 (ascii_bytes "WLUT" ++ le_bytes 4 code
                   ++ (le_bytes 2 w ++ le_bytes 2 h)
                   ++ le_bytes 2 (len data) ++ le_bytes 2 0 ++ colors))
                 = le_bytes 2 (len data)).
    { rewrite (E4 code), (E2 w), (E2 h), (E2 (len data)). reflexivity. }
    assert (F4 : firstn 2 (skipn 14 (ascii_bytes "WLUT" ++ le_bytes 4 code
                   ++ (le_bytes 2 w ++ le_bytes 2 h)
                   ++ le_bytes 2 (len data) ++ le_bytes 2 0 ++ colors))
                 = le_bytes 2 0).
    { rewrite (E4 code), (E2 w), (E2 h), (E2 (len data)). reflexivity. }
    assert (F5 : skipn 16 (ascii_bytes "WLUT" ++ le_bytes 4 code
                   ++ (le_bytes 2 w ++ le_bytes 2 h)
                   ++ le_bytes 2 (len data) ++ le_bytes 2 0 ++ colors)
                 = colors).
    { rewrite (E4 code), (E2 w), (E2 h), (E2 (len data)). reflexivity. }
    assert (F0 : firstn 4 (ascii_bytes "WLUT" ++ le_bytes 4 code
                   ++ (le_bytes 2 w ++ le_bytes 2 h)
                   ++ le_bytes 2 (len data) ++ le_bytes 2 0 ++ colors)
                 = ascii_bytes "WLUT") by reflexivity.
    rewrite F0, F1, F2, F3, F4, F5.
    change (bytes_eqb (ascii_bytes "WLUT") (ascii_bytes "WLUT")) with true.
    cbn [negb]. unfold unpack_I, unpack_H.
    rewrite !unpack_le_bytes by (cbn; lia). cbn [bind].
    unfold unpack_HH. rewrite length_app, !le_bytes_length. cbn [Nat.add Nat.eqb].
    rewrite (E2 w) at 1 2. cbn [app firstn skipn]. rewrite <- (E2 w).
    rewrite !le_value_le_bytes by (cbn; lia). cbn [bind fst snd].
    replace (Z.to_nat (len data)) with (List.length data) by (unfold len; lia).
    rewrite <- (app_nil_r colors). unfold colors.
    rewrite read_packed_colors by exact Hdata. reflexivity.
Qed.

Lemma wlut_roundtrip_witness :
  exists file,
    generate_binary [63488; 31; 65535; 4096] PALETTE_16 = Some file /\
    len file = 16 + 2 * len [63488; 31; 65535; 4096] /\
    load_wlut file
    = Some {| w_width := fst (format_dims PALETTE_16);
              w_height := snd (format_dims PALETTE_16);
              w_colors := [63488; 31; 65535; 4096];
              w_count := len [63488; 31; 65535; 4096] |}.
Proof.
  apply (wlut_roundtrip [63488; 31; 65535; 4096] PALETTE_16).
  - reflexivity.
  - repeat constructor; lia.
Defined.

End WlutFacts.

Module LutFacts.
Import Numpy PaletteConverter WlutBinary Samples ByteFacts.

(** X12. On Python ints, as [convert_to_palette] passes them,
    [rgb888_to_rgb565] returns a 16-bit code made of the upper 5, 6 and 5
    bits of the channels, and a colour in 0..255 per channel gets the
    code 0x1000, the transparent sentinel, exactly when 16 <= r <= 23,
    g <= 3 and b <= 7.  On the uint8 samples that the LUT loops pass, the
    code is the same under the value-based casting of NumPy 1.x; under
    NumPy 2 it is the 8-bit value [((g / 4) mod 8) * 32 + b / 8]: the red
    channel and the upper bits of green are lost. *)
Theorem rgb565_code (r g b : Z) :
  (0 <= rgb888_to_rgb565 python_int r g b < 65536 /\
   rgb888_to_rgb565 python_int r g b
   = ((r / 8) mod 32) * 2048 + ((g / 4) mod 64) * 32 + (b / 8) mod 32) /\
  (0 <= r <= 255 -> 0 <= g <= 255 -> 0 <= b <= 255 ->
   rgb888_to_rgb565 python_int r g b = (r / 8) * 2048 + (g / 4) * 32 + b / 8 /\
   (rgb888_to_rgb565 python_int r g b = 4096
    <-> 16 <= r <= 23 /\ g <= 3 /\ b <= 7) /\
   rgb888_to_rgb565 (uint8_sample value_based) r g b
   = rgb888_to_rgb565 python_int r g b /\
   rgb888_to_rgb565 (uint8_sample weak_scalar) r g b
   = ((g / 4) mod 8) * 32 + b / 8 /\
   0 <= rgb888_to_rgb565 (uint8_sample weak_scalar) r g b < 256).
Proof.
  rewrite SpriteFacts.code_python_int.
  assert (HR : 0 <= (r / 8) mod 32 < 32) by (apply Z.mod_pos_bound; lia).
  assert (HG : 0 <= (g / 4) mod 64 < 64) by (apply Z.mod_pos_bound; lia).
  assert (HB : 0 <= (b / 8) mod 32 < 32) by (apply Z.mod_pos_bound; lia).
  split; [split; [lia | reflexivity]|].
  intros Hr Hg Hb.
  rewrite (SpriteFacts.code_value_based r g b Hr Hg Hb),
    (SpriteFacts.code_weak_scalar r g b Hr Hg Hb).
  assert (Er : r = 8 * (r / 8) + r mod 8) by (apply Z.div_mod; lia).
  assert (Eg : g = 4 * (g / 4) + g mod 4) by (apply Z.div_mod; lia).
  assert (Eb : b = 8 * (b / 8) + b mod 8) by (apply Z.div_mod; lia).
  assert (Mr : 0 <= r mod 8 < 8) by (apply Z.mod_pos_bound; lia).
  assert (Mg : 0 <= g mod 4 < 4) by (apply Z.mod_pos_bound; lia).
  assert (Mb : 0 <= b mod 8 < 8) by (apply Z.mod_pos_bound; lia).
  assert (M8 : 0 <= (g / 4) mod 8 < 8) by (apply Z.mod_pos_bound; lia).
  rewrite (Z.mod_small (r / 8) 32), (Z.mod_small (g / 4) 64),
    (Z.mod_small (b / 8) 32) by lia.
  split; [reflexivity|]. split; [lia|]. split; [reflexivity|].
  split; [reflexivity | lia].
Qed.

Lemma rgb565_code_witness :
  rgb888_to_rgb565 python_int 16 0 0 = (16 / 8) * 2048 + (0 / 4) * 32 + 0 / 8 /\
  (rgb888_to_rgb565 python_int 16 0 0 = 4096
   <-> 16 <= 16 <= 23 /\ 0 <= 3 /\ 0 <= 7) /\
  rgb888_to_rgb565 (uint8_sample value_based) 16 0 0
  = rgb888_to_rgb565 python_int 16 0 0 /\
  rgb888_to_rgb565 (uint8_sample weak_scalar) 16 0 0
  = ((0 / 4) mod 8) * 32 + 0 / 8 /\
  0 <= rgb888_to_rgb565 (uint8_sample weak_scalar) 16 0 0 < 256.
Proof.
  apply (proj2 (rgb565_code 16 0 0)); lia.
Defined.

Lemma range_In (n x : Z) : In x (range n) -> 0 <= x < n.
Proof.
  unfold range. intros H. apply in_map_iff in H as (k & <- & Hk).
  apply in_seq in Hk. lia.
Qed.

Lemma index_some {A : Type} (l : list A) (i : Z) :
  0 <= i < len l -> exists x, index l i = Some x /\ In x l.
Proof.
  unfold index, len. intros Hi.
  destruct (i <? 0) eqn:E; [apply Z.ltb_lt in E; lia|].
  destruct (nth_error l (Z.to_nat i)) as [x|] eqn:Ex.
  - exists x. split; [reflexivity|]. eapply nth_error_In. exact Ex.
  - apply nth_error_None in Ex. lia.
Qed.

Lemma index_map {A B : Type} (g : A -> B) (l : list A) (i : Z) :
  index (map g l) i = option_map g (index l i).
Proof.
  unfold index. destruct (i <? 0); [reflexivity|]. apply nth_error_map.
Qed.

Lemma index_range (n k : Z) : 0 <= k < n -> index (range n) k = Some k.
Proof.
  intros Hk. unfold index, range.
  destruct (k <? 0) eqn:E; [apply Z.ltb_lt in E; lia|].
  rewrite nth_error_map, nth_error_seq.
  destruct (Nat.ltb_spec (Z.to_nat k) (Z.to_nat n)) as [_|Hge]; [|lia].
  cbn [option_map Nat.add]. f_equal. lia.
Qed.

Lemma mapM_all {A B : Type} (f : A -> option B) (l : list A) :
  (forall a, In a l -> exists b, f a = Some b) -> exists r, mapM f l = Some r.
Proof.
  induction l as [|a l IH]; intros H.
  - now exists [].
  - destruct (H a (or_introl eq_refl)) as [b Hb].
    destruct IH as [r Hr]; [intros x Hx; apply H; now right|].
    exists (b :: r). cbn [mapM]. now rewrite Hb, Hr.
Qed.

Lemma mapM_nth {A B : Type} (f : A -> option B) (l : list A) :
  forall r k a,
    mapM f l = Some r -> nth_error l k = Some a ->
    exists b, f a = Some b /\ nth_error r k = Some b.
Proof.
  induction l as [|x l IH]; intros r k a Hr Hk.
  - destruct k; discriminate.
  - cbn [mapM] in Hr. apply bind_Some in Hr as (b & Hb & Hr).
    apply bind_Some in Hr as (bs & Hbs & [= <-]).
    destruct k as [|k].
    + injection Hk as <-. now exists b.
    + cbn [nth_error] in Hk |- *. exact (IH bs k a Hbs Hk).
Qed.

Lemma mapM_index {A B : Type} (f : A -> option B) (l : list A) (r : list B)
    (k : Z) (a : A) :
  mapM f l = Some r -> index l k = Some a ->
  exists b, f a = Some b /\ index r k = Some b.
Proof.
  unfold index. destruct (k <? 0); [discriminate|]. apply mapM_nth.
Qed.

Lemma well_shaped_spec (n : Z) (img : image) :
  well_shaped n img = true ->
  len (i_rows img) = n /\
  forall row, In row (i_rows img) ->
    len row = n /\
    forall px, In px row -> List.length px = bands (i_mode img).
Proof.
  unfold well_shaped. intros H. apply andb_true_iff in H as [Hn Hrows].
  apply Z.eqb_eq in Hn. split; [exact Hn|].
  intros row Hrow. rewrite forallb_forall in Hrows.
  specialize (Hrows row Hrow). apply andb_true_iff in Hrows as [Hlen Hpx].
  apply Z.eqb_eq in Hlen. split; [exact Hlen|].
  intros px Hin. rewrite forallb_forall in Hpx.
  now apply Nat.eqb_eq, Hpx.
Qed.

Lemma lut_pixel_total (np : promotion) (m : mode) (px : pixel) :
  List.length px = bands m -> exists code, lut_pixel np m px = Some code.
Proof.
  destruct m; cbn [bands lut_pixel];
    destruct px as [|r [|g [|b [|a [|x px]]]]]; cbn [List.length];
    intros H; try discriminate H; eexists; reflexivity.
Qed.

Lemma lut_scan_eq (np : promotion) (n : Z) (img : image) :
  lut_scan np n img
  = mapM (fun p =>
            row <- index (i_rows img) (fst p) ;;
            px <- index row (snd p) ;;
            lut_pixel np (i_mode img) px)
         (lut_positions n).
Proof. reflexivity. Qed.

Lemma lut_table_eq (np : promotion) (n : Z) (img : image) :
  lut_table np n img
  = bind (lut_scan np n img)
         (fun lut_data => Some (lut_data ++ magic_colors, n, n)).
Proof. reflexivity. Qed.

(** The positions sampled for a 64 x 64 LUT are the first 4091 of the
    raster, in row-major order. *)
Lemma lut_positions_64_raster :
  lut_positions 64 = map (fun k => (k / 64, k mod 64)) (range 4091).
Proof. vm_compute. reflexivity. Qed.

Lemma raster_position (k : Z) :
  0 <= k < 4091 -> 0 <= k / 64 < 64 /\ 0 <= k mod 64 < 64.
Proof.
  intros Hk. split.
  - split; [apply Z.div_pos; lia | apply Z.div_lt_upper_bound; lia].
  - apply Z.mod_pos_bound. lia.
Qed.

(** X13. A 64 x 64 image whose pixels have the bands of its mode is
    converted to a table of 4096 entries: entry [k] below 4091 is what the
    pixel loop makes of the raster pixel in row [k / 64], column
    [k mod 64] (0x1000 for alpha at most 127, else the code that
    [rgb888_to_rgb565] computes from the uint8 samples under the
    promotion rules in force), and the entries 4091..4095 are the magic
    codes 0x1000..0x1004, so the last five pixels of the last row are
    never sampled. *)
Theorem lut_64x64_table (np : promotion) (resize : image -> Z -> Z -> image)
    (img : image) :
  i_size img = (64, 64) ->
  well_shaped 64 img = true ->
  exists data,
    convert_to_lut_64x64 np resize img = Some (data, 64, 64) /\
    len data = 4096 /\
    (forall k, 0 <= k < 4091 ->
       exists row px code,
         index (i_rows img) (k / 64) = Some row /\
         index row (k mod 64) = Some px /\
         lut_pixel np (i_mode img) px = Some code /\
         index data k = Some code) /\
    (forall k, 4091 <= k < 4096 -> index data k = Some (4096 + (k - 4091))).
Proof.
  intros Hsize Hshape.
  apply well_shaped_spec in Hshape as [Hrows Hrow].
  assert (Hscan : exists lut_data, lut_scan np 64 img = Some lut_data).
  { rewrite lut_scan_eq, lut_positions_64_raster. apply mapM_all.
    intros p Hp. apply in_map_iff in Hp as (k & <- & Hk).
    apply range_In in Hk. destruct (raster_position k Hk) as [Hy Hx].
    cbn [fst snd].
    destruct (index_some (i_rows img) (k / 64)) as (row & Erow & Irow); [lia|].
    destruct (Hrow row Irow) as [Hlen Hpx].
    destruct (index_some row (k mod 64)) as (px & Epx & Ipx); [lia|].
    destruct (lut_pixel_total np (i_mode img) px (Hpx px Ipx)) as [code Ecode].
    exists code. rewrite Erow. cbn [bind]. rewrite Epx. exact Ecode. }
  destruct Hscan as [lut_data Hscan].
  assert (Hlen : len lut_data = 4091).
  { rewrite (PaletteFacts.lut_scan_length _ _ _ _ Hscan), PaletteFacts.lut_positions_64.
    reflexivity. }
  exists (lut_data ++ magic_colors).
  split; [|split; [|split]].
  - rewrite PaletteFacts.convert_to_lut_64x64_eq, Hsize. cbn [fst snd].
    rewrite Z.eqb_refl. cbn [andb]. rewrite lut_table_eq, Hscan. reflexivity.
  - rewrite len_app, Hlen. reflexivity.
  - intros k Hk. rewrite lut_scan_eq, lut_positions_64_raster in Hscan.
    destruct (mapM_index _ _ _ k (k / 64, k mod 64) Hscan) as (code & Hcode & Hat).
    { rewrite index_map, index_range by exact Hk. reflexivity. }
    cbn [fst snd] in Hcode.
    apply bind_Some in Hcode as (row & Erow & Hcode).
    apply bind_Some in Hcode as (px & Epx & Ecode).
    exists row, px, code. repeat split; try assumption.
    rewrite index_prefix by lia. exact Hat.
  - intros k Hk. replace k with (len lut_data + (k - 4091)) at 1 by lia.
    rewrite index_app_skip by lia.
    assert (Hcases : k - 4091 = 0 \/ k - 4091 = 1 \/ k - 4091 = 2
                     \/ k - 4091 = 3 \/ k - 4091 = 4) by lia.
    destruct Hcases as [-> | [-> | [-> | [-> | ->]]]]; reflexivity.
Qed.


Lemma lut_64x64_table_witness :
  exists data,
    convert_to_lut_64x64 weak_scalar keep_size solid_lut_image
    = Some (data, 64, 64) /\
    len data = 4096 /\
    (forall k, 0 <= k < 4091 ->
       exists row px code,
         index (i_rows solid_lut_image) (k / 64) = Some row /\
         index row (k mod 64) = Some px /\
         lut_pixel weak_scalar (i_mode solid_lut_image) px = Some code /\
         index data k = Some code) /\
    (forall k, 4091 <= k < 4096 -> index data k = Some (4096 + (k - 4091))).
Proof.
  apply (lut_64x64_table weak_scalar keep_size solid_lut_image).
  - reflexivity.
  - vm_compute. reflexivity.
Defined.

(** The table of a solid red image holds the code of red, 0xF800, under
    NumPy 1.x and the code 0 under NumPy 2. *)
Example solid_red_lut :
  option_map (fun t => index (fst (fst t)) 0)
    (convert_to_lut_64x64 value_based keep_size solid_lut_image)
  = Some (Some 63488) /\
  option_map (fun t => index (fst (fst t)) 0)
    (convert_to_lut_64x64 weak_scalar keep_size solid_lut_image)
  = Some (Some 0).
Proof. vm_compute. split; reflexivity. Qed.

Lemma convert_to_palette_full_witness :
  exists data,
    convert_to_palette two_color_quantize wide_image 16 = Some data /\
    len data = 16.
Proof.
  apply (PaletteFacts.convert_to_palette_full two_color_quantize wide_image 16
           255 [0; 0; 0; 0; 255]).
  - lia.
  - reflexivity.
Defined.

(** X15. An image of at most 16 x 16 pixels, other than a 16 x 1 strip,
    cannot be converted in automatic mode: it is classified PALETTE_SMALL,
    for which the conversion has no branch ("Unsupported format"). *)
Theorem small_image_not_converted (np : promotion)
    (resize : image -> Z -> Z -> image) (quantize : image -> Z -> image)
    (img : image) :
  fst (i_size img) <= 16 -> snd (i_size img) <= 16 ->
  i_size img <> (16, 1) ->
  analyze_image img = PALETTE_SMALL /\
  convert np resize quantize (analyze_image img) img = None.
Proof.
  intros Hw Hh Hne.
  assert (E : analyze_image img = PALETTE_SMALL).
  { unfold analyze_image. destruct (i_size img) as [width height].
    cbn [fst snd] in *.
    destruct (width =? 64) eqn:E1; [apply Z.eqb_eq in E1; lia|].
    destruct (width =? 32) eqn:E2; [apply Z.eqb_eq in E2; lia|].
    destruct (width =? 256) eqn:E3; [apply Z.eqb_eq in E3; lia|].
    cbn [andb].
    destruct ((width =? 16) && (height =? 1)) eqn:E4.
    - apply andb_true_iff in E4 as [Ea Eb]. apply Z.eqb_eq in Ea, Eb.
      subst. congruence.
    - rewrite (proj2 (Z.leb_le _ _) Hw), (proj2 (Z.leb_le _ _) Hh). reflexivity. }
  split; [exact E|]. rewrite E. reflexivity.
Qed.

Lemma small_image_not_converted_witness :
  analyze_image small_image = PALETTE_SMALL /\
  convert weak_scalar keep_size two_color_quantize (analyze_image small_image)
    small_image
  = None.
Proof.
  apply (small_image_not_converted weak_scalar keep_size two_color_quantize
           small_image).
  - cbn. lia.
  - cbn. lia.
  - discriminate.
Defined.

End LutFacts.

Module RomFacts.
Import RomLayout Samples ByteFacts.

Lemma data_size_nonneg (l : list RomBuilder.asset) : 0 <= data_size l.
Proof.
  induction l as [|a l IH]; [discriminate|].
  change (data_size (a :: l)) with (len (RomBuilder.a_data a) + data_size l).
  pose proof (len_nonneg (RomBuilder.a_data a)). lia.
Qed.

Lemma build_entries_sizes (l : list RomBuilder.asset) :
  forall current_offset,
    0 <= current_offset -> current_offset + data_size l < 2 ^ 32 ->
    Forall (fun a => 0 <= RomBuilder.a_type a < 256
                     /\ 0 <= RomBuilder.a_flags a < 256) l ->
    exists table data,
      RomBuilder.build_entries l current_offset = Some (table, data) /\
      len table = 48 * len l /\ len data = data_size l.
Proof.
  induction l as [|a l IH]; intros off Hoff Hsize Hfit.
  - exists [], []. repeat split.
  - change (data_size (a :: l)) with (len (RomBuilder.a_data a) + data_size l) in Hsize.
    pose proof (len_nonneg (RomBuilder.a_data a)). pose proof (data_size_nonneg l).
    inversion Hfit as [|? ? [Ht Hf] Hfit']; subst.
    destruct (IH (off + len (RomBuilder.a_data a))) as (table & data & Hrest & Htable & Hdata);
      [lia | lia | exact Hfit' |].
    cbn [RomBuilder.build_entries]. unfold pack_I, pack_B.
    rewrite (pack_uint_Some 4 off) by lia.
    rewrite (pack_uint_Some 4 (len (RomBuilder.a_data a))) by lia.
    rewrite (pack_uint_Some 1 (RomBuilder.a_type a)) by exact Ht.
    rewrite (pack_uint_Some 1 (RomBuilder.a_flags a)) by exact Hf.
    cbn [bind]. rewrite Hrest. cbn [bind fst snd].
    eexists _, _. split; [reflexivity|]. split.
    + rewrite !len_app, Htable, len_cons.
      rewrite !SpriteFileFacts.len_le_bytes.
      unfold len at 1 2. rewrite BundleLayoutFacts.pack_s_length, repeat_length. lia.
    + rewrite len_app, Hdata.
      change (data_size (a :: l)) with (len (RomBuilder.a_data a) + data_size l).
      reflexivity.
Qed.

(** X16. The ROM builder class writes a container of
    16 + config size + 48 * asset count + total data size bytes, when the
    configuration is shorter than 65536 bytes, there are fewer than 65536
    assets, the data stays below 4 GiB and the tags and flags are bytes. *)
Theorem rom_size (self : RomBuilder.builder) :
  len (RomBuilder.config_data self) < 65536 ->
  len (RomBuilder.assets self) < 65536 ->
  data_size (RomBuilder.assets self) < 2 ^ 32 ->
  Forall (fun a => 0 <= RomBuilder.a_type a < 256
                   /\ 0 <= RomBuilder.a_flags a < 256) (RomBuilder.assets self) ->
  exists file,
    RomBuilder.build_rom self = Some file /\
    len file = 16 + len (RomBuilder.config_data self)
               + 48 * len (RomBuilder.assets self)
               + data_size (RomBuilder.assets self).
Proof.
  intros Hc Hn Hsize Hfit.
  pose proof (len_nonneg (RomBuilder.config_data self)).
  pose proof (len_nonneg (RomBuilder.assets self)).
  destruct (build_entries_sizes (RomBuilder.assets self) 0)
    as (table & data & Hentries & Htable & Hdata); [lia | lia | exact Hfit |].
  unfold RomBuilder.build_rom. rewrite Hentries. cbn [bind fst snd].
  unfold pack_I, pack_H.
  rewrite (pack_uint_Some 4 RomBuilder.MAGIC_WISP)
    by (unfold RomBuilder.MAGIC_WISP; change (2 ^ (8 * Z.of_nat 4)) with 4294967296; lia).
  rewrite (pack_uint_Some 4 1) by (cbn; lia).
  rewrite (pack_uint_Some 2 (len (RomBuilder.assets self))) by lia.
  rewrite (pack_uint_Some 2 (len (RomBuilder.config_data self))) by lia.
  rewrite (pack_uint_Some 4 0) by (cbn; lia).
  cbn [bind]. eexists. split; [reflexivity|].
  rewrite !len_app, Htable, Hdata, !SpriteFileFacts.len_le_bytes. lia.
Qed.

Lemma rom_size_witness :
  exists file,
    RomBuilder.build_rom two_asset_rom = Some file /\
    len file = 16 + len (RomBuilder.config_data two_asset_rom)
               + 48 * len (RomBuilder.assets two_asset_rom)
               + data_size (RomBuilder.assets two_asset_rom).
Proof.
  apply (rom_size two_asset_rom); try reflexivity.
  repeat constructor; cbn; lia.
Defined.

(** The container of the builder with a ten-byte configuration and two
    assets of three and two bytes has 16 + 10 + 96 + 5 bytes. *)
Example two_asset_rom_size :
  option_map len (RomBuilder.build_rom two_asset_rom) = Some 127 /\
  len (RomBuilder.config_data two_asset_rom) = 10 /\
  len (RomBuilder.assets two_asset_rom) = 2 /\
  data_size (RomBuilder.assets two_asset_rom) = 5.
Proof. vm_compute. repeat split; reflexivity. Qed.

(** X17. The ROM builder class cannot embed a configuration of 65536
    bytes or more: its size is packed into a 16-bit header field, so
    [build_rom] raises and no container is written. *)
Theorem rom_config_limit (self : RomBuilder.builder) :
  65536 <= len (RomBuilder.config_data self) ->
  RomBuilder.build_rom self = None.
Proof.
  intros Hc. unfold RomBuilder.build_rom.
  destruct (RomBuilder.build_entries (RomBuilder.assets self) 0) as [r|];
    [|reflexivity].
  cbn [bind]. unfold pack_I, pack_H.
  rewrite (pack_uint_Some 4 RomBuilder.MAGIC_WISP)
    by (unfold RomBuilder.MAGIC_WISP; change (2 ^ (8 * Z.of_nat 4)) with 4294967296; lia).
  rewrite (pack_uint_Some 4 1) by (cbn; lia). cbn [bind].
  destruct (pack_uint 2 (len (RomBuilder.assets self))); [|reflexivity].
  cbn [bind]. unfold pack_uint.
  replace (len (RomBuilder.config_data self) <? 2 ^ (8 * Z.of_nat 2)) with false
    by (symmetry; apply Z.ltb_ge; cbn; lia).
  rewrite andb_false_r. reflexivity.
Qed.

Lemma rom_config_limit_witness :
  RomBuilder.build_rom
    {| RomBuilder.assets := [];
       RomBuilder.config_data := repeat 32 (Z.to_nat 65536) |} = None.
Proof.
  apply (rom_config_limit
           {| RomBuilder.assets := [];
              RomBuilder.config_data := repeat 32 (Z.to_nat 65536) |}).
  cbn [RomBuilder.config_data]. unfold len. rewrite repeat_length. lia.
Defined.

End RomFacts.

Module PoolFacts.
Import RomBuilderV2 RomLayout Samples ByteFacts.

Lemma range_snoc (n : nat) : range (Z.of_nat (S n)) = range (Z.of_nat n) ++ [Z.of_nat n].
Proof.
  unfold range. rewrite !Nat2Z.id, seq_S, map_app. reflexivity.
Qed.

Lemma pool_get_absent (string_pool : pool) (text : bytes) :
  pool_get string_pool text = None -> ~ In text (map fst string_pool).
Proof.
  induction string_pool as [|[k v] rest IH]; cbn [pool_get map fst In].
  - intros _ [].
  - destruct (bytes_eqb k text) eqn:E; [discriminate|].
    intros Hrest [Hk|Hin].
    + subst k. rewrite (proj2 (bytes_eqb_eq text text) eq_refl) in E. discriminate.
    + exact (IH Hrest Hin).
Qed.

Lemma pool_get_kept (string_pool more : pool) (text : bytes) (offset : Z) :
  pool_get string_pool text = Some offset ->
  pool_get (string_pool ++ more) text = Some offset.
Proof.
  induction string_pool as [|[k v] rest IH]; cbn [pool_get app]; [discriminate|].
  destruct (bytes_eqb k text); [trivial | exact IH].
Qed.

(** X18. Interning keeps the pool in order: after [add_string] the text
    is in the pool under the offset returned, every text that was in the
    pool keeps its offset (nothing is removed or renumbered), and the
    offsets still count the texts 0, 1, 2, ... in insertion order with no
    text twice. *)
Theorem add_string_keeps_pool (text : bytes) (string_pool : pool) :
  pool_ok string_pool ->
  exists offset string_pool',
    add_string text string_pool = (Some offset, string_pool') /\
    pool_get string_pool' text = Some offset /\
    (forall t o, pool_get string_pool t = Some o ->
                 pool_get string_pool' t = Some o) /\
    pool_ok string_pool'.
Proof.
  intros [Hoffsets Hnodup].
  destruct (pool_get string_pool text) as [offset|] eqn:E.
  - exists offset, string_pool.
    rewrite (RomV2Facts.add_string_known _ _ _ E).
    repeat split; trivial.
  - exists (len string_pool), (string_pool ++ [(text, len string_pool)]).
    rewrite (RomV2Facts.add_string_new _ _ E).
    split; [reflexivity|]. split; [now apply RomV2Facts.pool_get_snoc|].
    split; [intros t o Ht; now apply pool_get_kept|].
    split.
    + rewrite map_app, Hoffsets. cbn [map snd].
      unfold len. rewrite length_app. cbn [List.length].
      replace (List.length string_pool + 1)%nat with (S (List.length string_pool)) by lia.
      now rewrite range_snoc.
    + rewrite map_app. cbn [map fst].
      apply NoDup_app; [exact Hnodup | repeat constructor; intros [] |].
      intros x Hx [<-|[]]. exact (pool_get_absent _ _ E Hx).
Qed.

Lemma add_string_keeps_pool_witness :
  exists offset string_pool',
    add_string (ascii_bytes "ef") potion_pool = (Some offset, string_pool') /\
    pool_get string_pool' (ascii_bytes "ef") = Some offset /\
    (forall t o, pool_get potion_pool t = Some o ->
                 pool_get string_pool' t = Some o) /\
    pool_ok string_pool'.
Proof.
  apply (add_string_keeps_pool (ascii_bytes "ef") potion_pool).
  split; [reflexivity|].
  repeat constructor; cbn; intuition discriminate.
Defined.

Lemma lor_shiftl_add (a b n : Z) :
  0 <= n -> 0 <= b < 2 ^ n -> Z.lor (Z.shiftl a n) b = a * 2 ^ n + b.
Proof.
  intros Hn Hb.
  assert (Hland : Z.land (Z.shiftl a n) b = 0).
  { apply Z.bits_inj'. intros k Hk. rewrite Z.land_spec, Z.bits_0.
    destruct (Z.lt_ge_cases k n) as [Hlt|Hge].
    - rewrite Z.shiftl_spec_low by exact Hlt. reflexivity.
    - destruct (Z.eq_dec b 0) as [->|Hb0].
      + rewrite Z.bits_0. apply andb_false_r.
      + rewrite (Z.bits_above_log2 b k); [apply andb_false_r | lia |].
        assert (Z.log2 b < n) by (apply Z.log2_lt_pow2; lia). lia. }
  rewrite <- Z.lxor_lor by exact Hland.
  rewrite <- Z.add_nocarry_lxor by exact Hland.
  rewrite Z.shiftl_mul_pow2 by exact Hn. reflexivity.
Qed.

(** X19. For a namespace and a category below 256 and an id below 65536
    the key is namespace * 2^24 + category * 2^16 + id, a 32-bit value
    from which the three parts are recovered, so distinct triples get
    distinct keys. *)
Theorem make_key_fields (namespace category id : Z) :
  0 <= namespace < 256 -> 0 <= category < 256 -> 0 <= id < 65536 ->
  let key := _make_key namespace category id in
  key = namespace * 2 ^ 24 + category * 2 ^ 16 + id /\
  0 <= key < 2 ^ 32 /\
  key / 2 ^ 24 = namespace /\
  (key / 2 ^ 16) mod 256 = category /\
  key mod 2 ^ 16 = id.
Proof.
  intros Hns Hcat Hid. cbv zeta. unfold _make_key.
  assert (E1 : Z.lor (Z.shiftl namespace 24) (Z.shiftl category 16)
               = namespace * 2 ^ 24 + category * 2 ^ 16).
  { rewrite Z.shiftl_mul_pow2 with (a := category) by lia.
    apply lor_shiftl_add; lia. }
  assert (E2 : Z.lor (Z.lor (Z.shiftl namespace 24) (Z.shiftl category 16)) id
               = namespace * 2 ^ 24 + category * 2 ^ 16 + id).
  { rewrite E1.
    transitivity (Z.lor (Z.shiftl (namespace * 2 ^ 8 + category) 16) id).
    - f_equal. rewrite Z.shiftl_mul_pow2 by lia. lia.
    - rewrite lor_shiftl_add by lia. lia. }
  rewrite E2.
  change (2 ^ 24) with 16777216. change (2 ^ 16) with 65536.
  change (2 ^ 32) with 4294967296.
  repeat split; try lia.
  - symmetry. apply (Z.div_unique _ _ _ (category * 65536 + id)); lia.
  - replace (namespace * 16777216 + category * 65536 + id)
      with ((namespace * 256 + category) * 65536 + id) by lia.
    rewrite Z.div_add_l by lia. rewrite (Z.div_small id) by lia.
    rewrite Z.add_0_r, Z.add_comm, Z.mod_add by lia. apply Z.mod_small. lia.
  - replace (namespace * 16777216 + category * 65536 + id)
      with (id + (namespace * 256 + category) * 65536) by lia.
    rewrite Z.mod_add by lia. apply Z.mod_small. lia.
Qed.

Lemma make_key_fields_witness :
  let key := _make_key 1 7 25 in
  key = 1 * 2 ^ 24 + 7 * 2 ^ 16 + 25 /\
  0 <= key < 2 ^ 32 /\
  key / 2 ^ 24 = 1 /\
  (key / 2 ^ 16) mod 256 = 7 /\
  key mod 2 ^ 16 = 25.
Proof. apply (make_key_fields 1 7 25); lia. Defined.

End PoolFacts.

Module ExtractFacts.
Import WispBuilder WispVerifier BundleLayout Samples ByteFacts BundleLayoutFacts.

Lemma collect_entries_app (l1 l2 : list asset) :
  forall offset,
    fst (collect_entries (l1 ++ l2) offset)
    = fst (collect_entries l1 offset)
      ++ fst (collect_entries l2 (offset + payload_size l1)).
Proof.
  induction l1 as [|[[p ty] d] l1 IH]; intros offset.
  - cbn [app collect_entries fst]. change (payload_size []) with 0.
    now rewrite Z.add_0_r.
  - cbn [app collect_entries]. specialize (IH (offset + len d)).
    rewrite payload_size_cons. cbn [snd].
    destruct (collect_entries (l1 ++ l2) (offset + len d)) as [es ps].
    destruct (collect_entries l1 (offset + len d)) as [es1 ps1].
    cbn [fst app] in *. rewrite IH.
    replace (offset + (len d + payload_size l1))
      with (offset + len d + payload_size l1) by lia.
    reflexivity.
Qed.

(** The place of the record and of the data of one asset in the file. *)
Lemma asset_place (config : bytes) (assets l1 l2 : list asset)
    (rel_path : bytes) (ty : Z) (data : bytes) :
  assets = l1 ++ (rel_path, ty, data) :: l2 ->
  let e := {| e_name := ljust0 32 (firstn 31 rel_path);
              e_offset := payload_size l1;
              e_size := len data;
              e_type := ty;
              e_flags := 0;
              e_reserved := [0; 0; 0; 0; 0; 0] |} in
  let file := header_record (len assets) (len config) ++ config
              ++ List.concat (map entry_record (fst (collect_entries assets 0)))
              ++ List.concat (map snd assets) in
  exists pre post before after,
    file = pre ++ entry_record e ++ post /\
    len pre = 12 + len config + len l1 * 48 /\
    file = before ++ data ++ after /\
    len before = 12 + len config + len assets * 48 + payload_size l1.
Proof.
  intros Hassets. cbv zeta.
  set (header := header_record (len assets) (len config)).
  assert (Hheader : len header = 12).
  { unfold header, header_record.
    rewrite !len_app, !SpriteFileFacts.len_le_bytes. reflexivity. }
  assert (Hes : fst (collect_entries assets 0)
                = fst (collect_entries l1 0)
                  ++ {| e_name := ljust0 32 (firstn 31 rel_path);
                        e_offset := payload_size l1;
                        e_size := len data;
                        e_type := ty;
                        e_flags := 0;
                        e_reserved := [0; 0; 0; 0; 0; 0] |}
                  :: fst (collect_entries l2 (payload_size l1 + len data))).
  { rewrite Hassets, collect_entries_app. f_equal.
    cbn [collect_entries]. rewrite Z.add_0_l.
    destruct (collect_entries l2 (payload_size l1 + len data)) as [es ps].
    reflexivity. }
  rewrite Hes, map_app, concat_app. cbn [map List.concat].
  assert (Hps : List.concat (map snd assets)
                = List.concat (map snd l1) ++ data ++ List.concat (map snd l2)).
  { rewrite Hassets, map_app, concat_app. reflexivity. }
  rewrite Hps.
  set (t1 := List.concat (map entry_record (fst (collect_entries l1 0)))).
  set (t2 := List.concat
               (map entry_record
                  (fst (collect_entries l2 (payload_size l1 + len data))))).
  set (r := entry_record _).
  exists (header ++ config ++ t1),
         (t2 ++ List.concat (map snd l1) ++ data ++ List.concat (map snd l2)),
         (header ++ config ++ (t1 ++ r ++ t2) ++ List.concat (map snd l1)),
         (List.concat (map snd l2)).
  subst t1 t2.
  split; [rewrite <- !app_assoc; reflexivity|]. split.
  - rewrite !len_app, Hheader, records_length.
    unfold len at 2. rewrite collect_entries_length. fold (len l1). lia.
  - split.
    + rewrite <- !app_assoc. reflexivity.
    + subst r. rewrite !len_app, Hheader, !records_length, payload_size_concat.
      rewrite entry_record_length.
      assert (Hn : len assets = len l1 + 1 + len l2)
        by (rewrite Hassets, len_app, len_cons; lia).
      assert (H1 : len (fst (collect_entries l1 0)) = len l1)
        by (unfold len; now rewrite collect_entries_length).
      assert (H2 : len (fst (collect_entries l2 (payload_size l1 + len data)))
                   = len l2)
        by (unfold len; now rewrite collect_entries_length).
      rewrite H1, H2, Hn. lia.
Qed.


Lemma header_slices (entry_count config_size : Z) (rest : bytes) :
  let file := header_record entry_count config_size ++ rest in
  slice file 0 4 = pack_s 4 MAGIC /\
  slice file 6 8 = le_bytes 2 entry_count /\
  slice file 8 12 = le_bytes 4 config_size.
Proof.
  cbv zeta. unfold header_record.
  assert (H4 : len (pack_s 4 MAGIC) = 4) by reflexivity.
  assert (H2 : len (le_bytes 2 256) = 2) by reflexivity.
  pose proof (SpriteFileFacts.len_le_bytes 2 entry_count) as Hn.
  pose proof (SpriteFileFacts.len_le_bytes 4 config_size) as Hc.
  rewrite <- !app_assoc. split; [|split].
  - apply (slice_at [] (pack_s 4 MAGIC)); [reflexivity | lia].
  - rewrite (app_assoc (pack_s 4 MAGIC)). apply slice_at; rewrite ?len_app; lia.
  - rewrite (app_assoc (pack_s 4 MAGIC)),
      (app_assoc (pack_s 4 MAGIC ++ le_bytes 2 256)).
    apply slice_at; rewrite ?len_app; lia.
Qed.

Lemma record_slices (file pre post : bytes) (e : entry) (eo : Z) :
  file = pre ++ entry_record e ++ post -> len pre = eo ->
  slice file eo (eo + 32) = pack_s 32 (e_name e) /\
  slice file (eo + 32) (eo + 36) = le_bytes 4 (e_offset e) /\
  slice file (eo + 36) (eo + 40) = le_bytes 4 (e_size e).
Proof.
  intros -> Hpre. unfold entry_record.
  set (N := pack_s 32 (e_name e)).
  set (O := le_bytes 4 (e_offset e)). set (S := le_bytes 4 (e_size e)).
  assert (HN : len N = 32) by (unfold len, N; now rewrite pack_s_length).
  assert (HO : len O = 4) by apply SpriteFileFacts.len_le_bytes.
  assert (HS : len S = 4) by apply SpriteFileFacts.len_le_bytes.
  rewrite <- !app_assoc. split; [|split].
  - apply slice_at; lia.
  - rewrite (app_assoc pre N). apply slice_at; rewrite ?len_app; lia.
  - rewrite (app_assoc pre N), (app_assoc (pre ++ N) O).
    apply slice_at; rewrite ?len_app; lia.
Qed.

Lemma types_fit_app (a b : list asset) :
  types_fit (a ++ b) = true -> types_fit a = true /\ types_fit b = true.
Proof. unfold types_fit. rewrite forallb_app. apply andb_true_iff. Qed.

(** X20. Extraction by name does read back a bundle whose embedded
    configuration is exactly 4 bytes long (12 + 4 is the table offset the
    reader assumes): the first asset whose name, cut to 31 bytes, is the
    requested one is extracted byte for byte, provided that name and the
    names before it are well-formed UTF-8. *)
Theorem extract_reads_four_byte_config_bundle
    (config : bytes) (l1 l2 : list asset) (rel_path : bytes) (ty : Z)
    (data : bytes) :
  let assets := l1 ++ (rel_path, ty, data) :: l2 in
  let name := rstrip0 (firstn 31 rel_path) in
  len config = 4 -> len assets < 65536 ->
  payload_size assets < 2 ^ 32 -> types_fit assets = true ->
  utf8_valid name = true ->
  Forall (fun a => utf8_valid (rstrip0 (firstn 31 (fst (fst a)))) = true
                   /\ rstrip0 (firstn 31 (fst (fst a))) <> name) l1 ->
  exists file,
    bundle_of config assets = Some file /\
    extract_asset file name = Extracted data.
Proof.
  cbv zeta. set (assets := l1 ++ (rel_path, ty, data) :: l2).
  set (name := rstrip0 (firstn 31 rel_path)).
  intros Hc Hn Hsize Hty Hname Hbefore.
  assert (Hne : config <> []) by (intros ->; discriminate Hc).
  eexists. split; [apply bundle_of_shape; try assumption; lia|].
  set (file := header_record (len assets) (len config) ++ config
               ++ List.concat (map entry_record (fst (collect_entries assets 0)))
               ++ List.concat (map snd assets)).
  pose proof (len_nonneg assets) as Hn0.
  destruct (header_slices (len assets) (len config)
              (config ++ List.concat (map entry_record (fst (collect_entries assets 0)))
               ++ List.concat (map snd assets))) as (E1 & E2 & _).
  fold file in E1, E2.
  unfold extract_asset. rewrite E1, E2.
  change (bytes_eqb (pack_s 4 MAGIC) (ascii_bytes "WISP")) with true. cbn [negb].
  unfold unpack_H. rewrite unpack_le_bytes by lia.
  assert (Hsplit : payload_size assets
                   = payload_size l1 + len data + payload_size l2).
  { unfold assets. rewrite payload_size_app, payload_size_cons. cbn [snd]. lia. }
  pose proof (payload_size_nonneg l1). pose proof (payload_size_nonneg l2).
  pose proof (len_nonneg data). pose proof (len_nonneg l1).
  assert (Hlen : len assets = len l1 + 1 + len l2)
    by (unfold assets; rewrite len_app, len_cons; lia).
  pose proof (len_nonneg l2).
  apply (BundleFacts.find_asset_first file name 16 _ data _ 0 (len l1)).
  - lia.
  - intros j Hj.
    destruct (nth_error l1 (Z.to_nat j)) as [[[q t] x]|] eqn:Ej;
      [|apply nth_error_None in Ej; unfold len in Hj; lia].
    destruct (nth_error_split _ _ Ej) as (la & lb & Hl1 & Hla).
    assert (Hin : In (q, t, x) l1) by (eapply nth_error_In; exact Ej).
    rewrite Forall_forall in Hbefore.
    destruct (Hbefore _ Hin) as [Hvalid Hdiff]. cbn [fst] in Hvalid, Hdiff.
    destruct (asset_place config assets la (lb ++ (rel_path, ty, data) :: l2) q t x)
      as (pre & post & _ & _ & Hfile & Hpre & _).
    { unfold assets. rewrite Hl1, <- app_assoc. reflexivity. }
    fold file in Hfile.
    destruct (record_slices file pre post _ (16 + j * 48) Hfile) as (S1 & _ & _).
    { rewrite Hpre, Hc. unfold len. rewrite Hla. lia. }
    exists (rstrip0 (firstn 31 q)). split; [|exact Hdiff].
    unfold entry_name. rewrite S1. cbn [e_name]. rewrite name_field.
    unfold decode_utf8. now rewrite Hvalid.
  - destruct (asset_place config assets l1 l2 rel_path ty data eq_refl)
      as (pre & post & _ & _ & Hfile & Hpre & _).
    fold file in Hfile.
    destruct (record_slices file pre post _ (16 + len l1 * 48) Hfile) as (S1 & _ & _);
      [lia|].
    unfold entry_name. rewrite S1. cbn [e_name]. rewrite name_field.
    fold name. unfold decode_utf8. now rewrite Hname.
  - destruct (asset_place config assets l1 l2 rel_path ty data eq_refl)
      as (pre & post & before & after & Hfile & Hpre & Hdata & Hbefore_len).
    fold file in Hfile, Hdata.
    destruct (record_slices file pre post _ (16 + len l1 * 48) Hfile) as (_ & S2 & S3);
      [lia|].
    unfold entry_payload. rewrite S2, S3. cbn [e_offset e_size].
    unfold unpack_I. rewrite !unpack_le_bytes by lia. cbn [bind].
    f_equal. rewrite Hdata. apply slice_at; lia.
Qed.

Lemma extract_reads_four_byte_config_bundle_witness :
  exists file,
    bundle_of four_byte_config ([(ascii_bytes "x", 8, [1])]
                                ++ (ascii_bytes "dup", 8, [65])
                                :: [(ascii_bytes "dup", 8, [66])]) = Some file /\
    extract_asset file (rstrip0 (firstn 31 (ascii_bytes "dup"))) = Extracted [65].
Proof.
  apply (extract_reads_four_byte_config_bundle four_byte_config
           [(ascii_bytes "x", 8, [1])] [(ascii_bytes "dup", 8, [66])]
           (ascii_bytes "dup") 8 [65]); try reflexivity.
  repeat constructor. discriminate.
Defined.

End ExtractFacts.

Module WriterLimits.
Import WispBuilder WispVerifier BundleLayout Samples ByteFacts.

(** X21. More than 65535 entries cannot be written: the entry count is a
    16-bit header field, so [write_wisp_bundle] raises [struct.error]
    whatever the payloads and the configuration. *)
Theorem too_many_entries (entries : list entry) (payloads : list bytes)
    (config_data : option bytes) :
  65536 <= len entries ->
  write_wisp_bundle entries payloads config_data = None.
Proof.
  intros Hn. unfold write_wisp_bundle, pack_header, pack_H.
  rewrite (pack_uint_Some 2 256) by (cbn; lia). cbn [bind].
  unfold pack_uint at 1.
  replace (len entries <? 2 ^ (8 * Z.of_nat 2)) with false
    by (symmetry; apply Z.ltb_ge; cbn; lia).
  rewrite andb_false_r. reflexivity.
Qed.

Lemma too_many_entries_witness :
  write_wisp_bundle
    (repeat {| e_name := []; e_offset := 0; e_size := 0; e_type := 0;
               e_flags := 0; e_reserved := [] |} (Z.to_nat 65536))
    [] (Some four_byte_config) = None.
Proof.
  apply too_many_entries. unfold len. rewrite repeat_length. lia.
Defined.

(** X22. [verify_wisp_file] lists a file only if it starts with the magic
    "WISP" and is long enough for the header, the configuration and the
    entry table that the header declares; the listing then has one line
    per declared entry. *)
Theorem verify_accepts_consistent_files (data : bytes) (lines : list listed) :
  verify_wisp_file data = Some lines ->
  exists entry_count config_size,
    unpack_H (slice data 6 8) = Some entry_count /\
    unpack_I (slice data 8 12) = Some config_size /\
    slice data 0 4 = ascii_bytes "WISP" /\
    12 <= len data /\
    12 + config_size + entry_count * 48 <= len data /\
    len lines = Z.max 0 entry_count.
Proof.
  unfold verify_wisp_file. intros H.
  destruct (len data <? 12) eqn:E12; [discriminate|]. apply Z.ltb_ge in E12.
  apply bind_Some in H as (entry_count & Hcount & H).
  apply bind_Some in H as (config_size & Hconfig & H).
  destruct (bytes_eqb (slice data 0 4) (ascii_bytes "WISP")) eqn:Emagic;
    [|discriminate].
  cbn [negb] in H.
  destruct (len data <? 12 + config_size + entry_count * 48) eqn:Elen;
    [discriminate|].
  apply Z.ltb_ge in Elen. apply mapM_length in H.
  exists entry_count, config_size.
  repeat split; try assumption.
  - now apply bytes_eqb_eq.
  - unfold len. rewrite H. unfold range. rewrite length_map, length_seq. lia.
Qed.

Lemma verify_accepts_consistent_files_witness :
  exists entry_count config_size,
    unpack_H (slice dup_file 6 8) = Some entry_count /\
    unpack_I (slice dup_file 8 12) = Some config_size /\
    slice dup_file 0 4 = ascii_bytes "WISP" /\
    12 <= len dup_file /\
    12 + config_size + entry_count * 48 <= len dup_file /\
    len (listing dup_assets 0) = Z.max 0 entry_count.
Proof.
  apply (verify_accepts_consistent_files dup_file (listing dup_assets 0)).
  vm_compute. reflexivity.
Defined.

End WriterLimits.

Module MatchFacts.
Import Numpy PngToSpr RomBuilderV2 RomLayout Samples ByteFacts.

(** Every 16-bit code is made of its three channels. *)
Lemma code_fields (c : Z) :
  0 <= c < 65536 ->
  c = ((c / 2048) mod 32) * 2048 + ((c / 32) mod 64) * 32 + c mod 32.
Proof.
  intros Hc.
  assert (Hhigh : 0 <= c / 2048 < 32)
    by (split; [apply Z.div_pos; lia | apply Z.div_lt_upper_bound; lia]).
  rewrite (Z.mod_small (c / 2048) 32) by exact Hhigh.
  pose proof (Z.div_mod c 2048 ltac:(lia)) as Hsplit.
  pose proof (Z.rem_mul_r c 32 64 ltac:(lia) ltac:(lia)) as Hlow.
  change (32 * 64) with 2048 in Hlow. lia.
Qed.

Lemma squared_distance_zero (target color : Z) :
  squared_distance target color = 0 -> channels target = channels color.
Proof.
  unfold squared_distance, channels.
  set (dr := (target / 2048) mod 32 - (color / 2048) mod 32).
  set (dg := (target / 32) mod 64 - (color / 32) mod 64).
  set (db := target mod 32 - color mod 32). intros H.
  pose proof (Z.square_nonneg dr). pose proof (Z.square_nonneg dg).
  pose proof (Z.square_nonneg db).
  assert (Hr : dr * dr = 0) by lia. assert (Hg : dg * dg = 0) by lia.
  assert (Hb : db * db = 0) by lia.
  apply Z.mul_eq_0 in Hr, Hg, Hb. unfold dr, dg, db in *.
  f_equal; [f_equal|]; lia.
Qed.

Lemma squared_distance_self (c : Z) : squared_distance c c = 0.
Proof. unfold squared_distance, channels. lia. Qed.

Lemma squared_distance_nonneg (target color : Z) :
  0 <= squared_distance target color.
Proof.
  unfold squared_distance, channels.
  pose proof (Z.square_nonneg ((target / 2048) mod 32 - (color / 2048) mod 32)).
  pose proof (Z.square_nonneg ((target / 32) mod 64 - (color / 32) mod 64)).
  pose proof (Z.square_nonneg (target mod 32 - color mod 32)). lia.
Qed.

(** X25. Under the value-based casting of NumPy 1.x a colour that is in
    the table is matched exactly: when the 16-bit code of a visible pixel
    occurs in a table of 16-bit codes and lies outside the magic range,
    the search returns the first index that holds this code.  (Under
    NumPy 2 the distance wraps modulo 256 and another entry can win, see
    [wrapped_distance_prefers_another_color].) *)
Theorem exact_color_is_matched (w : wlut) (target j : Z) :
  0 <= target < 65536 ->
  Forall (fun c => 0 <= c < 65536) (w_colors w) ->
  index (w_colors w) j = Some target ->
  is_magic target = false ->
  index (w_colors w) (find_closest_color_index value_based (Some w) target)
  = Some target /\
  find_closest_color_index value_based (Some w) target <= j.
Proof.
  intros Ht Htable Hj Hmagic.
  destruct (SpriteFacts.find_closest_color_index_best value_based w target)
    as (ci & Hi & Hci & Hbest).
  { exists j, target. now split. }
  destruct (Hbest j target Hj Hmagic) as [Hle Hfirst].
  rewrite !(SpriteFacts.distance_value_based target) in Hle, Hfirst by exact Ht.
  rewrite squared_distance_self in Hle, Hfirst.
  pose proof (squared_distance_nonneg target ci) as Hnn.
  assert (Hzero : squared_distance target ci = 0) by lia.
  split; [|apply Hfirst; lia].
  rewrite Hi. f_equal.
  assert (Hrange : 0 <= ci < 65536).
  { rewrite Forall_forall in Htable. apply Htable.
    unfold index in Hi. destruct (_ <? 0); [discriminate|].
    eapply nth_error_In. exact Hi. }
  apply squared_distance_zero in Hzero. unfold channels in Hzero.
  injection Hzero as Hr Hg Hb.
  rewrite (code_fields ci Hrange), (code_fields target Ht). congruence.
Qed.

Lemma exact_color_is_matched_witness :
  index (w_colors scenario_wlut)
    (find_closest_color_index value_based (Some scenario_wlut) 31)
  = Some 31 /\
  find_closest_color_index value_based (Some scenario_wlut) 31 <= 1.
Proof.
  apply (exact_color_is_matched scenario_wlut 31 1).
  - lia.
  - repeat constructor; cbn; lia.
  - reflexivity.
  - reflexivity.
Defined.

(** Under NumPy 2 the code 1 is in the table at index 1, but the entry
    0x8001 at index 0 has the wrapped distance (0 - 16)^2 mod 256 = 0 and
    wins. *)
Example wrapped_distance_prefers_another_color :
  distance weak_scalar 1 32769 = 0 /\
  find_closest_color_index weak_scalar
    (Some {| w_width := 0; w_height := 0; w_colors := [32769; 1]; w_count := 2 |})
    1 = 0.
Proof. vm_compute. split; reflexivity. Qed.

Lemma sorted_by_offset_counted (string_pool : pool) :
  forall s : nat,
    map snd string_pool = map Z.of_nat (seq s (List.length string_pool)) ->
    sorted_by_offset string_pool = string_pool.
Proof.
  induction string_pool as [|x rest IH]; intros s H; [reflexivity|].
  cbn [List.length seq map] in H. injection H as Hx Hrest.
  unfold sorted_by_offset in *. cbn [fold_right]. rewrite (IH (S s) Hrest).
  destruct rest as [|y rest']; [reflexivity|].
  cbn [List.length seq map] in Hrest. injection Hrest as Hy _.
  cbn [insert_by_offset].
  replace (snd x <=? snd y) with true by (symmetry; apply Z.leb_le; lia).
  reflexivity.
Qed.

(** X26. The string pool section lists the texts in the order in which
    they were interned, each followed by a null byte: for a pool as
    [add_string] builds it, sorting by offset changes nothing. *)
Theorem string_data_in_insertion_order (string_pool : pool) :
  pool_ok string_pool ->
  string_data string_pool = flat_map (fun kv => fst kv ++ [0]) string_pool.
Proof.
  intros [Hoffsets _]. unfold string_data.
  rewrite (sorted_by_offset_counted string_pool 0); [reflexivity|].
  rewrite Hoffsets. unfold range, len. now rewrite Nat2Z.id.
Qed.

Lemma string_data_in_insertion_order_witness :
  string_data potion_pool = flat_map (fun kv => fst kv ++ [0]) potion_pool.
Proof.
  apply (string_data_in_insertion_order potion_pool).
  split; [reflexivity|].
  repeat constructor; cbn; intuition discriminate.
Defined.

End MatchFacts.
